(** * Software alarms on one hardware comparator: [esp32/mods/machtimer_alarm.c]

    A shallow embedding of the alarm list of the Pycom ESP32 port and the
    proofs of the properties its specification states.

    The C module keeps three pieces of shared state: the alarm objects
    (allocated on the MicroPython heap, reached through pointers), the global
    [alarm_heap] (a counter and an array of 16 pointers to alarm objects) and
    the registers of hardware timer 0 of group 0.  Alarm objects are aliased:
    the array points to them, and the Python program holds them too.  The
    embedding therefore keeps an object store (a finite map from addresses to
    alarm records) and lets the array hold addresses.

    Undefined behaviour of the C code (a read or write outside the array, a
    dereference of NULL or of an address with no object) is the result [None]. *)

From Stdlib Require Import ZArith Lia Bool List.
From stdpp Require Import base option list gmap fin_maps.

Open Scope Z_scope.

(** ** Machine integers *)

Definition UINT32_MOD : Z := 2 ^ 32.
Definition UINT64_MOD : Z := 2 ^ 64.

Definition to_uint32 (z : Z) : Z := z mod UINT32_MOD.
Definition to_uint64 (z : Z) : Z := z mod UINT64_MOD.

(** [(uint32_t) -1], the value [heap_index] holds while an alarm is not in
    the list. *)
Definition NOT_PENDING : Z := to_uint32 (-1).

(** [#define ALARM_HEAP_MAX_ELEMENTS (16U)] *)
Definition ALARM_HEAP_MAX_ELEMENTS : Z := 16.

(** ** Data model *)

(** Addresses of alarm objects. *)
Definition ptr : Type := N.

(** [mp_obj_t]: the module compares objects with [mp_const_none] and passes
    them on; an alarm object and any other Python object are told apart only
    because [handler_arg] defaults to the alarm itself. *)
Inductive mp_obj_t : Type :=
  | mp_const_none
  | mp_obj_alarm (p : ptr)
  | mp_obj_other (id : N).

Definition is_none (o : mp_obj_t) : bool :=
  match o with mp_const_none => true | _ => false end.

(** [mp_obj_alarm_t] (the [base] field only holds the type pointer). *)
Record mp_obj_alarm_t : Type := mk_alarm {
  when : Z;              (* uint64_t *)
  interval : Z;          (* uint64_t *)
  heap_index : Z;        (* uint32_t *)
  handler : mp_obj_t;
  handler_arg : mp_obj_t;
  periodic : bool
}.

Definition with_when (w : Z) (a : mp_obj_alarm_t) : mp_obj_alarm_t :=
  mk_alarm w (interval a) (heap_index a) (handler a) (handler_arg a) (periodic a).
Definition with_heap_index (i : Z) (a : mp_obj_alarm_t) : mp_obj_alarm_t :=
  mk_alarm (when a) (interval a) i (handler a) (handler_arg a) (periodic a).
Definition with_handler (h : mp_obj_t) (a : mp_obj_alarm_t) : mp_obj_alarm_t :=
  mk_alarm (when a) (interval a) (heap_index a) h (handler_arg a) (periodic a).
Definition with_handler_arg (h : mp_obj_t) (a : mp_obj_alarm_t) : mp_obj_alarm_t :=
  mk_alarm (when a) (interval a) (heap_index a) (handler a) h (periodic a).

(** Writes to the registers of [TIMERG0], in program order. *)
Inductive hw_write : Type :=
  | W_alarm_en (b : bool)        (* hw_timer[0].config.alarm_en = b *)
  | W_alarm_high (v : Z)         (* hw_timer[0].alarm_high = v *)
  | W_alarm_low (v : Z)          (* hw_timer[0].alarm_low = v *)
  | W_update                     (* hw_timer[0].update = 1 *)
  | W_int_clr_t0.                (* int_clr_timers.t0 = 1 *)

(** The registers of timer 0 the module touches.  [counter] is the
    free-running 64-bit counter; it is not a register the code reads, the
    code reads its latched copy in [cnt_high] and [cnt_low].  [hw_log] keeps
    every register write, oldest first. *)
Record timer_hw : Type := mk_hw {
  alarm_en : bool;
  alarm_high : Z;
  alarm_low : Z;
  cnt_high : Z;
  cnt_low : Z;
  counter : Z;
  hw_log : list hw_write
}.

(** The whole state: [count] and [data] are the two fields of the global
    [alarm_heap]; a NULL slot is [None].  [objs] is the object store.
    [irq_queue] is the queue of [mp_irq_queue_interrupt]: the arguments handed
    to [alarm_handler], oldest first. *)
Record state : Type := mk_state {
  count : Z;                       (* uint32_t *)
  data : list (option ptr);        (* mp_obj_alarm_t *data[16] *)
  objs : gmap ptr mp_obj_alarm_t;
  hw : timer_hw;
  irq_queue : list ptr
}.

Definition with_count (c : Z) (s : state) : state :=
  mk_state c (data s) (objs s) (hw s) (irq_queue s).
Definition with_data (d : list (option ptr)) (s : state) : state :=
  mk_state (count s) d (objs s) (hw s) (irq_queue s).
Definition with_objs (o : gmap ptr mp_obj_alarm_t) (s : state) : state :=
  mk_state (count s) (data s) o (hw s) (irq_queue s).
Definition with_hw (h : timer_hw) (s : state) : state :=
  mk_state (count s) (data s) (objs s) h (irq_queue s).
Definition with_irq_queue (q : list ptr) (s : state) : state :=
  mk_state (count s) (data s) (objs s) (hw s) q.

(** ** Undefined behaviour as [None] *)

Notation "'do' x <- m ; f" :=
  (match m with Some x => f | None => None end)
  (at level 10, x pattern, m at level 100, f at level 200).

(** ** Primitive accesses *)

Definition in_array (i : Z) : bool := (0 <=? i) && (i <? ALARM_HEAP_MAX_ELEMENTS).

(** [alarm_heap.data[i]] as an rvalue. *)
Definition data_get (i : Z) (s : state) : option (option ptr) :=
  if in_array i then data s !! Z.to_nat i else None.

(** [alarm_heap.data[i] = v]. *)
Definition data_set (i : Z) (v : option ptr) (s : state) : option state :=
  if in_array i then
    match data s !! Z.to_nat i with
    | Some _ => Some (with_data (<[Z.to_nat i := v]> (data s)) s)
    | None => None
    end
  else None.

(** [*p] for an alarm pointer [p]. *)
Definition deref (p : ptr) (s : state) : option mp_obj_alarm_t := objs s !! p.

(** [*p = f ( *p )]: a write to fields of the object at [p]. *)
Definition obj_update (p : ptr) (f : mp_obj_alarm_t -> mp_obj_alarm_t) (s : state)
  : option state :=
  do a <- deref p s;
  Some (with_objs (<[p := f a]> (objs s)) s).

(** [alarm_heap.data[i]] followed by [->]: the address and the object. *)
Definition alarm_at (i : Z) (s : state) : option (ptr * mp_obj_alarm_t) :=
  do q <- data_get i s;
  do p <- q;
  do a <- deref p s;
  Some (p, a).

(** Modelled from the spec: the register block [TIMERG0] is declared in the
    SDK headers, which are not among the sources.  A write stores the value in
    its register; writing [update] also latches the counter into [cnt_high]
    and [cnt_low] (the adapter's "read current tick count"), and writing
    [int_clr_timers.t0] acknowledges the interrupt. *)
Definition hw_apply (w : hw_write) (h : timer_hw) : timer_hw :=
  let log := hw_log h ++ [w] in
  match w with
  | W_alarm_en b =>
      mk_hw b (alarm_high h) (alarm_low h) (cnt_high h) (cnt_low h) (counter h) log
  | W_alarm_high v =>
      mk_hw (alarm_en h) v (alarm_low h) (cnt_high h) (cnt_low h) (counter h) log
  | W_alarm_low v =>
      mk_hw (alarm_en h) (alarm_high h) v (cnt_high h) (cnt_low h) (counter h) log
  | W_update =>
      mk_hw (alarm_en h) (alarm_high h) (alarm_low h)
            (to_uint32 (Z.shiftr (counter h) 32)) (to_uint32 (counter h))
            (counter h) log
  | W_int_clr_t0 =>
      mk_hw (alarm_en h) (alarm_high h) (alarm_low h) (cnt_high h) (cnt_low h)
            (counter h) log
  end.

Definition reg_write (w : hw_write) (s : state) : state :=
  with_hw (hw_apply w (hw s)) s.

(** ** The functions of the module *)

(** [init_alarm_heap]: the array comes from [gc_alloc] (not among the
    sources); its 16 slots are taken as NULL.  The interpreter has no alarm
    objects yet. *)
Definition init_alarm_heap (h : timer_hw) : state :=
  mk_state 0 (replicate 16 None) ∅ h [].

(** [load_next_alarm] *)
Definition load_next_alarm (s : state) : option state :=
  let s := reg_write (W_alarm_en false) s in
  if 0 <? count s then
    do (_, a) <- alarm_at 0 s;
    let w := when a in
    let s := reg_write (W_alarm_high (to_uint32 (Z.shiftr w 32))) s in
    let s := reg_write (W_alarm_low (to_uint32 w)) s in
    Some (reg_write (W_alarm_en true) s)
  else Some s.

(** The first loop of [insert_alarm]:
    [for (; index < count; ++index) if (alarm->when <= data[index]->when) break;]
    with [n] the number of indices left below [count]. *)
Fixpoint insert_scan (n : nat) (w : Z) (index : Z) (s : state) : option Z :=
  match n with
  | O => Some index
  | S n' =>
      do (_, b) <- alarm_at index s;
      if w <=? when b then Some index
      else insert_scan n' w (index + 1) s
  end.

(** The second loop of [insert_alarm]:
    [for (index2 = count; index2 > index; index2--)], with [n] the distance
    of [index2] to [index]. *)
Fixpoint insert_shift (n : nat) (index : Z) (s : state) : option state :=
  match n with
  | O => Some s
  | S n' =>
      let index2 := index + Z.of_nat n in
      do q <- data_get (index2 - 1) s;
      do s <- data_set index2 q s;
      do p <- q;
      do s <- obj_update p (with_heap_index index2) s;
      insert_shift n' index s
  end.

(** [insert_alarm] *)
Definition insert_alarm (alarm : ptr) (s : state) : option state :=
  do (index, s) <-
    (if negb (count s =? 0) then
       do a <- deref alarm s;
       do index <- insert_scan (Z.to_nat (count s)) (when a) 0 s;
       do s <- insert_shift (Z.to_nat (count s - index)) index s;
       Some (index, s)
     else Some (0, s));
  do s <- data_set index (Some alarm) s;
  do s <- obj_update alarm (with_heap_index index) s;
  let s := with_count (to_uint32 (count s + 1)) s in
  if index =? 0 then load_next_alarm s else Some s.

(** The loop of [remove_alarm]:
    [for (index = alarm_heap_index; index < count; ++index)], with [n] the
    number of indices left below [count]. *)
Fixpoint remove_shift (n : nat) (index : Z) (s : state) : option state :=
  match n with
  | O => Some s
  | S n' =>
      do q <- data_get (index + 1) s;
      do s <- data_set index q s;
      do p <- q;
      do s <- obj_update p (with_heap_index index) s;
      do s <- data_set (index + 1) None s;
      remove_shift n' (index + 1) s
  end.

(** [remove_alarm] *)
Definition remove_alarm (alarm_heap_index : Z) (s : state) : option state :=
  do (p, _) <- alarm_at alarm_heap_index s;
  do s <- obj_update p (with_heap_index NOT_PENDING) s;
  do s <- data_set alarm_heap_index None s;
  let s := with_count (to_uint32 (count s - 1)) s in
  remove_shift (Z.to_nat (count s - alarm_heap_index)) alarm_heap_index s.

(** [set_alarm_when] *)
Definition set_alarm_when (alarm : ptr) (delta : Z) (s : state) : option state :=
  let s := reg_write W_update s in
  let now := Z.lor (Z.shiftl (cnt_high (hw s)) 32) (cnt_low (hw s)) in
  do s <- obj_update alarm (with_when now) s;
  obj_update alarm (fun a => with_when (to_uint64 (when a + delta)) a) s.

(** Modelled from the spec: [mp_irq_queue_interrupt] is defined in
    [util/mpirq.c], which is not among the sources.  The call
    [mp_irq_queue_interrupt(alarm_handler, alarm)] enqueues the pair for a
    later call outside interrupt context; the queue keeps the order of the
    calls. *)
Definition mp_irq_queue_interrupt (alarm : ptr) (s : state) : state :=
  with_irq_queue (irq_queue s ++ [alarm]) s.

(** The first half of the body of [timer_alarm_isr]: capture [data[0]] and
    call [remove_alarm(0)].  The result is the captured pointer and the state
    in which the handler goes on. *)
Definition isr_pop (s : state) : option (ptr * state) :=
  do q <- data_get 0 s;
  do s <- remove_alarm 0 s;
  do alarm <- q;
  Some (alarm, s).

(** [timer_alarm_isr] *)
Definition timer_alarm_isr (s : state) : option state :=
  let s := reg_write W_int_clr_t0 s in
  if 0 <? count s then
    do (alarm, s) <- isr_pop s;
    do a <- deref alarm s;
    do s <-
      (if periodic a then
         do s <- set_alarm_when alarm (interval a) s;
         insert_alarm alarm s
       else Some s);
    do s <- load_next_alarm s;
    Some (mp_irq_queue_interrupt alarm s)
  else Some s.

(** ** The Python-facing functions *)

(** How a call ends: it returns, or raises one of the two exceptions the
    module raises. *)
Inductive result (A : Type) : Type :=
  | Ok (a : A)
  | ValueError
  | MemoryError.
Arguments Ok {A} a.
Arguments ValueError {A}.
Arguments MemoryError {A}.

(** [alarm_set_callback_helper].  [mp_irq_handler_add] ([util/mpirq.c], not
    among the sources) records the handler with the interpreter and touches
    nothing of the state above.  The critical section is entered and left
    without touching that state either. *)
Definition alarm_set_callback_helper (self : ptr) (handler0 handler_arg0 : mp_obj_t)
    (s : state) : option (state * result unit) :=
  do s <- obj_update self (with_handler handler0) s;
  let handler_arg1 := if is_none handler_arg0 then mp_obj_alarm self else handler_arg0 in
  do s <- obj_update self (with_handler_arg handler_arg1) s;
  do a <- deref self s;
  if is_none handler0 then
    if negb (heap_index a =? NOT_PENDING) then
      do s <- remove_alarm (heap_index a) s;
      Some (s, Ok tt)
    else Some (s, Ok tt)
  else
    if heap_index a =? NOT_PENDING then
      if count s =? ALARM_HEAP_MAX_ELEMENTS then Some (s, MemoryError)
      else
        do s <- set_alarm_when self (interval a) s;
        do s <- insert_alarm self s;
        Some (s, Ok tt)
    else Some (s, Ok tt).

(** [alarm_callback], after argument parsing. *)
Definition alarm_callback (self : ptr) (handler0 arg : mp_obj_t) (s : state)
  : option (state * result unit) :=
  alarm_set_callback_helper self handler0 arg s.

(** [alarm_delete]: the method [cancel], and the finaliser [__del__]. *)
Definition alarm_delete (self : ptr) (s : state) : option state :=
  do a <- deref self s;
  if negb (heap_index a =? NOT_PENDING) then remove_alarm (heap_index a) s
  else Some s.

(** The [float s] of [alarm_make_new], by the three things the function does
    with it: [s != 0.0], [s < 0.0] and [(uint64_t) (s * CLK_FREQ + 0.5)]. *)
Record float_arg : Type := mk_float {
  f_nonzero : bool;
  f_negative : bool;
  f_clocks : Z
}.

(** [float s = 0.0], the value when the argument [s] is not given. *)
Definition float_zero : float_arg := mk_float false false 0.

(** The parsed arguments of the constructor; [a_ms] and [a_us] are [mp_int_t]
    values as [mp_arg_parse_all] delivers them. *)
Record new_args : Type := mk_args {
  a_handler : mp_obj_t;
  a_s : float_arg;
  a_ms : Z;
  a_us : Z;
  a_arg : mp_obj_t;
  a_periodic : bool
}.

(** [#define CLK_FREQ (APB_CLK_FREQ / 2)]: [APB_CLK_FREQ] comes from the SDK
    and is a parameter here.  C division truncates. *)
Definition CLK_FREQ (APB_CLK_FREQ : Z) : Z := Z.quot APB_CLK_FREQ 2.

(** The validation and the conversion to clock ticks in [alarm_make_new].
    [ms] and [us] are [uint32_t]; the products with the [int] constants are
    taken in 32 bits, the sum in 64. *)
Definition alarm_make_new_clocks (APB_CLK_FREQ : Z) (args : new_args) : result Z :=
  let s := a_s args in
  let ms := to_uint32 (a_ms args) in
  let us := to_uint32 (a_us args) in
  if negb (Z.b2z (f_nonzero s) + Z.b2z (negb (ms =? 0)) + Z.b2z (negb (us =? 0)) =? 1)
  then ValueError
  else if f_negative s || (ms <? 0) || (us <? 0)
  then ValueError
  else Ok (to_uint64 (to_uint64 (f_clocks s
             + to_uint32 (ms * Z.quot (CLK_FREQ APB_CLK_FREQ) 1000))
             + to_uint32 (us * Z.quot (CLK_FREQ APB_CLK_FREQ) 1000000))).

(** Modelled from the spec: [m_new_obj_with_finaliser] is the interpreter's
    allocator, which is not among the sources.  It gives a new object at an
    address not in use; the fields the constructor does not write are taken as
    zero or none. *)
Definition m_new_obj (s : state) : ptr * state :=
  let p := fresh (dom (objs s)) in
  (p, with_objs (<[p := mk_alarm 0 0 0 mp_const_none mp_const_none false]> (objs s)) s).

(** [alarm_make_new] *)
Definition alarm_make_new (APB_CLK_FREQ : Z) (args : new_args) (s : state)
  : option (state * result ptr) :=
  match alarm_make_new_clocks APB_CLK_FREQ args with
  | Ok clocks =>
      let (self, s) := m_new_obj s in
      do s <- obj_update self (fun a =>
                mk_alarm (when a) clocks NOT_PENDING (handler a) (handler_arg a)
                         (a_periodic args)) s;
      do (s, r) <- alarm_set_callback_helper self (a_handler args) (a_arg args) s;
      match r with
      | Ok _ => Some (s, Ok self)
      | ValueError => Some (s, ValueError)
      | MemoryError => Some (s, MemoryError)
      end
  | ValueError => Some (s, ValueError)
  | MemoryError => Some (s, MemoryError)
  end.

(** ** Runs *)

(** What can happen to the module: the three Python entry points, the timer
    interrupt, and the counter moving on. *)
Inductive op : Type :=
  | Op_new (args : new_args)
  | Op_callback (self : ptr) (handler0 arg : mp_obj_t)
  | Op_cancel (self : ptr)
  | Op_isr
  | Op_tick (c : Z).

(** The counter moves to [c]; it is 64 bits wide. *)
Definition set_counter (c : Z) (s : state) : state :=
  let h := hw s in
  with_hw (mk_hw (alarm_en h) (alarm_high h) (alarm_low h) (cnt_high h) (cnt_low h)
                 (to_uint64 c) (hw_log h)) s.

(** One operation; the result of a Python call (returned or raised) is
    dropped, the state goes on. *)
Definition step (APB_CLK_FREQ : Z) (o : op) (s : state) : option state :=
  match o with
  | Op_new args => do (s, _) <- alarm_make_new APB_CLK_FREQ args s; Some s
  | Op_callback self h arg => do (s, _) <- alarm_callback self h arg s; Some s
  | Op_cancel self => alarm_delete self s
  | Op_isr => timer_alarm_isr s
  | Op_tick c => Some (set_counter c s)
  end.

(** A sequence of operations, first to last. *)
Fixpoint run (APB_CLK_FREQ : Z) (ops : list op) (s : state) : option state :=
  match ops with
  | [] => Some s
  | o :: ops => do s <- step APB_CLK_FREQ o s; run APB_CLK_FREQ ops s
  end.

(** The timer with all registers zero. *)
Definition hw_reset : timer_hw := mk_hw false 0 0 0 0 0 [].

(** The alarms in the list, by index: address and deadline. *)
Definition pending (s : state) : list (option (ptr * Z)) :=
  map (fun i => do (p, a) <- alarm_at (Z.of_nat i) s; Some (p, when a))
      (seq 0 (Z.to_nat (count s))).

(** The deadline of the alarm at index [i] (0 where there is none). *)
Definition deadline (s : state) (i : Z) : Z :=
  match alarm_at i s with Some (_, a) => when a | None => 0 end.

(** ** Invariants *)

(** The linkage between the array and the objects: the list is dense, at most
    16 long, every listed alarm knows its index, and an object whose
    [heap_index] is not the sentinel is the one listed at that index.  The
    [uint64_t] field [when] and the counter are in range. *)
Record wf (s : state) : Prop := mk_wf {
  wf_len : length (data s) = 16%nat;
  wf_count : 0 <= count s <= ALARM_HEAP_MAX_ELEMENTS;
  wf_slot : forall i, 0 <= i < count s ->
      exists p a, alarm_at i s = Some (p, a) /\ heap_index a = i;
  wf_obj : forall p a, objs s !! p = Some a ->
      heap_index a = NOT_PENDING \/
      (0 <= heap_index a < count s /\ data_get (heap_index a) s = Some (Some p));
  wf_when : forall p a, objs s !! p = Some a -> 0 <= when a < UINT64_MOD;
  wf_counter : 0 <= counter (hw s) < UINT64_MOD
}.

(** The list is ordered by deadline. *)
Definition ordered (s : state) : Prop :=
  forall i j, 0 <= i <= j -> j < count s -> deadline s i <= deadline s j.

(** An alarm is in the list: some index below [count] holds its address. *)
Definition member (p : ptr) (s : state) : Prop :=
  exists i, 0 <= i < count s /\ data_get i s = Some (Some p).

(** ** Definitions for the proofs and the statements *)

(** Indices [lo .. hi-1] hold alarms. *)
Definition slots_ok (s : state) (lo hi : Z) : Prop :=
  forall j, lo <= j < hi -> exists p a, alarm_at j s = Some (p, a).

(** No address occurs twice among the indices [lo .. hi-1]. *)
Definition slots_inj (s : state) (lo hi : Z) : Prop :=
  forall j1 j2 p, lo <= j1 < hi -> lo <= j2 < hi ->
    data_get j1 s = Some (Some p) -> data_get j2 s = Some (Some p) -> j1 = j2.

(** The register writes of [load_next_alarm]: the one it always does, and
    all four when the list is not empty. *)
Definition hw_disarm (h : timer_hw) : timer_hw := hw_apply (W_alarm_en false) h.

Definition hw_arm (w : Z) (h : timer_hw) : timer_hw :=
  hw_apply (W_alarm_en true)
    (hw_apply (W_alarm_low (to_uint32 w))
       (hw_apply (W_alarm_high (to_uint32 (Z.shiftr w 32))) (hw_disarm h))).

(** What [insert_alarm] does to the object at [p] when it places [alarm] at
    index [k] of a list of [c] alarms. *)
Definition insert_renumber (k c : Z) (alarm p : ptr) (b : mp_obj_alarm_t)
  : mp_obj_alarm_t :=
  if decide (p = alarm) then with_heap_index k b
  else if (k <=? heap_index b) && (heap_index b <? c)
       then with_heap_index (heap_index b + 1) b
       else b.

(** [insert_alarm] calls [load_next_alarm] only for index 0. *)
Definition insert_hw (k w : Z) (h : timer_hw) : timer_hw :=
  if k =? 0 then hw_arm w h else h.

(** What [remove_alarm] does to the object at [p] when it takes the alarm
    [victim] from index [i] of a list of [c] alarms. *)
Definition remove_renumber (i c : Z) (victim p : ptr) (b : mp_obj_alarm_t)
  : mp_obj_alarm_t :=
  if decide (p = victim) then with_heap_index NOT_PENDING b
  else if (i <? heap_index b) && (heap_index b <? c)
       then with_heap_index (heap_index b - 1) b
       else b.

(** The array, the counter and the objects after [alarm] was inserted at
    index [k], and after [victim] was removed from index [i]. *)
Definition insert_post (s : state) (alarm : ptr) (k : Z) (s' : state) : Prop :=
  count s' = count s + 1 /\ length (data s') = 16%nat /\
  (forall j, data_get j s' =
     if j <? k then data_get j s
     else if j =? k then Some (Some alarm)
     else if j <=? count s then data_get (j - 1) s
     else data_get j s) /\
  (forall p, objs s' !! p = insert_renumber k (count s) alarm p <$> objs s !! p).

Definition remove_post (s : state) (victim : ptr) (i : Z) (s' : state) : Prop :=
  count s' = count s - 1 /\ length (data s') = 16%nat /\
  (forall j, data_get j s' =
     if j <? i then data_get j s
     else if j <? count s - 1 then data_get (j + 1) s
     else if j =? count s - 1 then Some None
     else data_get j s) /\
  (forall p, objs s' !! p = remove_renumber i (count s) victim p <$> objs s !! p).

(** The first two statements of [alarm_set_callback_helper]. *)
Definition set_handlers (self : ptr) (handler0 handler_arg0 : mp_obj_t)
    (a : mp_obj_alarm_t) : mp_obj_alarm_t :=
  with_handler_arg (if is_none handler_arg0 then mp_obj_alarm self else handler_arg0)
    (with_handler handler0 a).

(** An entry point that takes an alarm is called on an alarm that exists. *)
Definition op_valid (o : op) (s : state) : bool :=
  match o with
  | Op_callback self _ _ | Op_cancel self =>
      match objs s !! self with Some _ => true | None => false end
  | _ => true
  end.

Fixpoint ops_valid (clk : Z) (ops : list op) (s : state) : bool :=
  match ops with
  | [] => true
  | o :: ops =>
      op_valid o s &&
      match step clk o s with
      | Some s' => ops_valid clk ops s'
      | None => false
      end
  end.

(** Boolean versions of [wf] and [ordered], to check concrete states by
    computation. *)
Definition slot_okb (s : state) (i : nat) : bool :=
  match alarm_at (Z.of_nat i) s with
  | Some (_, a) => heap_index a =? Z.of_nat i
  | None => false
  end.

Definition obj_okb (s : state) (p : ptr) (a : mp_obj_alarm_t) : bool :=
  ((heap_index a =? NOT_PENDING) ||
   ((0 <=? heap_index a) && (heap_index a <? count s) &&
    bool_decide (data_get (heap_index a) s = Some (Some p)))) &&
  ((0 <=? when a) && (when a <? UINT64_MOD)).

Definition wfb (s : state) : bool :=
  bool_decide (length (data s) = 16%nat) &&
  ((0 <=? count s) && (count s <=? ALARM_HEAP_MAX_ELEMENTS)) &&
  forallb (slot_okb s) (seq 0 (Z.to_nat (count s))) &&
  forallb (fun '(p, a) => obj_okb s p a) (map_to_list (objs s)) &&
  ((0 <=? counter (hw s)) && (counter (hw s) <? UINT64_MOD)).

Definition orderedb (s : state) : bool :=
  let idx := seq 0 (Z.to_nat (count s)) in
  forallb (fun i => forallb (fun j =>
      (j <? i)%nat || (deadline s (Z.of_nat i) <=? deadline s (Z.of_nat j))) idx) idx.

(** Concrete scenarios: a handler object. *)
Definition hnd : mp_obj_t := mp_obj_other 7.

(** With [APB_CLK_FREQ] = 2 MHz one microsecond is one tick. *)
Definition clk_1MHz : Z := 2000000.

(** [Alarm(hnd, us=us, periodic=per)] *)
Definition args_us (us : Z) (per : bool) : new_args :=
  mk_args hnd float_zero 0 us mp_const_none per.

(** The state after [init_alarm_heap], with the timer at its reset values. *)
Definition s_init : state := init_alarm_heap hw_reset.

(** The state after a run from [s_init]. *)
Definition after (ops : list op) : state := default s_init (run clk_1MHz ops s_init).

(** A one-shot alarm of 5000 ticks and a periodic one of 3000 ticks, both
    made at tick 0: the list is [B@3000, A@5000]. *)
Definition ops_AB : list op := [Op_new (args_us 5000 false); Op_new (args_us 3000 true)].

(** Two alarms made at tick 0 with 3000 ticks each, the first one cancelled:
    the list is [1@3000], and alarm 0 still has the deadline 3000. *)
Definition ops_tie : list op :=
  [Op_new (args_us 3000 false); Op_new (args_us 3000 true); Op_cancel 0%N].

(** Sixteen alarms. *)
Definition ops_full : list op :=
  ops_AB ++ ops_AB ++ ops_AB ++ ops_AB ++ ops_AB ++ ops_AB ++ ops_AB ++ ops_AB.

(** A run with two constructions, a cancellation, a re-activation and an
    interrupt. *)
Definition ops_mixed : list op :=
  ops_AB ++ [Op_cancel 1%N; Op_tick 100; Op_callback 1%N hnd mp_const_none;
             Op_tick 3100; Op_isr].

(** The position of the alarm object [a] at address [p] is valid: in range,
    and the slot there points back to [p]. *)
Definition position_valid (p : ptr) (a : mp_obj_alarm_t) (s : state) : Prop :=
  0 <= heap_index a < count s /\ data_get (heap_index a) s = Some (Some p).

(** The position is valid exactly for the alarms in the list, and is the
    sentinel for the others. *)
Definition position_invariant (s : state) : Prop :=
  forall p a, objs s !! p = Some a ->
    (position_valid p a s <-> member p s) /\
    (~ member p s -> heap_index a = NOT_PENDING).

(** The value in the comparator registers. *)
Definition comparator (h : timer_hw) : Z :=
  Z.lor (Z.shiftl (alarm_high h) 32) (alarm_low h).

(** ** Further definitions: the list, arming, dispatch *)

(** The list proper: the first [count] slots of the array. *)
Definition alarm_list (s : state) : list (option ptr) :=
  take (Z.to_nat (count s)) (data s).

(** The comparator serves the list: it is enabled exactly when the list is
    not empty, and then it holds the deadline of the alarm at index 0. *)
Definition armed_ok (s : state) : Prop :=
  (alarm_en (hw s) = true <-> 0 < count s) /\
  (0 < count s -> comparator (hw s) = deadline s 0).

(** No slot at or above [count] holds a pointer. *)
Definition tail_null (s : state) : Prop :=
  forall j, count s <= j < ALARM_HEAP_MAX_ELEMENTS -> data_get j s = Some None.

(** [alarm_handler], which the interpreter calls later for each queued pair.
    [mp_call_function_1] runs Python code; the result here is the call that
    is made, handler and argument, or no call when the handler is none. *)
Definition alarm_handler (arg : ptr) (s : state)
  : option (option (mp_obj_t * mp_obj_t)) :=
  do alarm <- deref arg s;
  if negb (is_none (handler alarm))
  then Some (Some (handler alarm, handler_arg alarm))
  else Some None.

(** An object of [s] is still there in [s'], with the interval and the
    periodicity it was constructed with. *)
Definition objs_kept (s s' : state) : Prop :=
  forall p a, objs s !! p = Some a ->
    exists a', objs s' !! p = Some a' /\
      interval a' = interval a /\ periodic a' = periodic a.

(** What every operation keeps: the objects with their interval and
    periodicity, and the NULL slots above the list. *)
Definition keeps (s s' : state) : Prop :=
  objs_kept s s' /\ (tail_null s -> tail_null s').

(** ** Basic facts *)

Ltac zb :=
  repeat match goal with
  | |- context [?a <=? ?b] => destruct (Z.leb_spec a b)
  | |- context [?a <? ?b] => destruct (Z.ltb_spec a b)
  | |- context [?a =? ?b] => destruct (Z.eqb_spec a b)
  | H : context [?a <=? ?b] |- _ => destruct (Z.leb_spec a b)
  | H : context [?a <? ?b] |- _ => destruct (Z.ltb_spec a b)
  | H : context [?a =? ?b] |- _ => destruct (Z.eqb_spec a b)
  end; simpl in *; try lia; try congruence.

Lemma NOT_PENDING_val : NOT_PENDING = 4294967295.
Proof. reflexivity. Qed.

Lemma in_array_spec i : in_array i = true <-> 0 <= i < 16.
Proof. unfold in_array, ALARM_HEAP_MAX_ELEMENTS. zb; intuition (try lia; try discriminate). Qed.

Lemma in_array_false i : in_array i = false <-> ~ (0 <= i < 16).
Proof. rewrite <- in_array_spec. destruct (in_array i); intuition congruence. Qed.

Lemma data_get_in s i : length (data s) = 16%nat -> 0 <= i < 16 ->
  exists q, data_get i s = Some q.
Proof.
  intros Hl Hi. unfold data_get. rewrite (proj2 (in_array_spec i) Hi).
  destruct (data s !! Z.to_nat i) eqn:E; eauto.
  apply lookup_ge_None in E. lia.
Qed.

Lemma data_get_range s i q : data_get i s = Some q -> 0 <= i < 16.
Proof.
  unfold data_get. destruct (in_array i) eqn:E; [|discriminate].
  intros _. by apply in_array_spec.
Qed.

Lemma data_set_some s i v : length (data s) = 16%nat -> 0 <= i < 16 ->
  data_set i v s = Some (with_data (<[Z.to_nat i := v]> (data s)) s).
Proof.
  intros Hl Hi. unfold data_set. rewrite (proj2 (in_array_spec i) Hi).
  destruct (data s !! Z.to_nat i) eqn:E; eauto.
  apply lookup_ge_None in E. lia.
Qed.

Lemma data_set_inv s i v s' : data_set i v s = Some s' ->
  0 <= i < 16 /\ s' = with_data (<[Z.to_nat i := v]> (data s)) s /\
  (Z.to_nat i < length (data s))%nat.
Proof.
  unfold data_set. destruct (in_array i) eqn:E; [|discriminate].
  apply in_array_spec in E.
  destruct (data s !! Z.to_nat i) eqn:E'; [|discriminate].
  intros [= <-]. apply lookup_lt_Some in E'. auto.
Qed.

Lemma data_get_set s i v s' j : data_set i v s = Some s' ->
  data_get j s' = if j =? i then Some v else data_get j s.
Proof.
  intros H. apply data_set_inv in H as (Hi & -> & Hlt).
  unfold data_get; simpl. destruct (Z.eqb_spec j i) as [->|Hne].
  - rewrite (proj2 (in_array_spec i) Hi). by apply list_lookup_insert_eq.
  - destruct (in_array j) eqn:E; [|done]. apply in_array_spec in E.
    apply list_lookup_insert_ne. lia.
Qed.

Lemma data_set_frame s i v s' : data_set i v s = Some s' ->
  count s' = count s /\ objs s' = objs s /\ hw s' = hw s /\
  irq_queue s' = irq_queue s /\ length (data s') = length (data s).
Proof.
  intros H. apply data_set_inv in H as (Hi & -> & Hlt). simpl.
  by rewrite length_insert.
Qed.

Lemma obj_update_inv p f s s' : obj_update p f s = Some s' ->
  exists a, objs s !! p = Some a /\ s' = with_objs (<[p := f a]> (objs s)) s.
Proof.
  unfold obj_update, deref. destruct (objs s !! p) eqn:E; [|discriminate].
  intros [= <-]. eauto.
Qed.

Lemma obj_update_some p f s a : objs s !! p = Some a ->
  obj_update p f s = Some (with_objs (<[p := f a]> (objs s)) s).
Proof. intros H. unfold obj_update, deref. by rewrite H. Qed.

Lemma obj_update_lookup p f s s' q : obj_update p f s = Some s' ->
  objs s' !! q = if decide (q = p) then f <$> objs s !! p else objs s !! q.
Proof.
  intros H. apply obj_update_inv in H as (a & Ha & ->). simpl.
  rewrite lookup_insert. destruct (decide (p = q)) as [->|Hne].
  - rewrite decide_True by done. by rewrite Ha.
  - by rewrite decide_False by congruence.
Qed.

Lemma obj_update_frame p f s s' : obj_update p f s = Some s' ->
  count s' = count s /\ data s' = data s /\ hw s' = hw s /\
  irq_queue s' = irq_queue s.
Proof. intros H. apply obj_update_inv in H as (a & Ha & ->). done. Qed.

Lemma obj_update_data_get p f s s' j : obj_update p f s = Some s' ->
  data_get j s' = data_get j s.
Proof.
  intros H. apply obj_update_frame in H as (_ & Hd & _).
  unfold data_get. by rewrite Hd.
Qed.

Lemma alarm_at_inv i s p a : alarm_at i s = Some (p, a) ->
  data_get i s = Some (Some p) /\ objs s !! p = Some a.
Proof.
  unfold alarm_at, deref. intros H.
  destruct (data_get i s) as [[q|]|]; try discriminate.
  destruct (objs s !! q) eqn:E; [|discriminate]. by injection H as -> ->.
Qed.

Lemma alarm_at_some i s p a : data_get i s = Some (Some p) -> objs s !! p = Some a ->
  alarm_at i s = Some (p, a).
Proof. intros H1 H2. unfold alarm_at, deref. by rewrite H1, H2. Qed.

Lemma deadline_at i s p a : data_get i s = Some (Some p) -> objs s !! p = Some a ->
  deadline s i = when a.
Proof. intros H1 H2. unfold deadline. by rewrite (alarm_at_some _ _ _ _ H1 H2). Qed.

(** ** The loops *)

Lemma insert_scan_spec n w : forall index s,
  slots_ok s index (index + Z.of_nat n) ->
  exists k, insert_scan n w index s = Some k /\
    index <= k <= index + Z.of_nat n /\
    (forall j, index <= j < k -> deadline s j < w) /\
    (k < index + Z.of_nat n -> w <= deadline s k).
Proof.
  induction n as [|n IH]; intros index s Hok.
  - exists index. simpl. repeat split; intros; lia.
  - destruct (Hok index) as (p & a & Ha); [lia|].
    cbn [insert_scan]. rewrite Ha.
    destruct (Z.leb_spec w (when a)) as [Hle|Hgt].
    + exists index. repeat split; try lia.
      intros _. unfold deadline. by rewrite Ha.
    + destruct (IH (index + 1) s) as (k & Hk & Hr & Hlt & Hge).
      { intros j Hj. apply Hok. lia. }
      exists k. rewrite Hk. split; [done|]. split; [lia|]. split.
      * intros j Hj. destruct (Z.eq_dec j index) as [->|Hne].
        -- unfold deadline. rewrite Ha. lia.
        -- apply Hlt. lia.
      * intros Hk'. apply Hge. lia.
Qed.

Lemma insert_shift_S n index s :
  insert_shift (S n) index s =
  (let index2 := index + Z.of_nat n + 1 in
   do q <- data_get (index2 - 1) s;
   do s <- data_set index2 q s;
   do p <- q;
   do s <- obj_update p (with_heap_index index2) s;
   insert_shift n index s).
Proof.
  cbn [insert_shift]. by replace (index + Z.of_nat (S n)) with (index + Z.of_nat n + 1) by lia.
Qed.

Lemma insert_shift_spec n : forall index s,
  length (data s) = 16%nat -> 0 <= index -> index + Z.of_nat n < 16 ->
  slots_ok s index (index + Z.of_nat n) ->
  slots_inj s index (index + Z.of_nat n) ->
  exists s', insert_shift n index s = Some s' /\
    count s' = count s /\ hw s' = hw s /\ irq_queue s' = irq_queue s /\
    length (data s') = 16%nat /\
    (forall j, data_get j s' =
       if (index <? j) && (j <=? index + Z.of_nat n) then data_get (j - 1) s
       else data_get j s) /\
    (forall j p, index <= j < index + Z.of_nat n -> data_get j s = Some (Some p) ->
       objs s' !! p = with_heap_index (j + 1) <$> objs s !! p) /\
    (forall p, (forall j, index <= j < index + Z.of_nat n ->
                  data_get j s <> Some (Some p)) ->
       objs s' !! p = objs s !! p).
Proof.
  induction n as [|n IH]; intros index s Hlen Hidx Hhi Hok Hinj.
  - exists s. simpl. repeat split; auto.
    + intros j. zb.
    + intros; lia.
  - rewrite insert_shift_S. cbv zeta.
    replace (index + Z.of_nat n + 1 - 1) with (index + Z.of_nat n) by lia.
    destruct (Hok (index + Z.of_nat n)) as (p & a & Ha); [lia|].
    apply alarm_at_inv in Ha as [Hp Ha]. rewrite Hp.
    destruct (data_set (index + Z.of_nat n + 1) (Some p) s) as [s1|] eqn:E1.
    2:{ rewrite data_set_some in E1 by (auto; lia). discriminate. }
    pose proof (data_set_frame _ _ _ _ E1) as (Hc1 & Ho1 & Hh1 & Hq1 & Hl1).
    assert (Ha1 : objs s1 !! p = Some a) by (by rewrite Ho1).
    rewrite (obj_update_some _ _ _ _ Ha1).
    set (s2 := with_objs _ s1).
    assert (E2 : obj_update p (with_heap_index (index + Z.of_nat n + 1)) s1 = Some s2)
      by (by apply obj_update_some).
    assert (Hg2 : forall j, data_get j s2 =
              if j =? index + Z.of_nat n + 1 then Some (Some p) else data_get j s).
    { intros j. rewrite (obj_update_data_get _ _ _ _ j E2). by apply data_get_set. }
    assert (Ho2 : forall q, objs s2 !! q =
              if decide (q = p) then Some (with_heap_index (index + Z.of_nat n + 1) a)
              else objs s !! q).
    { intros q. rewrite (obj_update_lookup _ _ _ _ q E2), Ho1.
      destruct (decide (q = p)); [by rewrite Ha|done]. }
    destruct (IH index s2) as (s' & Hs' & Hc & Hh & Hq & Hl & Hd & Hmv & Hst); auto.
    { simpl. lia. }
    { lia. }
    { intros j Hj. destruct (Hok j) as (p' & a' & Ha'); [lia|].
      apply alarm_at_inv in Ha' as [Hp' Ha'].
      exists p'. destruct (decide (p' = p)) as [->|Hne].
      - eexists. apply alarm_at_some.
        + rewrite Hg2. zb.
        + rewrite Ho2. by rewrite decide_True.
      - exists a'. apply alarm_at_some.
        + rewrite Hg2. zb.
        + rewrite Ho2. by rewrite decide_False. }
    { intros j1 j2 q Hj1 Hj2. rewrite !Hg2.
      destruct (Z.eqb_spec j1 (index + Z.of_nat n + 1)); [lia|].
      destruct (Z.eqb_spec j2 (index + Z.of_nat n + 1)); [lia|].
      apply Hinj; lia. }
    exists s'. rewrite Hs'. split; [done|].
    split; [by rewrite Hc|]. split; [by rewrite Hh|]. split; [by rewrite Hq|].
    split; [done|]. split; [|split].
    + intros j. rewrite Hd, !Hg2.
      destruct (Z.ltb_spec index j), (Z.leb_spec j (index + Z.of_nat n)),
        (Z.leb_spec j (index + Z.of_nat (S n))),
        (Z.eqb_spec j (index + Z.of_nat n + 1)),
        (Z.eqb_spec (j - 1) (index + Z.of_nat n + 1)); simpl; try lia; try done.
      by replace (j - 1) with (index + Z.of_nat n) by lia.
    + intros j q Hj Hq'.
      destruct (Z.eq_dec j (index + Z.of_nat n)) as [->|Hne].
      * assert (q = p) as -> by congruence.
        rewrite Hst.
        -- rewrite Ho2, decide_True by done. by rewrite Ha.
        -- intros j' Hj'. rewrite Hg2.
           destruct (Z.eqb_spec j' (index + Z.of_nat n + 1)); [lia|].
           intros Hc'. assert (j' = index + Z.of_nat n) by (eapply Hinj; eauto; lia). lia.
      * assert (q <> p).
        { intros ->. apply Hne. eapply Hinj; eauto; lia. }
        rewrite (Hmv j q); [|lia|].
        -- by rewrite Ho2, decide_False.
        -- rewrite Hg2. destruct (Z.eqb_spec j (index + Z.of_nat n + 1)); [lia|done].
    + intros q Hq'. rewrite Hst.
      * rewrite Ho2. destruct (decide (q = p)) as [->|]; [|done].
        exfalso. apply (Hq' (index + Z.of_nat n)); [lia|done].
      * intros j Hj. rewrite Hg2.
        destruct (Z.eqb_spec j (index + Z.of_nat n + 1)); [lia|]. apply Hq'. lia.
Qed.

Lemma remove_shift_spec n : forall index s,
  length (data s) = 16%nat -> 0 <= index -> index + Z.of_nat n < 16 ->
  slots_ok s (index + 1) (index + Z.of_nat n + 1) ->
  slots_inj s (index + 1) (index + Z.of_nat n + 1) ->
  exists s', remove_shift n index s = Some s' /\
    count s' = count s /\ hw s' = hw s /\ irq_queue s' = irq_queue s /\
    length (data s') = 16%nat /\
    (forall j, data_get j s' =
       if (index <=? j) && (j <? index + Z.of_nat n) then data_get (j + 1) s
       else if (j =? index + Z.of_nat n) && (0 <? Z.of_nat n) then Some None
       else data_get j s) /\
    (forall j p, index < j <= index + Z.of_nat n -> data_get j s = Some (Some p) ->
       objs s' !! p = with_heap_index (j - 1) <$> objs s !! p) /\
    (forall p, (forall j, index < j <= index + Z.of_nat n ->
                  data_get j s <> Some (Some p)) ->
       objs s' !! p = objs s !! p).
Proof.
  induction n as [|n IH]; intros index s Hlen Hidx Hhi Hok Hinj.
  - exists s. simpl. repeat split; auto.
    + intros j. zb.
    + intros; lia.
  - cbn [remove_shift].
    destruct (Hok (index + 1)) as (p & a & Ha); [lia|].
    apply alarm_at_inv in Ha as [Hp Ha]. rewrite Hp.
    destruct (data_set index (Some p) s) as [s1|] eqn:E1.
    2:{ rewrite data_set_some in E1 by (auto; lia). discriminate. }
    pose proof (data_set_frame _ _ _ _ E1) as (Hc1 & Ho1 & Hh1 & Hq1 & Hl1).
    assert (Ha1 : objs s1 !! p = Some a) by (by rewrite Ho1).
    rewrite (obj_update_some _ _ _ _ Ha1).
    set (s2 := with_objs _ s1).
    assert (E2 : obj_update p (with_heap_index index) s1 = Some s2)
      by (by apply obj_update_some).
    pose proof (obj_update_frame _ _ _ _ E2) as (Hc2 & Hd2 & Hh2 & Hq2).
    destruct (data_set (index + 1) None s2) as [s3|] eqn:E3.
    2:{ rewrite data_set_some in E3 by (try lia; congruence). discriminate. }
    pose proof (data_set_frame _ _ _ _ E3) as (Hc3 & Ho3 & Hh3 & Hq3 & Hl3).
    assert (Hg3 : forall j, data_get j s3 =
              if j =? index + 1 then Some None
              else if j =? index then Some (Some p) else data_get j s).
    { intros j. rewrite (data_get_set _ _ _ _ j E3).
      rewrite (obj_update_data_get _ _ _ _ j E2).
      by rewrite (data_get_set _ _ _ _ j E1). }
    assert (Hob3 : forall q, objs s3 !! q =
              if decide (q = p) then Some (with_heap_index index a)
              else objs s !! q).
    { intros q. rewrite Ho3, (obj_update_lookup _ _ _ _ q E2), Ho1.
      destruct (decide (q = p)); [by rewrite Ha|done]. }
    destruct (IH (index + 1) s3) as (s' & Hs' & Hc & Hh & Hq & Hl & Hd & Hmv & Hst).
    { congruence. }
    { lia. }
    { lia. }
    { intros j Hj. destruct (Hok j) as (p' & a' & Ha'); [lia|].
      apply alarm_at_inv in Ha' as [Hp' Ha'].
      exists p'. destruct (decide (p' = p)) as [->|Hne].
      - eexists. apply alarm_at_some.
        + rewrite Hg3. zb.
        + rewrite Hob3. by rewrite decide_True.
      - exists a'. apply alarm_at_some.
        + rewrite Hg3. zb.
        + rewrite Hob3. by rewrite decide_False. }
    { intros j1 j2 q Hj1 Hj2. rewrite !Hg3.
      destruct (Z.eqb_spec j1 (index + 1)); [lia|].
      destruct (Z.eqb_spec j2 (index + 1)); [lia|].
      destruct (Z.eqb_spec j1 index); [lia|].
      destruct (Z.eqb_spec j2 index); [lia|].
      apply Hinj; lia. }
    exists s'. rewrite Hs'. split; [done|].
    split; [congruence|]. split; [congruence|]. split; [congruence|].
    split; [done|]. split; [|split].
    + intros j. rewrite Hd, !Hg3.
      destruct (Z.eq_dec j index) as [->|Hne].
      { destruct (Z.leb_spec (index + 1) index); [lia|].
        destruct (Z.eqb_spec index (index + 1 + Z.of_nat n)); [lia|].
        destruct (Z.eqb_spec index (index + 1)); [lia|].
        destruct (Z.eqb_spec index index); [|lia].
        destruct (Z.leb_spec index index); [|lia].
        destruct (Z.ltb_spec index (index + Z.of_nat (S n))); [|lia].
        simpl. done. }
      destruct (Z.leb_spec (index + 1) j), (Z.ltb_spec j (index + 1 + Z.of_nat n)),
        (Z.leb_spec index j), (Z.ltb_spec j (index + Z.of_nat (S n))),
        (Z.eqb_spec j (index + 1 + Z.of_nat n)),
        (Z.eqb_spec j (index + Z.of_nat (S n))),
        (Z.ltb_spec 0 (Z.of_nat n)), (Z.ltb_spec 0 (Z.of_nat (S n))),
        (Z.eqb_spec (j + 1) (index + 1)), (Z.eqb_spec (j + 1) index),
        (Z.eqb_spec j (index + 1)), (Z.eqb_spec j index);
        simpl; try lia; try done.
    + intros j q Hj Hq'.
      destruct (Z.eq_dec j (index + 1)) as [->|Hne].
      * assert (q = p) as -> by congruence.
        replace (index + 1 - 1) with index by lia.
        rewrite Hst.
        -- rewrite Hob3, decide_True by done. by rewrite Ha.
        -- intros j' Hj'. rewrite Hg3.
           destruct (Z.eqb_spec j' (index + 1)); [lia|].
           destruct (Z.eqb_spec j' index); [lia|].
           intros Hc'. assert (j' = index + 1) by (eapply Hinj; eauto; lia). lia.
      * assert (q <> p).
        { intros ->. apply Hne. eapply Hinj; eauto; lia. }
        rewrite (Hmv j q); [|lia|].
        -- by rewrite Hob3, decide_False.
        -- rewrite Hg3. destruct (Z.eqb_spec j (index + 1)); [lia|].
           destruct (Z.eqb_spec j index); [lia|done].
    + intros q Hq'. rewrite Hst.
      * rewrite Hob3. destruct (decide (q = p)) as [->|]; [|done].
        exfalso. apply (Hq' (index + 1)); [lia|done].
      * intros j Hj. rewrite Hg3.
        destruct (Z.eqb_spec j (index + 1)); [lia|].
        destruct (Z.eqb_spec j index); [lia|]. apply Hq'. lia.
Qed.

(** ** The arming controller *)

Lemma counter_hw_apply w h : counter (hw_apply w h) = counter h.
Proof. by destruct w. Qed.

Lemma counter_hw_arm w h : counter (hw_arm w h) = counter h.
Proof. unfold hw_arm, hw_disarm. by rewrite !counter_hw_apply. Qed.

Lemma load_next_alarm_spec s :
  (0 < count s -> exists p a, alarm_at 0 s = Some (p, a)) ->
  load_next_alarm s =
    Some (with_hw (if 0 <? count s then hw_arm (deadline s 0) (hw s)
                   else hw_disarm (hw s)) s).
Proof.
  intros H. unfold load_next_alarm.
  change (count (reg_write (W_alarm_en false) s)) with (count s).
  destruct (Z.ltb_spec 0 (count s)) as [Hc|Hc]; [|done].
  destruct (H Hc) as (p & a & Ha).
  change (alarm_at 0 (reg_write (W_alarm_en false) s)) with (alarm_at 0 s).
  unfold deadline. by rewrite Ha.
Qed.

(** ** Invariants depend on the list and the objects only *)

Lemma data_get_ext s s' i : data s' = data s -> data_get i s' = data_get i s.
Proof. intros H. unfold data_get. by rewrite H. Qed.

Lemma alarm_at_ext s s' i : data s' = data s -> objs s' = objs s ->
  alarm_at i s' = alarm_at i s.
Proof. intros H1 H2. unfold alarm_at, deref. by rewrite (data_get_ext _ _ _ H1), H2. Qed.

Lemma deadline_ext s s' i : data s' = data s -> objs s' = objs s ->
  deadline s' i = deadline s i.
Proof. intros H1 H2. unfold deadline. by rewrite (alarm_at_ext _ _ _ H1 H2). Qed.

Lemma wf_ext s s' : wf s -> count s' = count s -> data s' = data s ->
  objs s' = objs s -> counter (hw s') = counter (hw s) -> wf s'.
Proof.
  intros [Hl Hc Hs Ho Hw Hk] E1 E2 E3 E4. split.
  - by rewrite E2.
  - by rewrite E1.
  - intros i Hi. rewrite (alarm_at_ext _ _ _ E2 E3). apply Hs. by rewrite <- E1.
  - intros p a. rewrite E3, E1. intros H. rewrite (data_get_ext _ _ _ E2). by apply Ho.
  - intros p a. rewrite E3. apply Hw.
  - by rewrite E4.
Qed.

Lemma ordered_ext s s' : ordered s -> count s' = count s -> data s' = data s ->
  objs s' = objs s -> ordered s'.
Proof.
  intros H E1 E2 E3 i j Hij Hj.
  rewrite !(deadline_ext _ _ _ E2 E3). apply H; [done|]. by rewrite <- E1.
Qed.

Lemma wf_slots_ok s : wf s -> slots_ok s 0 (count s).
Proof. intros W j Hj. destruct (wf_slot s W j Hj) as (p & a & H & _). eauto. Qed.

Lemma wf_slots_inj s : wf s -> slots_inj s 0 (count s).
Proof.
  intros W j1 j2 p H1 H2 G1 G2.
  destruct (wf_slot s W j1 H1) as (p1 & a1 & A1 & I1).
  destruct (wf_slot s W j2 H2) as (p2 & a2 & A2 & I2).
  apply alarm_at_inv in A1 as [D1 O1]. apply alarm_at_inv in A2 as [D2 O2].
  assert (p1 = p) by congruence. assert (p2 = p) by congruence. subst.
  congruence.
Qed.

Lemma slots_ok_sub s lo hi lo' hi' : slots_ok s lo hi -> lo <= lo' -> hi' <= hi ->
  slots_ok s lo' hi'.
Proof. intros H ? ? j Hj. apply H. lia. Qed.

Lemma slots_inj_sub s lo hi lo' hi' : slots_inj s lo hi -> lo <= lo' -> hi' <= hi ->
  slots_inj s lo' hi'.
Proof. intros H ? ? j1 j2 p ? ?. apply H; lia. Qed.

(** A listed alarm does not carry the sentinel, and conversely. *)
Lemma wf_member_index s p a : wf s -> objs s !! p = Some a ->
  (member p s <-> heap_index a <> NOT_PENDING).
Proof.
  intros W Ha. split.
  - intros (i & Hi & Hd).
    destruct (wf_slot s W i Hi) as (p' & a' & A & I).
    apply alarm_at_inv in A as [D O].
    assert (p' = p) by congruence. subst p'.
    assert (a' = a) by congruence. subst a'.
    pose proof (wf_count s W). rewrite NOT_PENDING_val.
    unfold ALARM_HEAP_MAX_ELEMENTS in *. lia.
  - intros Hne. destruct (wf_obj s W p a Ha) as [|[Hr Hd]]; [done|].
    exists (heap_index a). auto.
Qed.

Lemma to_uint32_small z : 0 <= z < UINT32_MOD -> to_uint32 z = z.
Proof. intros H. unfold to_uint32. by apply Z.mod_small. Qed.

Lemma to_uint64_small z : 0 <= z < UINT64_MOD -> to_uint64 z = z.
Proof. intros H. unfold to_uint64. by apply Z.mod_small. Qed.

Lemma UINT32_MOD_val : UINT32_MOD = 4294967296.
Proof. reflexivity. Qed.

Lemma UINT64_MOD_val : UINT64_MOD = 18446744073709551616.
Proof. reflexivity. Qed.

(** ** [insert_alarm] *)

Lemma insert_alarm_spec s alarm a :
  wf s -> objs s !! alarm = Some a -> heap_index a = NOT_PENDING ->
  count s < ALARM_HEAP_MAX_ELEMENTS ->
  exists k s', insert_alarm alarm s = Some s' /\
    0 <= k <= count s /\
    (forall j, 0 <= j < k -> deadline s j < when a) /\
    (k < count s -> when a <= deadline s k) /\
    count s' = count s + 1 /\ length (data s') = 16%nat /\
    (forall j, data_get j s' =
       if j <? k then data_get j s
       else if j =? k then Some (Some alarm)
       else if j <=? count s then data_get (j - 1) s
       else data_get j s) /\
    (forall p, objs s' !! p = insert_renumber k (count s) alarm p <$> objs s !! p) /\
    irq_queue s' = irq_queue s /\
    hw s' = insert_hw k (when a) (hw s).
Proof.
  intros W Ha Hnp Hc.
  pose proof (wf_count s W) as Hcnt. pose proof (wf_len s W) as Hlen.
  unfold ALARM_HEAP_MAX_ELEMENTS in *.
  assert (Hblock :
    (if negb (count s =? 0) then
       do a <- deref alarm s;
       do index <- insert_scan (Z.to_nat (count s)) (when a) 0 s;
       do s <- insert_shift (Z.to_nat (count s - index)) index s;
       Some (index, s)
     else Some (0, s)) =
    (do index <- insert_scan (Z.to_nat (count s)) (when a) 0 s;
     do s <- insert_shift (Z.to_nat (count s - index)) index s;
     Some (index, s))).
  { destruct (Z.eqb_spec (count s) 0) as [e|e]; simpl.
    - by rewrite e.
    - unfold deref. by rewrite Ha. }
  unfold insert_alarm. rewrite Hblock. clear Hblock.
  destruct (insert_scan_spec (Z.to_nat (count s)) (when a) 0 s)
    as (k & Hk & Hr & Hlt & Hge).
  { rewrite Z2Nat.id by lia. by apply wf_slots_ok. }
  rewrite Z2Nat.id in Hr, Hge by lia. rewrite Hk.
  destruct (insert_shift_spec (Z.to_nat (count s - k)) k s)
    as (s1 & Hs1 & Hc1 & Hh1 & Hq1 & Hl1 & Hd1 & Hmv1 & Hst1); auto.
  { lia. }
  { rewrite Z2Nat.id by lia. lia. }
  { rewrite Z2Nat.id by lia. eapply slots_ok_sub; [by apply wf_slots_ok|lia|lia]. }
  { rewrite Z2Nat.id by lia. eapply slots_inj_sub; [by apply wf_slots_inj|lia|lia]. }
  rewrite Z2Nat.id in Hd1, Hmv1, Hst1 by lia.
  replace (k + (count s - k)) with (count s) in Hd1, Hmv1, Hst1 by lia.
  rewrite Hs1.
  (* the alarm itself is not among the shifted ones *)
  assert (Hnot : forall j, 0 <= j < count s -> data_get j s <> Some (Some alarm)).
  { intros j Hj Hd. destruct (wf_slot s W j Hj) as (p' & a' & A & I).
    apply alarm_at_inv in A as [D O].
    assert (p' = alarm) by congruence. subst p'.
    assert (a' = a) by congruence. subst a'.
    rewrite NOT_PENDING_val in Hnp. lia. }
  assert (Ha1 : objs s1 !! alarm = Some a).
  { rewrite Hst1; [done|]. intros j Hj. apply Hnot. lia. }
  destruct (data_set k (Some alarm) s1) as [s2|] eqn:E2.
  2:{ rewrite data_set_some in E2 by (auto; lia). discriminate. }
  pose proof (data_set_frame _ _ _ _ E2) as (Hc2 & Ho2 & Hh2 & Hq2 & Hl2).
  assert (Ha2 : objs s2 !! alarm = Some a) by (by rewrite Ho2).
  rewrite (obj_update_some _ _ _ _ Ha2).
  set (s3 := with_objs _ s2).
  assert (E3 : obj_update alarm (with_heap_index k) s2 = Some s3)
    by (by apply obj_update_some).
  pose proof (obj_update_frame _ _ _ _ E3) as (Hc3 & Hd3 & Hh3 & Hq3).
  assert (Hcount : to_uint32 (count s3 + 1) = count s + 1).
  { rewrite Hc3, Hc2, Hc1. apply to_uint32_small. rewrite UINT32_MOD_val. lia. }
  rewrite Hcount.
  set (s4 := with_count (count s + 1) s3).
  assert (Hg4 : forall j, data_get j s4 =
       if j <? k then data_get j s
       else if j =? k then Some (Some alarm)
       else if j <=? count s then data_get (j - 1) s
       else data_get j s).
  { intros j. change (data_get j s4) with (data_get j s3).
    rewrite (obj_update_data_get _ _ _ _ j E3), (data_get_set _ _ _ _ j E2), Hd1.
    destruct (Z.ltb_spec j k), (Z.eqb_spec j k), (Z.ltb_spec k j),
      (Z.leb_spec j (count s)); simpl; try lia; done. }
  assert (Ho4 : forall p, objs s4 !! p =
       insert_renumber k (count s) alarm p <$> objs s !! p).
  { intros p. change (objs s4 !! p) with (objs s3 !! p).
    rewrite (obj_update_lookup _ _ _ _ p E3), Ho2. unfold insert_renumber.
    destruct (decide (p = alarm)) as [->|Hne].
    { by rewrite Ha1, Ha. }
    destruct (objs s !! p) as [b|] eqn:Hb.
    2:{ rewrite Hst1; [by rewrite Hb|]. intros j Hj Hd.
        destruct (wf_slot s W j) as (p' & a' & A & I); [lia|].
        apply alarm_at_inv in A as [D O]. congruence. }
    simpl.
    destruct (Z.leb_spec k (heap_index b)), (Z.ltb_spec (heap_index b) (count s));
      simpl.
    - destruct (wf_obj s W p b Hb) as [Hn|[Hr' Hd']].
      { rewrite NOT_PENDING_val in Hn. lia. }
      rewrite (Hmv1 (heap_index b) p); [by rewrite Hb|lia|done].
    - rewrite Hst1; [done|]. intros j Hj Hd.
      destruct (wf_slot s W j) as (p' & a' & A & I); [lia|].
      apply alarm_at_inv in A as [D O].
      assert (p' = p) by congruence. subst p'.
      assert (a' = b) by congruence. subst a'. lia.
    - rewrite Hst1; [done|]. intros j Hj Hd.
      destruct (wf_slot s W j) as (p' & a' & A & I); [lia|].
      apply alarm_at_inv in A as [D O].
      assert (p' = p) by congruence. subst p'.
      assert (a' = b) by congruence. subst a'. lia.
    - rewrite Hst1; [done|]. intros j Hj Hd.
      destruct (wf_slot s W j) as (p' & a' & A & I); [lia|].
      apply alarm_at_inv in A as [D O].
      assert (p' = p) by congruence. subst p'.
      assert (a' = b) by congruence. subst a'. lia. }
  assert (Hl4 : length (data s4) = 16%nat).
  { change (data s4) with (data s3). rewrite Hd3. congruence. }
  assert (Hq4 : irq_queue s4 = irq_queue s).
  { change (irq_queue s4) with (irq_queue s3). congruence. }
  assert (Hh4 : hw s4 = hw s).
  { change (hw s4) with (hw s3). congruence. }
  exists k. unfold insert_hw.
  destruct (Z.eqb_spec k 0) as [->|Hk0].
  - assert (A0 : alarm_at 0 s4 = Some (alarm, with_heap_index 0 a)).
    { apply alarm_at_some.
      - rewrite Hg4. simpl. done.
      - rewrite Ho4, Ha. simpl. unfold insert_renumber. by rewrite decide_True. }
    rewrite load_next_alarm_spec by eauto.
    change (count s4) with (count s + 1).
    destruct (Z.ltb_spec 0 (count s + 1)); [|lia].
    assert (D0 : deadline s4 0 = when a).
    { unfold deadline. by rewrite A0. }
    rewrite D0. eexists. split; [reflexivity|].
    split; [lia|]. split; [intros; lia|]. split; [auto|].
    split; [reflexivity|]. split; [exact Hl4|]. split; [exact Hg4|].
    split; [exact Ho4|]. split; [exact Hq4|].
    cbn [hw with_hw]. by rewrite Hh4.
  - exists s4. split; [reflexivity|].
    split; [lia|]. split; [auto|]. split; [auto|].
    split; [reflexivity|]. split; [exact Hl4|]. split; [exact Hg4|].
    split; [exact Ho4|]. split; [exact Hq4|]. exact Hh4.
Qed.

(** ** [remove_alarm] *)

Lemma remove_alarm_spec s i :
  wf s -> 0 <= i < count s ->
  exists victim a s', alarm_at i s = Some (victim, a) /\ heap_index a = i /\
    remove_alarm i s = Some s' /\
    count s' = count s - 1 /\ length (data s') = 16%nat /\
    (forall j, data_get j s' =
       if j <? i then data_get j s
       else if j <? count s - 1 then data_get (j + 1) s
       else if j =? count s - 1 then Some None
       else data_get j s) /\
    (forall p, objs s' !! p = remove_renumber i (count s) victim p <$> objs s !! p) /\
    irq_queue s' = irq_queue s /\ hw s' = hw s.
Proof.
  intros W Hi.
  pose proof (wf_count s W) as Hcnt. pose proof (wf_len s W) as Hlen.
  unfold ALARM_HEAP_MAX_ELEMENTS in *.
  destruct (wf_slot s W i Hi) as (victim & a & A & I).
  exists victim, a. unfold remove_alarm. rewrite A.
  apply alarm_at_inv in A as [D O].
  rewrite (obj_update_some _ _ _ _ O).
  set (s1 := with_objs _ s).
  assert (E1 : obj_update victim (with_heap_index NOT_PENDING) s = Some s1)
    by (by apply obj_update_some).
  pose proof (obj_update_frame _ _ _ _ E1) as (Hc1 & Hd1 & Hh1 & Hq1).
  destruct (data_set i None s1) as [s2|] eqn:E2.
  2:{ rewrite data_set_some in E2 by (try lia; congruence). discriminate. }
  pose proof (data_set_frame _ _ _ _ E2) as (Hc2 & Ho2 & Hh2 & Hq2 & Hl2).
  assert (Hcount : to_uint32 (count s2 - 1) = count s - 1).
  { rewrite Hc2, Hc1. apply to_uint32_small. rewrite UINT32_MOD_val. lia. }
  rewrite Hcount.
  set (s3 := with_count (count s - 1) s2).
  change (count s3) with (count s - 1).
  assert (Hg3 : forall j, data_get j s3 = if j =? i then Some None else data_get j s).
  { intros j. change (data_get j s3) with (data_get j s2).
    rewrite (data_get_set _ _ _ _ j E2). by rewrite (obj_update_data_get _ _ _ _ j E1). }
  assert (Ho3 : forall p, objs s3 !! p =
            if decide (p = victim) then Some (with_heap_index NOT_PENDING a)
            else objs s !! p).
  { intros p. change (objs s3 !! p) with (objs s2 !! p).
    rewrite Ho2, (obj_update_lookup _ _ _ _ p E1).
    destruct (decide (p = victim)); [by rewrite O|done]. }
  assert (Hslot3 : forall j, i < j < count s ->
            exists p b, data_get j s = Some (Some p) /\ objs s !! p = Some b /\
                        heap_index b = j /\ p <> victim /\
                        data_get j s3 = Some (Some p) /\ objs s3 !! p = Some b).
  { intros j Hj. destruct (wf_slot s W j) as (p & b & A' & I'); [lia|].
    apply alarm_at_inv in A' as [D' O'].
    assert (p <> victim).
    { intros ->. assert (b = a) by congruence. subst b. lia. }
    exists p, b. repeat split; auto.
    - rewrite Hg3. destruct (Z.eqb_spec j i); [lia|done].
    - rewrite Ho3. by rewrite decide_False. }
  destruct (remove_shift_spec (Z.to_nat (count s - 1 - i)) i s3)
    as (s' & Hs' & Hc & Hh & Hq & Hl & Hd & Hmv & Hst).
  { change (data s3) with (data s2). congruence. }
  { lia. }
  { rewrite Z2Nat.id by lia. lia. }
  { rewrite Z2Nat.id by lia. intros j Hj.
    destruct (Hslot3 j) as (p & b & _ & _ & _ & _ & G & O'); [lia|].
    exists p, b. by apply alarm_at_some. }
  { rewrite Z2Nat.id by lia. intros j1 j2 p Hj1 Hj2. rewrite !Hg3.
    destruct (Z.eqb_spec j1 i); [lia|]. destruct (Z.eqb_spec j2 i); [lia|].
    apply (wf_slots_inj s W); lia. }
  rewrite Z2Nat.id in Hd, Hmv, Hst by lia.
  replace (i + (count s - 1 - i)) with (count s - 1) in Hd, Hmv, Hst by lia.
  exists s'. split; [done|]. split; [done|]. split; [exact Hs'|].
  split; [by rewrite Hc|]. split; [done|]. split; [|split; [|split]].
  - intros j. rewrite Hd, !Hg3.
    destruct (Z.leb_spec i j), (Z.ltb_spec j i), (Z.ltb_spec j (count s - 1)),
      (Z.eqb_spec j (count s - 1)), (Z.ltb_spec 0 (count s - 1 - i)),
      (Z.eqb_spec j i), (Z.eqb_spec (j + 1) i); simpl; try lia; try done.
  - intros p. unfold remove_renumber.
    destruct (decide (p = victim)) as [->|Hne].
    { rewrite Hst.
      - rewrite Ho3, decide_True by done. by rewrite O.
      - intros j Hj. destruct (Hslot3 j) as (p & b & _ & _ & _ & Hn & G & _); [lia|].
        congruence. }
    destruct (objs s !! p) as [b|] eqn:Hb.
    2:{ rewrite Hst; [by rewrite Ho3, decide_False|].
        intros j Hj. destruct (Hslot3 j) as (p' & b & _ & O' & _ & _ & G & _); [lia|].
        congruence. }
    simpl.
    assert (Hout : ~ (i < heap_index b < count s) -> objs s' !! p = Some b).
    { intros Hn. rewrite Hst; [by rewrite Ho3, decide_False|].
      intros j Hj. destruct (Hslot3 j) as (p' & b' & _ & O' & I' & _ & G & _); [lia|].
      intros G'. assert (p' = p) by congruence. subst p'.
      assert (b' = b) by congruence. subst b'. lia. }
    destruct (Z.ltb_spec i (heap_index b)), (Z.ltb_spec (heap_index b) (count s));
      simpl; try (apply Hout; lia).
    destruct (wf_obj s W p b Hb) as [Hn|[Hr' Hd']].
    { rewrite NOT_PENDING_val in Hn. lia. }
    rewrite (Hmv (heap_index b) p); [|lia|].
    + rewrite Ho3, decide_False by done. by rewrite Hb.
    + rewrite Hg3. destruct (Z.eqb_spec (heap_index b) i); [lia|done].
  - change (irq_queue s3) with (irq_queue s2) in Hq. congruence.
  - change (hw s3) with (hw s2) in Hh. congruence.
Qed.

(** ** Consequences for the invariants *)

Lemma when_insert_renumber k c alarm p b : when (insert_renumber k c alarm p b) = when b.
Proof.
  unfold insert_renumber. destruct (decide (p = alarm)); [done|].
  by destruct ((k <=? heap_index b) && (heap_index b <? c)).
Qed.

Lemma when_remove_renumber i c victim p b : when (remove_renumber i c victim p b) = when b.
Proof.
  unfold remove_renumber. destruct (decide (p = victim)); [done|].
  by destruct ((i <? heap_index b) && (heap_index b <? c)).
Qed.

Section insert_consequences.
Variables (s s' : state) (alarm : ptr) (a : mp_obj_alarm_t) (k : Z).
Hypothesis W : wf s.
Hypothesis Ha : objs s !! alarm = Some a.
Hypothesis Hnp : heap_index a = NOT_PENDING.
Hypothesis Hc : count s < ALARM_HEAP_MAX_ELEMENTS.
Hypothesis Hk : 0 <= k <= count s.
Hypothesis Hpost : insert_post s alarm k s'.

Lemma insert_post_slot j :
  0 <= j <= count s ->
  exists p b, alarm_at j s' = Some (p, b) /\ heap_index b = j /\
    if j <? k then alarm_at j s = Some (p, b)
    else if j =? k then p = alarm /\ b = with_heap_index k a
    else exists b0, alarm_at (j - 1) s = Some (p, b0) /\ b = with_heap_index j b0.
Proof using W Ha Hnp Hc Hk Hpost.
  destruct Hpost as (Hc' & Hl' & Hd' & Ho'). intros Hj.
  pose proof (wf_count s W) as Hcnt. unfold ALARM_HEAP_MAX_ELEMENTS in *.
  destruct (Z.ltb_spec j k) as [Hlt|Hge];
    [|destruct (Z.eqb_spec j k) as [->|Hne]].
  - destruct (wf_slot s W j) as (p & b & A & I); [lia|].
    exists p, b. split; [|by split].
    apply alarm_at_inv in A as [D O]. apply alarm_at_some.
    + rewrite Hd'. destruct (Z.ltb_spec j k); [done|lia].
    + rewrite Ho', O. simpl. unfold insert_renumber.
      destruct (decide (p = alarm)) as [->|].
      { assert (b = a) by congruence. subst b. rewrite NOT_PENDING_val in Hnp. lia. }
      destruct (Z.leb_spec k (heap_index b)); [lia|done].
  - exists alarm, (with_heap_index k a). split; [|by split].
    apply alarm_at_some.
    + rewrite Hd'. destruct (Z.ltb_spec k k); [lia|].
      destruct (Z.eqb_spec k k); [done|lia].
    + rewrite Ho', Ha. simpl. unfold insert_renumber. by rewrite decide_True.
  - destruct (wf_slot s W (j - 1)) as (p & b & A & I); [lia|].
    exists p, (with_heap_index j b). split; [|split; [done|by exists b]].
    apply alarm_at_inv in A as [D O]. apply alarm_at_some.
    + rewrite Hd'. destruct (Z.ltb_spec j k); [lia|].
      destruct (Z.eqb_spec j k); [lia|].
      destruct (Z.leb_spec j (count s)); [done|lia].
    + rewrite Ho', O. simpl. unfold insert_renumber.
      destruct (decide (p = alarm)) as [->|].
      { assert (b = a) by congruence. subst b. rewrite NOT_PENDING_val in Hnp. lia. }
      destruct (Z.leb_spec k (heap_index b)); [|lia].
      destruct (Z.ltb_spec (heap_index b) (count s)); [|lia].
      simpl. f_equal. f_equal. lia.
Qed.

Lemma insert_post_wf : counter (hw s') = counter (hw s) -> wf s'.
Proof using W Ha Hnp Hc Hk Hpost.
  intros Hctr. pose proof Hpost as (Hc' & Hl' & Hd' & Ho').
  pose proof (wf_count s W) as Hcnt. unfold ALARM_HEAP_MAX_ELEMENTS in *.
  split.
  - done.
  - unfold ALARM_HEAP_MAX_ELEMENTS. lia.
  - intros j Hj. destruct (insert_post_slot j) as (p & b & A & I & _); [lia|]. eauto.
  - intros p b'. rewrite Ho'. destruct (objs s !! p) as [b|] eqn:Hb; [|done].
    simpl. intros [= <-]. unfold insert_renumber.
    destruct (decide (p = alarm)) as [->|Hne].
    { right. simpl. split; [lia|]. rewrite Hd'.
      destruct (Z.ltb_spec k k); [lia|]. destruct (Z.eqb_spec k k); [done|lia]. }
    destruct (wf_obj s W p b Hb) as [Hn|[Hr Hd]].
    { left. rewrite NOT_PENDING_val in Hn.
      destruct (Z.ltb_spec (heap_index b) (count s)); [lia|].
      by rewrite andb_false_r, NOT_PENDING_val. }
    right. destruct (Z.leb_spec k (heap_index b)),
      (Z.ltb_spec (heap_index b) (count s)); simpl; try lia.
    + split; [lia|]. rewrite Hd'.
      destruct (Z.ltb_spec (heap_index b + 1) k); [lia|].
      destruct (Z.eqb_spec (heap_index b + 1) k); [lia|].
      destruct (Z.leb_spec (heap_index b + 1) (count s)); [|lia].
      by replace (heap_index b + 1 - 1) with (heap_index b) by lia.
    + split; [lia|]. rewrite Hd'.
      destruct (Z.ltb_spec (heap_index b) k); [done|lia].
  - intros p b'. rewrite Ho'. destruct (objs s !! p) as [b|] eqn:Hb; [|done].
    simpl. intros [= <-]. rewrite when_insert_renumber. by apply (wf_when s W p).
  - rewrite Hctr. apply (wf_counter s W).
Qed.

Lemma insert_post_deadline j :
  0 <= j <= count s ->
  deadline s' j =
    if j <? k then deadline s j else if j =? k then when a else deadline s (j - 1).
Proof using W Ha Hnp Hc Hk Hpost.
  intros Hj. destruct (insert_post_slot j Hj) as (p & b & A & I & H).
  unfold deadline at 1. rewrite A.
  destruct (Z.ltb_spec j k); [|destruct (Z.eqb_spec j k)].
  - unfold deadline. by rewrite H.
  - by destruct H as [-> ->].
  - destruct H as (b0 & A0 & ->). unfold deadline. by rewrite A0.
Qed.

Lemma insert_post_ordered :
  ordered s ->
  (forall j, 0 <= j < k -> deadline s j < when a) ->
  (k < count s -> when a <= deadline s k) ->
  ordered s'.
Proof using W Ha Hnp Hc Hk Hpost.
  intros Hord Hlt Hge i j Hij Hj.
  destruct Hpost as (Hc' & _). rewrite Hc' in Hj.
  rewrite !insert_post_deadline by lia.
  destruct (Z.ltb_spec i k), (Z.ltb_spec j k), (Z.eqb_spec i k), (Z.eqb_spec j k);
    try lia.
  - apply Hord; lia.
  - specialize (Hlt i). lia.
  - assert (deadline s i <= deadline s (j - 1)) by (apply Hord; lia). lia.
  - assert (deadline s k <= deadline s (j - 1)) by (apply Hord; lia). lia.
  - apply Hord; lia.
Qed.
End insert_consequences.

Section remove_consequences.
Variables (s s' : state) (victim : ptr) (a : mp_obj_alarm_t) (i : Z).
Hypothesis W : wf s.
Hypothesis Hi : 0 <= i < count s.
Hypothesis Hv : alarm_at i s = Some (victim, a).
Hypothesis Hpost : remove_post s victim i s'.

Lemma remove_post_victim : objs s' !! victim = Some (with_heap_index NOT_PENDING a).
Proof using Hv Hpost.
  destruct Hpost as (_ & _ & _ & Ho'). apply alarm_at_inv in Hv as [_ O].
  rewrite Ho', O. simpl. unfold remove_renumber. by rewrite decide_True.
Qed.

Lemma remove_post_slot j :
  0 <= j < count s - 1 ->
  exists p b, alarm_at j s' = Some (p, b) /\ heap_index b = j /\ p <> victim /\
    if j <? i then alarm_at j s = Some (p, b)
    else exists b0, alarm_at (j + 1) s = Some (p, b0) /\ b = with_heap_index j b0.
Proof using W Hi Hv Hpost.
  destruct Hpost as (Hc' & Hl' & Hd' & Ho'). intros Hj.
  pose proof (wf_count s W) as Hcnt. unfold ALARM_HEAP_MAX_ELEMENTS in *.
  destruct (wf_slot s W i Hi) as (v' & a' & A' & I').
  assert (v' = victim) by congruence. subst v'.
  assert (a' = a) by congruence. subst a'.
  apply alarm_at_inv in A' as [Dv Ov].
  destruct (Z.ltb_spec j i) as [Hlt|Hge].
  - destruct (wf_slot s W j) as (p & b & A & I); [lia|].
    apply alarm_at_inv in A as [D O].
    assert (p <> victim).
    { intros ->. assert (b = a) by congruence. subst b. lia. }
    exists p, b. split; [|split; [done|split; [done|by apply alarm_at_some]]].
    apply alarm_at_some.
    + rewrite Hd'. destruct (Z.ltb_spec j i); [done|lia].
    + rewrite Ho', O. simpl. unfold remove_renumber.
      rewrite decide_False by done.
      destruct (Z.ltb_spec i (heap_index b)); [lia|done].
  - destruct (wf_slot s W (j + 1)) as (p & b & A & I); [lia|].
    apply alarm_at_inv in A as [D O].
    assert (p <> victim).
    { intros ->. assert (b = a) by congruence. subst b. lia. }
    exists p, (with_heap_index j b).
    split; [|split; [done|split; [done|exists b; split;
                                    [by apply alarm_at_some|done]]]].
    apply alarm_at_some.
    + rewrite Hd'. destruct (Z.ltb_spec j i); [lia|].
      destruct (Z.ltb_spec j (count s - 1)); [done|lia].
    + rewrite Ho', O. simpl. unfold remove_renumber.
      rewrite decide_False by done.
      destruct (Z.ltb_spec i (heap_index b)); [|lia].
      destruct (Z.ltb_spec (heap_index b) (count s)); [|lia].
      simpl. f_equal. f_equal. lia.
Qed.

Lemma remove_post_wf : counter (hw s') = counter (hw s) -> wf s'.
Proof using W Hi Hv Hpost.
  intros Hctr. pose proof Hpost as (Hc' & Hl' & Hd' & Ho').
  pose proof (wf_count s W) as Hcnt. unfold ALARM_HEAP_MAX_ELEMENTS in *.
  split.
  - done.
  - unfold ALARM_HEAP_MAX_ELEMENTS. lia.
  - intros j Hj. destruct (remove_post_slot j) as (p & b & A & I & _); [lia|]. eauto.
  - intros p b'. rewrite Ho'. destruct (objs s !! p) as [b|] eqn:Hb; [|done].
    simpl. intros [= <-]. unfold remove_renumber.
    destruct (decide (p = victim)) as [->|Hne]; [by left|].
    destruct (wf_obj s W p b Hb) as [Hn|[Hr Hd]].
    { left. rewrite NOT_PENDING_val in Hn.
      destruct (Z.ltb_spec (heap_index b) (count s)); [lia|].
      by rewrite andb_false_r, NOT_PENDING_val. }
    assert (heap_index b <> i).
    { intros E. rewrite E in Hd. apply alarm_at_inv in Hv as [Dv _]. congruence. }
    right. destruct (Z.ltb_spec i (heap_index b)),
      (Z.ltb_spec (heap_index b) (count s)); simpl; try lia.
    + split; [lia|]. rewrite Hd'.
      destruct (Z.ltb_spec (heap_index b - 1) i); [lia|].
      destruct (Z.ltb_spec (heap_index b - 1) (count s - 1)); [|lia].
      by replace (heap_index b - 1 + 1) with (heap_index b) by lia.
    + split; [lia|]. rewrite Hd'.
      destruct (Z.ltb_spec (heap_index b) i); [done|lia].
  - intros p b'. rewrite Ho'. destruct (objs s !! p) as [b|] eqn:Hb; [|done].
    simpl. intros [= <-]. rewrite when_remove_renumber. by apply (wf_when s W p).
  - rewrite Hctr. apply (wf_counter s W).
Qed.

Lemma remove_post_deadline j :
  0 <= j < count s - 1 ->
  deadline s' j = if j <? i then deadline s j else deadline s (j + 1).
Proof using W Hi Hv Hpost.
  intros Hj. destruct (remove_post_slot j Hj) as (p & b & A & I & _ & H).
  unfold deadline at 1. rewrite A.
  destruct (Z.ltb_spec j i).
  - unfold deadline. by rewrite H.
  - destruct H as (b0 & A0 & ->). unfold deadline. by rewrite A0.
Qed.

Lemma remove_post_ordered : ordered s -> ordered s'.
Proof using W Hi Hv Hpost.
  intros Hord j1 j2 Hij Hj.
  destruct Hpost as (Hc' & _). rewrite Hc' in Hj.
  rewrite !remove_post_deadline by lia.
  destruct (Z.ltb_spec j1 i), (Z.ltb_spec j2 i); try lia; apply Hord; lia.
Qed.
End remove_consequences.

(** ** Reading the counter *)

(** The two latched halves give back the counter. *)
Lemma latch_join c : 0 <= c < UINT64_MOD ->
  Z.lor (Z.shiftl (to_uint32 (Z.shiftr c 32)) 32) (to_uint32 c) = c.
Proof.
  intros Hc. unfold to_uint32, UINT32_MOD, UINT64_MOD in *.
  apply Z.bits_inj'. intros n Hn.
  rewrite Z.lor_spec.
  destruct (Z.lt_ge_cases n 32) as [Hlt|Hge].
  - rewrite Z.shiftl_spec_low by lia.
    rewrite Z.mod_pow2_bits_low by lia. done.
  - rewrite Z.shiftl_spec by lia.
    rewrite (Z.mod_pow2_bits_high c 32 n) by lia.
    rewrite orb_false_r.
    destruct (Z.lt_ge_cases n 64) as [Hlt'|Hge'].
    + rewrite Z.mod_pow2_bits_low by lia.
      rewrite Z.shiftr_spec by lia. f_equal. lia.
    + rewrite Z.mod_pow2_bits_high by lia.
      rewrite <- (Z.mod_small c (2 ^ 64)) by lia.
      by rewrite Z.mod_pow2_bits_high by lia.
Qed.

Lemma set_alarm_when_spec s alarm a delta :
  0 <= counter (hw s) < UINT64_MOD -> objs s !! alarm = Some a ->
  set_alarm_when alarm delta s =
    Some (with_objs (<[alarm := with_when (to_uint64 (counter (hw s) + delta)) a]> (objs s))
            (reg_write W_update s)).
Proof.
  intros Hc Ha. unfold set_alarm_when.
  change (cnt_high (hw (reg_write W_update s)))
    with (to_uint32 (Z.shiftr (counter (hw s)) 32)).
  change (cnt_low (hw (reg_write W_update s))) with (to_uint32 (counter (hw s))).
  rewrite latch_join by done.
  assert (Ha' : objs (reg_write W_update s) !! alarm = Some a) by done.
  rewrite (obj_update_some _ _ _ _ Ha').
  erewrite obj_update_some by (simpl; apply lookup_insert_eq).
  simpl. unfold with_objs. simpl. by rewrite insert_insert_eq.
Qed.

(** ** Writes to an object that leave its [heap_index] alone *)

Section obj_write.
Variables (s s' : state) (p : ptr) (a a' : mp_obj_alarm_t).
Hypothesis Ha : objs s !! p = Some a.
Hypothesis Hcount : count s' = count s.
Hypothesis Hdata : data s' = data s.
Hypothesis Hobjs : objs s' = <[p := a']> (objs s).

Lemma obj_write_alarm_at j q b :
  alarm_at j s = Some (q, b) ->
  alarm_at j s' = Some (q, if decide (q = p) then a' else b).
Proof using Ha Hdata Hobjs.
  intros A. apply alarm_at_inv in A as [D O]. apply alarm_at_some.
  - by rewrite (data_get_ext _ _ _ Hdata).
  - rewrite Hobjs, lookup_insert. destruct (decide (p = q)) as [->|].
    + by rewrite decide_True.
    + by rewrite decide_False by congruence.
Qed.

Lemma obj_write_wf :
  wf s -> heap_index a' = heap_index a -> 0 <= when a' < UINT64_MOD ->
  counter (hw s') = counter (hw s) -> wf s'.
Proof using Ha Hcount Hdata Hobjs.
  intros W Hhi Hwhen Hctr. split.
  - rewrite Hdata. apply (wf_len s W).
  - rewrite Hcount. apply (wf_count s W).
  - intros j Hj. rewrite Hcount in Hj.
    destruct (wf_slot s W j Hj) as (q & b & A & I).
    exists q. eexists. split; [by apply obj_write_alarm_at|].
    destruct (decide (q = p)) as [->|]; [|done].
    apply alarm_at_inv in A as [_ O]. assert (b = a) by congruence. subst b.
    congruence.
  - intros q b. rewrite Hobjs, lookup_insert, Hcount, (data_get_ext _ _ _ Hdata).
    destruct (decide (p = q)) as [->|].
    + intros [= <-]. rewrite Hhi. by apply (wf_obj s W).
    + by apply (wf_obj s W).
  - intros q b. rewrite Hobjs, lookup_insert.
    destruct (decide (p = q)) as [->|].
    + by intros [= <-].
    + by apply (wf_when s W).
  - rewrite Hctr. apply (wf_counter s W).
Qed.

Lemma obj_write_deadline j :
  wf s -> 0 <= j < count s ->
  when a' = when a \/ heap_index a = NOT_PENDING ->
  deadline s' j = deadline s j.
Proof using Ha Hcount Hdata Hobjs.
  intros W Hj Hor. destruct (wf_slot s W j Hj) as (q & b & A & I).
  unfold deadline. rewrite (obj_write_alarm_at _ _ _ A), A.
  destruct (decide (q = p)) as [->|]; [|done].
  apply alarm_at_inv in A as [_ O]. assert (b = a) by congruence. subst b.
  destruct Hor as [|Hn]; [done|].
  pose proof (wf_count s W). rewrite NOT_PENDING_val in Hn.
  unfold ALARM_HEAP_MAX_ELEMENTS in *. lia.
Qed.

Lemma obj_write_ordered :
  wf s -> ordered s -> when a' = when a \/ heap_index a = NOT_PENDING -> ordered s'.
Proof using Ha Hcount Hdata Hobjs.
  intros W Hord Hor i j Hij Hj. rewrite Hcount in Hj.
  rewrite !obj_write_deadline by (auto; lia). by apply Hord.
Qed.
End obj_write.

(** ** The functions keep the invariants *)

Lemma counter_insert_hw k w h : counter (insert_hw k w h) = counter h.
Proof. unfold insert_hw. destruct (k =? 0); [apply counter_hw_arm|done]. Qed.

Lemma insert_alarm_ok s alarm a :
  wf s -> objs s !! alarm = Some a -> heap_index a = NOT_PENDING ->
  count s < ALARM_HEAP_MAX_ELEMENTS ->
  exists k s', insert_alarm alarm s = Some s' /\
    0 <= k <= count s /\
    (forall j, 0 <= j < k -> deadline s j < when a) /\
    (k < count s -> when a <= deadline s k) /\
    insert_post s alarm k s' /\
    irq_queue s' = irq_queue s /\
    hw s' = insert_hw k (when a) (hw s) /\
    wf s' /\ (ordered s -> ordered s').
Proof.
  intros W Ha Hnp Hc.
  destruct (insert_alarm_spec s alarm a W Ha Hnp Hc)
    as (k & s' & E & Hk & Hlt & Hge & Hc' & Hl' & Hd' & Ho' & Hq' & Hh').
  assert (Hpost : insert_post s alarm k s') by (by repeat split).
  exists k, s'. repeat (split; [done|]). split.
  - eapply insert_post_wf; eauto. rewrite Hh'. apply counter_insert_hw.
  - intros Hord. eapply insert_post_ordered; eauto.
Qed.

Lemma remove_alarm_ok s i :
  wf s -> 0 <= i < count s ->
  exists victim a s', alarm_at i s = Some (victim, a) /\ heap_index a = i /\
    remove_alarm i s = Some s' /\
    remove_post s victim i s' /\
    irq_queue s' = irq_queue s /\ hw s' = hw s /\
    wf s' /\ (ordered s -> ordered s').
Proof.
  intros W Hi.
  destruct (remove_alarm_spec s i W Hi)
    as (victim & a & s' & A & I & E & Hc' & Hl' & Hd' & Ho' & Hq' & Hh').
  assert (Hpost : remove_post s victim i s') by (by repeat split).
  exists victim, a, s'. repeat (split; [done|]). split.
  - eapply remove_post_wf; eauto. by rewrite Hh'.
  - intros Hord. eapply remove_post_ordered; eauto.
Qed.

Lemma load_next_alarm_ok s :
  wf s ->
  exists s', load_next_alarm s = Some s' /\
    count s' = count s /\ data s' = data s /\ objs s' = objs s /\
    irq_queue s' = irq_queue s /\
    hw s' = (if 0 <? count s then hw_arm (deadline s 0) (hw s) else hw_disarm (hw s)) /\
    wf s' /\ (ordered s -> ordered s').
Proof.
  intros W. rewrite load_next_alarm_spec.
  2:{ intros Hc. destruct (wf_slot s W 0) as (p & a & A & _); [lia|]. eauto. }
  eexists. split; [reflexivity|]. repeat (split; [reflexivity|]). split.
  - eapply wf_ext; eauto. simpl.
    destruct (0 <? count s); [apply counter_hw_arm|apply counter_hw_apply].
  - intros Hord. eapply ordered_ext; eauto.
Qed.

Lemma set_alarm_when_ok s alarm a delta :
  wf s -> objs s !! alarm = Some a -> heap_index a = NOT_PENDING ->
  exists s', set_alarm_when alarm delta s = Some s' /\
    count s' = count s /\ data s' = data s /\
    objs s' = <[alarm := with_when (to_uint64 (counter (hw s) + delta)) a]> (objs s) /\
    irq_queue s' = irq_queue s /\ hw s' = hw_apply W_update (hw s) /\
    wf s' /\ (ordered s -> ordered s').
Proof.
  intros W Ha Hnp. rewrite (set_alarm_when_spec s alarm a delta (wf_counter s W) Ha).
  eexists. split; [reflexivity|]. repeat (split; [reflexivity|]). split.
  - eapply obj_write_wf with (s := s) (p := alarm) (a := a);
      [exact Ha|reflexivity|reflexivity|reflexivity|exact W|reflexivity| | ].
    + simpl. apply Z.mod_pos_bound. by rewrite UINT64_MOD_val.
    + reflexivity.
  - intros Hord.
    eapply obj_write_ordered with (s := s) (p := alarm) (a := a);
      [exact Ha|reflexivity|reflexivity|reflexivity|exact W|exact Hord|by right].
Qed.

(** A write to the handler fields. *)
Lemma handler_write_ok s self a a' :
  wf s -> objs s !! self = Some a ->
  heap_index a' = heap_index a -> when a' = when a ->
  wf (with_objs (<[self := a']> (objs s)) s) /\
  (ordered s -> ordered (with_objs (<[self := a']> (objs s)) s)).
Proof.
  intros W Ha Hhi Hw. split.
  - eapply obj_write_wf with (s := s) (p := self) (a := a);
      [exact Ha|reflexivity|reflexivity|reflexivity|exact W|exact Hhi| |reflexivity].
    rewrite Hw. by apply (wf_when s W self).
  - intros Hord.
    eapply obj_write_ordered with (s := s) (p := self) (a := a);
      [exact Ha|reflexivity|reflexivity|reflexivity|exact W|exact Hord|by left].
Qed.

Lemma helper_prefix s self a handler0 arg :
  objs s !! self = Some a ->
  alarm_set_callback_helper self handler0 arg s =
    (let a' := set_handlers self handler0 arg a in
     let s := with_objs (<[self := a']> (objs s)) s in
     if is_none handler0 then
       if negb (heap_index a' =? NOT_PENDING) then
         do s <- remove_alarm (heap_index a') s;
         Some (s, Ok tt)
       else Some (s, Ok tt)
     else
       if heap_index a' =? NOT_PENDING then
         if count s =? ALARM_HEAP_MAX_ELEMENTS then Some (s, MemoryError)
         else
           do s <- set_alarm_when self (interval a') s;
           do s <- insert_alarm self s;
           Some (s, Ok tt)
       else Some (s, Ok tt)).
Proof.
  intros Ha. unfold alarm_set_callback_helper.
  rewrite (obj_update_some _ _ _ _ Ha).
  erewrite obj_update_some by (simpl; apply lookup_insert_eq).
  unfold deref. simpl. rewrite insert_insert_eq, lookup_insert_eq. done.
Qed.

Lemma alarm_set_callback_helper_ok s self a handler0 arg :
  wf s -> objs s !! self = Some a ->
  exists s' r, alarm_set_callback_helper self handler0 arg s = Some (s', r) /\
    wf s' /\ (ordered s -> ordered s').
Proof.
  intros W Ha. rewrite (helper_prefix s self a handler0 arg Ha). cbv zeta.
  set (a' := set_handlers self handler0 arg a).
  set (s0 := with_objs _ s).
  destruct (handler_write_ok s self a a' W Ha eq_refl eq_refl) as [W0 Ord0].
  fold s0 in W0, Ord0.
  assert (Ha0 : objs s0 !! self = Some a') by apply lookup_insert_eq.
  change (heap_index a') with (heap_index a).
  destruct (is_none handler0).
  - destruct (Z.eqb_spec (heap_index a) NOT_PENDING) as [Hn|Hn]; cbn [negb].
    + exists s0, (Ok tt). auto.
    + destruct (wf_obj s0 W0 self a' Ha0) as [|[Hr _]]; [done|].
      destruct (remove_alarm_ok s0 (heap_index a) W0 Hr)
        as (v & b & s' & _ & _ & E & _ & _ & _ & W' & Ord').
      rewrite E. exists s', (Ok tt). auto.
  - destruct (Z.eqb_spec (heap_index a) NOT_PENDING) as [Hn|Hn]; cbn [negb].
    + destruct (Z.eqb_spec (count s0) ALARM_HEAP_MAX_ELEMENTS) as [Hc|Hc].
      * exists s0, MemoryError. auto.
      * destruct (set_alarm_when_ok s0 self a' (interval a') W0 Ha0 Hn)
          as (s1 & E1 & Hc1 & Hd1 & Ho1 & _ & _ & W1 & Ord1).
        rewrite E1.
        destruct (insert_alarm_ok s1 self
                    (with_when (to_uint64 (counter (hw s0) + interval a')) a') W1)
          as (k & s2 & E2 & _ & _ & _ & _ & _ & _ & W2 & Ord2).
        { rewrite Ho1. apply lookup_insert_eq. }
        { exact Hn. }
        { rewrite Hc1. pose proof (wf_count s0 W0). lia. }
        rewrite E2. exists s2, (Ok tt). split; [done|]. split; auto.
    + exists s0, (Ok tt). auto.
Qed.

Lemma alarm_delete_ok s self a :
  wf s -> objs s !! self = Some a ->
  exists s', alarm_delete self s = Some s' /\ wf s' /\ (ordered s -> ordered s').
Proof.
  intros W Ha. unfold alarm_delete, deref. rewrite Ha.
  destruct (Z.eqb_spec (heap_index a) NOT_PENDING) as [Hn|Hn]; simpl.
  - exists s. auto.
  - destruct (wf_obj s W self a Ha) as [|[Hr _]]; [done|].
    destruct (remove_alarm_ok s (heap_index a) W Hr)
      as (v & b & s' & _ & _ & E & _ & _ & _ & W' & Ord').
    exists s'. auto.
Qed.

(** ** The interrupt handler *)

Lemma isr_pop_ok s :
  wf s -> 0 < count s ->
  exists alarm a s1, alarm_at 0 s = Some (alarm, a) /\ heap_index a = 0 /\
    isr_pop s = Some (alarm, s1) /\
    remove_post s alarm 0 s1 /\
    irq_queue s1 = irq_queue s /\ hw s1 = hw s /\
    wf s1 /\ (ordered s -> ordered s1) /\
    deref alarm s1 = Some (with_heap_index NOT_PENDING a).
Proof.
  intros W Hc.
  destruct (remove_alarm_ok s 0 W) as (alarm & a & s1 & A & I & E & P & Hq & Hh & W1 & O1);
    [lia|].
  exists alarm, a, s1. unfold isr_pop. rewrite E.
  pose proof (alarm_at_inv _ _ _ _ A) as [D _]. rewrite D.
  repeat (split; [done|]).
  unfold deref. eapply remove_post_victim; eauto.
Qed.

Lemma timer_alarm_isr_idle s :
  count s <= 0 -> timer_alarm_isr s = Some (reg_write W_int_clr_t0 s).
Proof.
  intros Hc. unfold timer_alarm_isr.
  change (count (reg_write W_int_clr_t0 s)) with (count s).
  by destruct (Z.ltb_spec 0 (count s)); [lia|].
Qed.

Lemma wf_reg_write w s : wf s -> wf (reg_write w s).
Proof. intros W. eapply wf_ext; eauto. simpl. apply counter_hw_apply. Qed.

Lemma ordered_reg_write w s : ordered s -> ordered (reg_write w s).
Proof. intros O. eapply ordered_ext; eauto. Qed.

Lemma timer_alarm_isr_oneshot s alarm a :
  wf s -> 0 < count s -> alarm_at 0 s = Some (alarm, a) -> periodic a = false ->
  exists s', timer_alarm_isr s = Some s' /\
    wf s' /\ (ordered s -> ordered s') /\
    remove_post s alarm 0 s' /\
    objs s' !! alarm = Some (with_heap_index NOT_PENDING a) /\
    irq_queue s' = irq_queue s ++ [alarm].
Proof.
  intros W Hc A Hp. unfold timer_alarm_isr.
  set (s0 := reg_write W_int_clr_t0 s).
  change (count s0) with (count s).
  destruct (Z.ltb_spec 0 (count s)); [|lia].
  destruct (isr_pop_ok s0) as (alarm' & a' & s1 & A' & I & E & P & Hq & Hh & W1 & O1 & D);
    [by apply wf_reg_write|done|].
  change (alarm_at 0 s0) with (alarm_at 0 s) in A'.
  assert (alarm' = alarm) by congruence. subst alarm'.
  assert (a' = a) by congruence. subst a'.
  rewrite E, D. cbn [periodic with_heap_index]. rewrite Hp.
  destruct (load_next_alarm_ok s1 W1) as (s2 & E2 & Hc2 & Hd2 & Ho2 & Hq2 & Hh2 & W2 & O2).
  rewrite E2. eexists. split; [reflexivity|].
  split; [|split; [|split; [|split]]].
  - by apply (wf_ext s2).
  - intros O. apply (ordered_ext s2); [|done..]. apply O2, O1.
    by apply ordered_reg_write.
  - change (remove_post s alarm 0 s1) in P.
    destruct P as (P1 & P2 & P3 & P4). split; [|split; [|split]].
    + simpl. rewrite Hc2. exact P1.
    + simpl. by rewrite Hd2.
    + intros j. rewrite <- (P3 j). unfold data_get. simpl. by rewrite Hd2.
    + intros p. rewrite <- (P4 p). simpl. by rewrite Ho2.
  - simpl. by rewrite Ho2.
  - simpl. by rewrite Hq2, Hq.
Qed.

Lemma timer_alarm_isr_periodic s alarm a :
  wf s -> 0 < count s -> alarm_at 0 s = Some (alarm, a) -> periodic a = true ->
  exists s1 s2 k s3 s',
    isr_pop (reg_write W_int_clr_t0 s) = Some (alarm, s1) /\
    deref alarm s1 = Some (with_heap_index NOT_PENDING a) /\
    set_alarm_when alarm (interval a) s1 = Some s2 /\
    count s2 = count s - 1 /\ wf s2 /\
    insert_alarm alarm s2 = Some s3 /\ insert_post s2 alarm k s3 /\
    0 <= k <= count s - 1 /\
    timer_alarm_isr s = Some s' /\
    wf s' /\ (ordered s -> ordered s') /\
    count s' = count s /\ data s' = data s3 /\ objs s' = objs s3 /\
    objs s' !! alarm =
      Some (with_heap_index k (with_when (to_uint64 (counter (hw s) + interval a)) a)) /\
    irq_queue s' = irq_queue s ++ [alarm].
Proof.
  intros W Hc A Hp. unfold timer_alarm_isr.
  set (s0 := reg_write W_int_clr_t0 s).
  change (count s0) with (count s).
  destruct (Z.ltb_spec 0 (count s)); [|lia].
  destruct (isr_pop_ok s0) as (alarm' & a' & s1 & A' & I & E & P & Hq & Hh & W1 & O1 & D);
    [by apply wf_reg_write|done|].
  change (alarm_at 0 s0) with (alarm_at 0 s) in A'.
  assert (alarm' = alarm) by congruence. subst alarm'.
  assert (a' = a) by congruence. subst a'.
  rewrite E, D. cbn [periodic interval with_heap_index]. rewrite Hp.
  set (a1 := with_heap_index NOT_PENDING a) in *.
  destruct (set_alarm_when_ok s1 alarm a1 (interval a) W1 D eq_refl)
    as (s2 & E2 & Hc2 & Hd2 & Ho2 & Hq2 & Hh2 & W2 & O2).
  rewrite E2.
  assert (Hcnt1 : count s1 = count s - 1) by (destruct P as (P1 & _); exact P1).
  pose proof (wf_count s W) as Hcs.
  set (a2 := with_when (to_uint64 (counter (hw s1) + interval a)) a1) in *.
  destruct (insert_alarm_ok s2 alarm a2 W2)
    as (k & s3 & E3 & Hk & _ & _ & P3 & Hq3 & Hh3 & W3 & O3).
  { rewrite Ho2. apply lookup_insert_eq. }
  { reflexivity. }
  { lia. }
  rewrite E3.
  destruct (load_next_alarm_ok s3 W3) as (s4 & E4 & Hc4 & Hd4 & Ho4 & Hq4 & Hh4 & W4 & O4).
  rewrite E4.
  exists s1, s2, k, s3. eexists.
  split; [done|]. split; [done|]. split; [done|]. split; [lia|]. split; [done|].
  split; [done|]. split; [done|]. split; [lia|]. split; [reflexivity|].
  split; [|split; [|split; [|split; [|split; [|split]]]]].
  - by apply (wf_ext s4).
  - intros O. apply (ordered_ext s4); [|done..]. apply O4, O3, O2, O1.
    by apply ordered_reg_write.
  - simpl. rewrite Hc4. destruct P3 as (-> & _). lia.
  - simpl. done.
  - simpl. done.
  - simpl. rewrite Ho4. destruct P3 as (_ & _ & _ & ->).
    rewrite Ho2, lookup_insert_eq. simpl. unfold insert_renumber.
    rewrite decide_True by done. unfold a2. rewrite Hh. done.
  - simpl. by rewrite Hq4, Hq3, Hq2, Hq.
Qed.

Lemma timer_alarm_isr_ok s :
  wf s -> exists s', timer_alarm_isr s = Some s' /\ wf s' /\ (ordered s -> ordered s').
Proof.
  intros W. destruct (Z.lt_ge_cases 0 (count s)) as [Hc|Hc].
  - destruct (wf_slot s W 0) as (alarm & a & A & _); [lia|].
    destruct (periodic a) eqn:Hp.
    + destruct (timer_alarm_isr_periodic s alarm a W Hc A Hp)
        as (s1 & s2 & k & s3 & s' & _ & _ & _ & _ & _ & _ & _ & _ & E & W' & O' & _).
      exists s'. auto.
    + destruct (timer_alarm_isr_oneshot s alarm a W Hc A Hp) as (s' & E & W' & O' & _).
      exists s'. auto.
  - rewrite timer_alarm_isr_idle by done. eexists. split; [reflexivity|].
    split; [by apply wf_reg_write|by apply ordered_reg_write].
Qed.

(** ** Allocation and the constructor *)

Lemma m_new_obj_fresh s : objs s !! (m_new_obj s).1 = None.
Proof. simpl. apply not_elem_of_dom, is_fresh. Qed.

Section alloc.
Variables (s : state) (p : ptr) (a : mp_obj_alarm_t).
Hypothesis W : wf s.
Hypothesis Hfresh : objs s !! p = None.
Hypothesis Hnp : heap_index a = NOT_PENDING.
Hypothesis Hwhen : 0 <= when a < UINT64_MOD.

Let s' := with_objs (<[p := a]> (objs s)) s.

Lemma alloc_alarm_at j : 0 <= j < count s -> alarm_at j s' = alarm_at j s.
Proof using W Hfresh.
  intros Hj. destruct (wf_slot s W j Hj) as (q & b & A & _). rewrite A.
  apply alarm_at_inv in A as [D O]. apply alarm_at_some; [done|].
  simpl. rewrite lookup_insert_ne; [done|congruence].
Qed.

Lemma alloc_wf : wf s'.
Proof using W Hfresh Hnp Hwhen.
  split.
  - apply (wf_len s W).
  - apply (wf_count s W).
  - intros j Hj. rewrite alloc_alarm_at by done. by apply (wf_slot s W).
  - intros q b. simpl. rewrite lookup_insert. destruct (decide (p = q)) as [->|].
    + intros [= <-]. by left.
    + apply (wf_obj s W).
  - intros q b. simpl. rewrite lookup_insert. destruct (decide (p = q)) as [->|].
    + by intros [= <-].
    + apply (wf_when s W).
  - apply (wf_counter s W).
Qed.

Lemma alloc_ordered : ordered s -> ordered s'.
Proof using W Hfresh.
  intros O i j Hij Hj. unfold deadline.
  rewrite !alloc_alarm_at by (simpl in Hj; lia). by apply O.
Qed.
End alloc.

Lemma alarm_make_new_ok clk args s :
  wf s ->
  exists s' r, alarm_make_new clk args s = Some (s', r) /\
    wf s' /\ (ordered s -> ordered s').
Proof.
  intros W. unfold alarm_make_new.
  destruct (alarm_make_new_clocks clk args) as [clocks| |];
    [|exists s, ValueError; auto|exists s, MemoryError; auto].
  pose proof (m_new_obj_fresh s) as Hf.
  unfold m_new_obj in *. cbn [fst] in Hf.
  set (p := fresh (dom (objs s))) in *.
  erewrite obj_update_some by (simpl; apply lookup_insert_eq).
  set (a := mk_alarm _ _ _ _ _ _).
  set (s1 := with_objs _ _).
  assert (Hs1 : s1 = with_objs (<[p := a]> (objs s)) s).
  { unfold s1, with_objs. simpl. by rewrite insert_insert_eq. }
  assert (Hw : 0 <= when a < UINT64_MOD) by (by rewrite UINT64_MOD_val).
  assert (W1 : wf s1) by (rewrite Hs1; by apply alloc_wf).
  assert (O1 : ordered s -> ordered s1) by (rewrite Hs1; by apply alloc_ordered).
  destruct (alarm_set_callback_helper_ok s1 p a (a_handler args) (a_arg args) W1)
    as (s' & r & E & W' & O').
  { rewrite Hs1. apply lookup_insert_eq. }
  rewrite E. destruct r; eexists; eexists; (split; [reflexivity|]); auto.
Qed.

(** ** Runs keep the invariants *)

Lemma wf_set_counter c s : wf s -> wf (set_counter c s).
Proof.
  intros [Hl Hc Hs Ho Hw Hk]. split; try done.
  simpl. apply Z.mod_pos_bound. by rewrite UINT64_MOD_val.
Qed.

Lemma step_ok clk o s :
  wf s -> op_valid o s = true ->
  exists s', step clk o s = Some s' /\ wf s' /\ (ordered s -> ordered s').
Proof.
  intros W V. destruct o as [args|self h arg|self| |c]; simpl in *.
  - destruct (alarm_make_new_ok clk args s W) as (s' & r & E & W' & O').
    rewrite E. eauto.
  - destruct (objs s !! self) as [a|] eqn:Ha; [|discriminate]. unfold alarm_callback.
    destruct (alarm_set_callback_helper_ok s self a h arg W Ha) as (s' & r & E & W' & O').
    rewrite E. eauto.
  - destruct (objs s !! self) as [a|] eqn:Ha; [|discriminate].
    by apply (alarm_delete_ok s self a).
  - by apply timer_alarm_isr_ok.
  - eexists. split; [reflexivity|]. split; [by apply wf_set_counter|].
    intros O. by apply (ordered_ext s).
Qed.

Lemma run_ok clk ops : forall s,
  wf s -> ordered s -> ops_valid clk ops s = true ->
  exists s', run clk ops s = Some s' /\ wf s' /\ ordered s'.
Proof.
  induction ops as [|o ops IH]; intros s W O V.
  - exists s. auto.
  - cbn [ops_valid] in V. apply andb_prop in V as [V1 V2].
    destruct (step_ok clk o s W V1) as (s1 & E & W1 & O1).
    cbn [run]. rewrite E in *. apply IH; auto.
Qed.

Lemma wf_init h : 0 <= counter h < UINT64_MOD -> wf (init_alarm_heap h).
Proof.
  intros Hc. split; simpl; try done.
  - intros i Hi. lia.
Qed.

Lemma ordered_init h : ordered (init_alarm_heap h).
Proof. intros i j Hij Hj. simpl in Hj. lia. Qed.

Lemma ordered_head_min s : ordered s ->
  forall j, 0 <= j < count s -> deadline s 0 <= deadline s j.
Proof. intros O j Hj. apply O; lia. Qed.

(** ** Checking the invariants by computation *)

Lemma wfb_sound s : wfb s = true -> wf s.
Proof.
  unfold wfb. intros H.
  apply andb_prop in H as [H He]. apply andb_prop in H as [H Hd].
  apply andb_prop in H as [H Hc]. apply andb_prop in H as [Ha Hb].
  apply bool_decide_eq_true in Ha.
  apply andb_prop in Hb as [Hb1 Hb2]. apply andb_prop in He as [He1 He2].
  apply Z.leb_le in Hb1, Hb2, He1. apply Z.ltb_lt in He2.
  rewrite forallb_forall in Hc. rewrite forallb_forall in Hd.
  assert (Hobj : forall p a, objs s !! p = Some a -> obj_okb s p a = true).
  { intros p a Hpa. apply (Hd (p, a)).
    apply list_elem_of_In. by apply elem_of_map_to_list. }
  split.
  - done.
  - lia.
  - intros i Hi. specialize (Hc (Z.to_nat i)).
    unfold slot_okb in Hc. rewrite Z2Nat.id in Hc by lia.
    assert (Hin : In (Z.to_nat i) (seq 0 (Z.to_nat (count s)))) by (apply in_seq; lia).
    specialize (Hc Hin).
    destruct (alarm_at i s) as [[p a]|]; [|discriminate].
    exists p, a. split; [done|]. by apply Z.eqb_eq.
  - intros p a Hpa. specialize (Hobj p a Hpa).
    unfold obj_okb in Hobj. apply andb_prop in Hobj as [Hok _].
    apply orb_prop in Hok as [Hok|Hok].
    + left. by apply Z.eqb_eq.
    + right. apply andb_prop in Hok as [Hok H3]. apply andb_prop in Hok as [H1 H2].
      apply bool_decide_eq_true in H3. apply Z.leb_le in H1. apply Z.ltb_lt in H2.
      split; [lia|done].
  - intros p a Hpa. specialize (Hobj p a Hpa).
    unfold obj_okb in Hobj. apply andb_prop in Hobj as [_ Hok].
    apply andb_prop in Hok as [H1 H2]. apply Z.leb_le in H1. apply Z.ltb_lt in H2. lia.
  - lia.
Qed.

Lemma orderedb_sound s : orderedb s = true -> ordered s.
Proof.
  unfold orderedb. intros H i j Hij Hj.
  rewrite forallb_forall in H. specialize (H (Z.to_nat i)).
  assert (Hi : In (Z.to_nat i) (seq 0 (Z.to_nat (count s)))) by (apply in_seq; lia).
  specialize (H Hi). rewrite forallb_forall in H. specialize (H (Z.to_nat j)).
  assert (Hj' : In (Z.to_nat j) (seq 0 (Z.to_nat (count s)))) by (apply in_seq; lia).
  specialize (H Hj'). rewrite !Z2Nat.id in H by lia.
  apply orb_prop in H as [H|H].
  - apply Nat.ltb_lt in H. lia.
  - by apply Z.leb_le.
Qed.

(** * The properties of the specification *)

(** ** Concrete scenarios *)

Example scenario_AB : pending (after ops_AB) = [Some (1%N, 3000); Some (0%N, 5000)].
Proof. vm_compute. reflexivity. Qed.

Example scenario_AB_fire :
  let s := after (ops_AB ++ [Op_tick 3000; Op_isr]) in
  pending s = [Some (0%N, 5000); Some (1%N, 6000)] /\
  alarm_en (hw s) = true /\ alarm_high (hw s) = 0 /\ alarm_low (hw s) = 5000 /\
  irq_queue s = [1%N].
Proof. vm_compute. repeat split; reflexivity. Qed.

Example scenario_AB_fire_twice :
  let s := after (ops_AB ++ [Op_tick 3000; Op_isr; Op_tick 5000; Op_isr]) in
  pending s = [Some (1%N, 6000)] /\ irq_queue s = [1%N; 0%N].
Proof. vm_compute. repeat split; reflexivity. Qed.

Example scenario_full : count (after ops_full) = 16.
Proof. vm_compute. reflexivity. Qed.

(** ** C1: ties *)

(** C1, counterexample.  Alarm 0 is made at tick 0 with 10 ticks, alarm 1 at
    tick 5 with 5 ticks: both have deadline 10.  The claim puts alarm 1, the
    later one, after alarm 0 and delivers alarm 0 first.  The code puts
    alarm 1 at index 0, before alarm 0, and delivers alarm 1 first. *)
Lemma insert_alarm_tie_is_not_fifo :
  exists s a0 a1 s',
    run clk_1MHz [Op_new (args_us 10 false); Op_tick 5; Op_new (args_us 5 false)] s_init
      = Some s /\
    objs s !! 0%N = Some a0 /\ objs s !! 1%N = Some a1 /\
    when a0 = 10 /\ when a1 = 10 /\
    heap_index a0 = 1 /\ heap_index a1 = 0 /\
    ~ heap_index a0 < heap_index a1 /\
    run clk_1MHz [Op_tick 10; Op_isr; Op_isr] s = Some s' /\
    irq_queue s' = [1%N; 0%N].
Proof.
  eexists. eexists. eexists. eexists.
  split; [vm_compute; reflexivity|].
  split; [vm_compute; reflexivity|].
  split; [vm_compute; reflexivity|].
  repeat (split; [reflexivity|]).
  split; [simpl; lia|].
  split; vm_compute; reflexivity.
Qed.

(** C1, amended.  [insert_alarm] places the new alarm after every listed
    alarm with a strictly smaller deadline and before every listed alarm with
    an equal or greater deadline, which moves up by one index; the interrupt
    handler pops index 0 and hands that alarm to the dispatch queue.  So of
    two alarms with equal deadlines the one inserted later is delivered
    first. *)
Theorem insert_alarm_tie_break s alarm a :
  wf s -> ordered s ->
  objs s !! alarm = Some a -> heap_index a = NOT_PENDING ->
  count s < ALARM_HEAP_MAX_ELEMENTS ->
  exists k s',
    insert_alarm alarm s = Some s' /\
    alarm_at k s' = Some (alarm, with_heap_index k a) /\
    (forall j p b, 0 <= j < count s -> alarm_at j s = Some (p, b) ->
       if when b <? when a
       then j < k /\ alarm_at j s' = Some (p, b)
       else k < j + 1 /\ alarm_at (j + 1) s' = Some (p, with_heap_index (j + 1) b)) /\
    (exists s1 p0 a0, timer_alarm_isr s' = Some s1 /\
       alarm_at 0 s' = Some (p0, a0) /\ irq_queue s1 = irq_queue s' ++ [p0]).
Proof.
  intros W O Ha Hnp Hc.
  destruct (insert_alarm_ok s alarm a W Ha Hnp Hc)
    as (k & s' & E & Hk & Hlt & Hge & P & _ & _ & W' & _).
  exists k, s'. split; [done|].
  assert (Hslot := insert_post_slot s s' alarm a k W Ha Hnp Hc Hk P).
  split; [|split].
  - destruct (Hslot k) as (p & b & A & _ & H); [lia|].
    destruct (Z.ltb_spec k k); [lia|]. destruct (Z.eqb_spec k k); [|lia].
    by destruct H as [-> ->].
  - intros j p b Hj A.
    assert (Hd : deadline s j = when b) by (unfold deadline; by rewrite A).
    destruct (Z.ltb_spec (when b) (when a)) as [Hlt'|Hge'].
    + assert (j < k).
      { destruct (Z.lt_ge_cases j k); [done|].
        assert (deadline s k <= deadline s j) by (apply O; lia). lia. }
      split; [done|]. destruct (Hslot j) as (p' & b' & A' & _ & H'); [lia|].
      destruct (Z.ltb_spec j k); [|lia]. congruence.
    + assert (k <= j).
      { destruct (Z.lt_ge_cases j k); [|done]. specialize (Hlt j). lia. }
      split; [lia|]. destruct (Hslot (j + 1)) as (p' & b' & A' & _ & H'); [lia|].
      destruct (Z.ltb_spec (j + 1) k); [lia|].
      destruct (Z.eqb_spec (j + 1) k); [lia|].
      destruct H' as (b0 & A0 & ->).
      replace (j + 1 - 1) with j in A0 by lia. congruence.
  - assert (Hc' : 0 < count s') by (destruct P as (-> & _); lia).
    destruct (wf_slot s' W' 0) as (p0 & a0 & A0 & _); [lia|].
    destruct (periodic a0) eqn:Hp.
    + destruct (timer_alarm_isr_periodic s' p0 a0 W' Hc' A0 Hp)
        as (? & ? & ? & ? & s2 & _ & _ & _ & _ & _ & _ & _ & _ & E2 & _ & _ & _ & _ & _ & _ & Q).
      by exists s2, p0, a0.
    + destruct (timer_alarm_isr_oneshot s' p0 a0 W' Hc' A0 Hp)
        as (s2 & E2 & _ & _ & _ & _ & Q).
      by exists s2, p0, a0.
Qed.

Lemma insert_alarm_tie_break_witness :
  exists k s',
    insert_alarm 0%N (after ops_tie) = Some s' /\
    alarm_at k s' =
      Some (0%N, with_heap_index k
                   (mk_alarm 3000 3000 NOT_PENDING hnd (mp_obj_alarm 0%N) false)) /\
    (forall j p b, 0 <= j < count (after ops_tie) ->
       alarm_at j (after ops_tie) = Some (p, b) ->
       if when b <? 3000
       then j < k /\ alarm_at j s' = Some (p, b)
       else k < j + 1 /\ alarm_at (j + 1) s' = Some (p, with_heap_index (j + 1) b)) /\
    (exists s1 p0 a0, timer_alarm_isr s' = Some s1 /\
       alarm_at 0 s' = Some (p0, a0) /\ irq_queue s1 = irq_queue s' ++ [p0]).
Proof.
  apply (insert_alarm_tie_break (after ops_tie) 0%N
           (mk_alarm 3000 3000 NOT_PENDING hnd (mp_obj_alarm 0%N) false)).
  - apply wfb_sound. vm_compute. reflexivity.
  - apply orderedb_sound. vm_compute. reflexivity.
  - vm_compute. reflexivity.
  - reflexivity.
  - vm_compute. reflexivity.
Defined.

(** The tie of the witness: alarm 0 goes to index 0, in front of alarm 1. *)
Example insert_alarm_tie_example :
  pending (after ops_tie) = [Some (1%N, 3000)] /\
  option_map pending (insert_alarm 0%N (after ops_tie))
    = Some [Some (0%N, 3000); Some (1%N, 3000)].
Proof. vm_compute. split; reflexivity. Qed.

(** ** C2: the list is ordered *)

(** C2.  From the initial state, after every run of constructor calls,
    [callback] calls, [cancel] calls, interrupts and counter ticks (calls that
    fail with [MemoryError] included), the run does not go wrong, the list is
    ordered by non-decreasing deadline and index 0 holds the minimum; and
    [insert_alarm] and [remove_alarm] each keep the order. *)
Theorem alarm_list_stays_ordered :
  (forall clk h ops,
     0 <= counter h < UINT64_MOD ->
     ops_valid clk ops (init_alarm_heap h) = true ->
     exists s, run clk ops (init_alarm_heap h) = Some s /\
       0 <= count s <= ALARM_HEAP_MAX_ELEMENTS /\
       (forall i j, 0 <= i <= j -> j < count s -> deadline s i <= deadline s j) /\
       (forall j, 0 <= j < count s -> deadline s 0 <= deadline s j)) /\
  (forall s alarm a,
     wf s -> ordered s ->
     objs s !! alarm = Some a -> heap_index a = NOT_PENDING ->
     count s < ALARM_HEAP_MAX_ELEMENTS ->
     exists s', insert_alarm alarm s = Some s' /\ count s' = count s + 1 /\
       ordered s' /\
       (forall j, 0 <= j < count s' -> deadline s' 0 <= deadline s' j)) /\
  (forall s i,
     wf s -> ordered s -> 0 <= i < count s ->
     exists s', remove_alarm i s = Some s' /\ count s' = count s - 1 /\
       ordered s' /\
       (forall j, 0 <= j < count s' -> deadline s' 0 <= deadline s' j)).
Proof.
  split; [|split].
  - intros clk h ops Hh V.
    destruct (run_ok clk ops (init_alarm_heap h)) as (s & E & W & O);
      [by apply wf_init|apply ordered_init|done|].
    exists s. split; [done|]. split; [apply (wf_count s W)|].
    split; [exact O|by apply ordered_head_min].
  - intros s alarm a W O Ha Hnp Hc.
    destruct (insert_alarm_ok s alarm a W Ha Hnp Hc)
      as (k & s' & E & _ & _ & _ & P & _ & _ & _ & O').
    exists s'. split; [done|]. split; [by destruct P|].
    split; [auto|apply ordered_head_min; auto].
  - intros s i W O Hi.
    destruct (remove_alarm_ok s i W Hi) as (v & a & s' & _ & _ & E & P & _ & _ & _ & O').
    exists s'. split; [done|]. split; [by destruct P|].
    split; [auto|apply ordered_head_min; auto].
Qed.

Lemma alarm_list_stays_ordered_witness :
  (exists s, run clk_1MHz ops_mixed (init_alarm_heap hw_reset) = Some s /\
     0 <= count s <= ALARM_HEAP_MAX_ELEMENTS /\
     (forall i j, 0 <= i <= j -> j < count s -> deadline s i <= deadline s j) /\
     (forall j, 0 <= j < count s -> deadline s 0 <= deadline s j)) /\
  (exists s', insert_alarm 0%N (after (ops_AB ++ [Op_cancel 0%N])) = Some s' /\
     count s' = count (after (ops_AB ++ [Op_cancel 0%N])) + 1 /\
     ordered s' /\
     (forall j, 0 <= j < count s' -> deadline s' 0 <= deadline s' j)) /\
  (exists s', remove_alarm 0 (after ops_AB) = Some s' /\
     count s' = count (after ops_AB) - 1 /\
     ordered s' /\
     (forall j, 0 <= j < count s' -> deadline s' 0 <= deadline s' j)).
Proof.
  split; [|split].
  - apply (proj1 alarm_list_stays_ordered clk_1MHz hw_reset ops_mixed).
    + vm_compute. split; [discriminate|reflexivity].
    + vm_compute. reflexivity.
  - apply (proj1 (proj2 alarm_list_stays_ordered) (after (ops_AB ++ [Op_cancel 0%N])) 0%N
             (mk_alarm 5000 5000 NOT_PENDING hnd (mp_obj_alarm 0%N) false)).
    + apply wfb_sound. vm_compute. reflexivity.
    + apply orderedb_sound. vm_compute. reflexivity.
    + vm_compute. reflexivity.
    + reflexivity.
    + vm_compute. reflexivity.
  - apply (proj2 (proj2 alarm_list_stays_ordered) (after ops_AB) 0).
    + apply wfb_sound. vm_compute. reflexivity.
    + apply orderedb_sound. vm_compute. reflexivity.
    + vm_compute. split; [discriminate|reflexivity].
Defined.

(** ** C3: positions *)

Lemma wf_position_invariant s : wf s -> position_invariant s.
Proof.
  intros W p a Ha. pose proof (wf_member_index s p a W Ha) as Hm. split; [split|].
  - intros [Hr Hd]. by exists (heap_index a).
  - intros M. destruct (wf_obj s W p a Ha) as [Hn|]; [|done].
    by apply Hm in M.
  - intros Hn. destruct (Z.eq_dec (heap_index a) NOT_PENDING); [done|].
    exfalso. by apply Hn, Hm.
Qed.

(** C3.  [insert_alarm], [remove_alarm] and [timer_alarm_isr] do not go wrong
    and keep the invariant: an alarm's [heap_index] is an index below [count]
    whose slot points back to the alarm exactly when the alarm is in the list,
    and is the sentinel otherwise.  Every alarm shifted by an insertion or a
    removal has its [heap_index] set to its new index, the inserted alarm has
    its index, and the removed alarm has the sentinel. *)
Theorem position_linkage_preserved :
  (forall s alarm a,
     wf s -> objs s !! alarm = Some a -> heap_index a = NOT_PENDING ->
     count s < ALARM_HEAP_MAX_ELEMENTS ->
     exists k s', insert_alarm alarm s = Some s' /\
       wf s' /\ position_invariant s' /\
       alarm_at k s' = Some (alarm, with_heap_index k a) /\ member alarm s' /\
       (forall j p b, k <= j < count s -> alarm_at j s = Some (p, b) ->
          alarm_at (j + 1) s' = Some (p, with_heap_index (j + 1) b)) /\
       (forall j, 0 <= j < k -> alarm_at j s' = alarm_at j s)) /\
  (forall s i,
     wf s -> 0 <= i < count s ->
     exists victim a s', alarm_at i s = Some (victim, a) /\
       remove_alarm i s = Some s' /\
       wf s' /\ position_invariant s' /\
       objs s' !! victim = Some (with_heap_index NOT_PENDING a) /\
       ~ member victim s' /\
       (forall j p b, i < j < count s -> alarm_at j s = Some (p, b) ->
          alarm_at (j - 1) s' = Some (p, with_heap_index (j - 1) b)) /\
       (forall j, 0 <= j < i -> alarm_at j s' = alarm_at j s)) /\
  (forall s,
     wf s ->
     exists s', timer_alarm_isr s = Some s' /\ wf s' /\ position_invariant s').
Proof.
  split; [|split].
  - intros s alarm a W Ha Hnp Hc.
    destruct (insert_alarm_ok s alarm a W Ha Hnp Hc)
      as (k & s' & E & Hk & _ & _ & P & _ & _ & W' & _).
    assert (Hslot := insert_post_slot s s' alarm a k W Ha Hnp Hc Hk P).
    assert (Hself : alarm_at k s' = Some (alarm, with_heap_index k a)).
    { destruct (Hslot k) as (p & b & A & _ & H); [lia|].
      destruct (Z.ltb_spec k k); [lia|]. destruct (Z.eqb_spec k k); [|lia].
      by destruct H as [-> ->]. }
    exists k, s'. split; [done|]. split; [done|].
    split; [by apply wf_position_invariant|]. split; [done|].
    split; [|split].
    + exists k. split; [destruct P as (-> & _); lia|].
      by apply alarm_at_inv in Hself as [D _].
    + intros j p b Hj A.
      destruct (Hslot (j + 1)) as (p' & b' & A' & _ & H'); [lia|].
      destruct (Z.ltb_spec (j + 1) k); [lia|].
      destruct (Z.eqb_spec (j + 1) k); [lia|].
      destruct H' as (b0 & A0 & ->).
      replace (j + 1 - 1) with j in A0 by lia. congruence.
    + intros j Hj. destruct (Hslot j) as (p' & b' & A' & _ & H'); [lia|].
      destruct (Z.ltb_spec j k); [|lia]. congruence.
  - intros s i W Hi.
    destruct (remove_alarm_ok s i W Hi)
      as (victim & a & s' & A & I & E & P & _ & _ & W' & _).
    assert (Hslot := remove_post_slot s s' victim a i W Hi A P).
    assert (Hv := remove_post_victim s s' victim a i A P).
    exists victim, a, s'. split; [done|]. split; [done|]. split; [done|].
    split; [by apply wf_position_invariant|]. split; [done|].
    split; [|split].
    + intros M. by apply (wf_member_index s' victim _ W' Hv) in M.
    + intros j p b Hj A1.
      destruct (Hslot (j - 1)) as (p' & b' & A' & _ & _ & H'); [lia|].
      destruct (Z.ltb_spec (j - 1) i); [lia|].
      destruct H' as (b0 & A0 & ->).
      replace (j - 1 + 1) with j in A0 by lia. congruence.
    + intros j Hj. destruct (Hslot j) as (p' & b' & A' & _ & _ & H'); [lia|].
      destruct (Z.ltb_spec j i); [|lia]. congruence.
  - intros s W. destruct (timer_alarm_isr_ok s W) as (s' & E & W' & _).
    exists s'. split; [done|]. split; [done|]. by apply wf_position_invariant.
Qed.

Lemma position_linkage_preserved_witness :
  (exists k s', insert_alarm 0%N (after (ops_AB ++ [Op_cancel 0%N])) = Some s' /\
     wf s' /\ position_invariant s' /\
     alarm_at k s' =
       Some (0%N, with_heap_index k
                    (mk_alarm 5000 5000 NOT_PENDING hnd (mp_obj_alarm 0%N) false)) /\
     member 0%N s' /\
     (forall j p b, k <= j < count (after (ops_AB ++ [Op_cancel 0%N])) ->
        alarm_at j (after (ops_AB ++ [Op_cancel 0%N])) = Some (p, b) ->
        alarm_at (j + 1) s' = Some (p, with_heap_index (j + 1) b)) /\
     (forall j, 0 <= j < k ->
        alarm_at j s' = alarm_at j (after (ops_AB ++ [Op_cancel 0%N])))) /\
  (exists victim a s', alarm_at 0 (after ops_AB) = Some (victim, a) /\
     remove_alarm 0 (after ops_AB) = Some s' /\
     wf s' /\ position_invariant s' /\
     objs s' !! victim = Some (with_heap_index NOT_PENDING a) /\
     ~ member victim s' /\
     (forall j p b, 0 < j < count (after ops_AB) ->
        alarm_at j (after ops_AB) = Some (p, b) ->
        alarm_at (j - 1) s' = Some (p, with_heap_index (j - 1) b)) /\
     (forall j, 0 <= j < 0 -> alarm_at j s' = alarm_at j (after ops_AB))) /\
  (exists s', timer_alarm_isr (after ops_AB) = Some s' /\ wf s' /\
     position_invariant s').
Proof.
  split; [|split].
  - apply (proj1 position_linkage_preserved (after (ops_AB ++ [Op_cancel 0%N])) 0%N
             (mk_alarm 5000 5000 NOT_PENDING hnd (mp_obj_alarm 0%N) false)).
    + apply wfb_sound. vm_compute. reflexivity.
    + vm_compute. reflexivity.
    + reflexivity.
    + vm_compute. reflexivity.
  - apply (proj1 (proj2 position_linkage_preserved) (after ops_AB) 0).
    + apply wfb_sound. vm_compute. reflexivity.
    + vm_compute. split; [discriminate|reflexivity].
  - apply (proj2 (proj2 position_linkage_preserved) (after ops_AB)).
    apply wfb_sound. vm_compute. reflexivity.
Defined.

(** ** C4: activation at capacity *)

Lemma handler_write_alarm_at s self a a' i :
  wf s -> objs s !! self = Some a -> heap_index a = NOT_PENDING ->
  0 <= i < count s ->
  alarm_at i (with_objs (<[self := a']> (objs s)) s) = alarm_at i s.
Proof.
  intros W Ha Hnp Hi. destruct (wf_slot s W i Hi) as (q & b & A & I).
  rewrite (obj_write_alarm_at s (with_objs (<[self := a']> (objs s)) s) self a a'
             Ha eq_refl eq_refl i q b A), A.
  destruct (decide (q = self)) as [->|]; [|done].
  apply alarm_at_inv in A as [_ O]. assert (b = a) by congruence. subst b.
  pose proof (wf_count s W). rewrite NOT_PENDING_val in Hnp.
  unfold ALARM_HEAP_MAX_ELEMENTS in *. lia.
Qed.

(** C4, counterexample.  A one-shot alarm (address 0, handler [hnd]) fires and
    is handed to the dispatch queue; sixteen more alarms are then made, so
    the list is full.  [callback] on alarm 0 with another handler and another
    argument raises [MemoryError], yet the state is not the one before the
    call: the alarm now holds the handler and the argument of the failed
    call, and the interrupt that was queued before the call will run them. *)
Lemma activate_at_capacity_writes_handler :
  exists s a s' a',
    run clk_1MHz ([Op_new (args_us 10 false); Op_tick 10; Op_isr] ++ ops_full) s_init
      = Some s /\
    count s = 16 /\ irq_queue s = [0%N] /\
    objs s !! 0%N = Some a /\ heap_index a = NOT_PENDING /\
    handler a = hnd /\ handler_arg a = mp_obj_alarm 0%N /\
    alarm_handler 0%N s = Some (Some (hnd, mp_obj_alarm 0%N)) /\
    alarm_callback 0%N (mp_obj_other 8) (mp_obj_other 9) s = Some (s', MemoryError) /\
    objs s' !! 0%N = Some a' /\
    handler a' = mp_obj_other 8 /\ handler_arg a' = mp_obj_other 9 /\
    alarm_handler 0%N s' = Some (Some (mp_obj_other 8, mp_obj_other 9)) /\
    s' <> s.
Proof.
  eexists. eexists. eexists. eexists.
  do 13 (split; [vm_compute; reflexivity|]).
  intros E. apply (f_equal (fun s => handler <$> objs s !! 0%N)) in E.
  vm_compute in E. discriminate E.
Qed.

(** C4, amended.  With 16 alarms in the list, activating an alarm that is not
    in it, through [callback] or through the constructor, raises
    [MemoryError].  [count] stays 16, the array, the timer registers and the
    dispatch queue are unchanged, every other object (so each of the 16
    listed alarms) is unchanged, and the alarm itself keeps the sentinel, its
    deadline, its interval and its periodicity: it is still not in the list.
    The call is not without effect, though: the handler and the argument
    (the alarm itself when none is given) have been stored in the alarm
    before the check and stay there, so the state is the one before the call
    exactly when the alarm held these two values already.  The constructor
    leaves, besides, the object it allocated, with the sentinel and outside
    the list. *)
Theorem activate_at_capacity :
  (forall s self a handler0 arg,
     wf s -> count s = ALARM_HEAP_MAX_ELEMENTS ->
     objs s !! self = Some a -> heap_index a = NOT_PENDING ->
     is_none handler0 = false ->
     exists s' a',
       alarm_set_callback_helper self handler0 arg s = Some (s', MemoryError) /\
       count s' = 16 /\ data s' = data s /\ hw s' = hw s /\
       irq_queue s' = irq_queue s /\
       (forall i, 0 <= i < 16 -> alarm_at i s' = alarm_at i s) /\
       (forall p, p <> self -> objs s' !! p = objs s !! p) /\
       objs s' !! self = Some a' /\
       heap_index a' = NOT_PENDING /\ when a' = when a /\
       interval a' = interval a /\ periodic a' = periodic a /\
       handler a' = handler0 /\
       handler_arg a' = (if is_none arg then mp_obj_alarm self else arg) /\
       ~ member self s' /\
       (s' = s <->
        handler a = handler0 /\
        handler_arg a = (if is_none arg then mp_obj_alarm self else arg))) /\
  (forall clk args clocks s,
     wf s -> count s = ALARM_HEAP_MAX_ELEMENTS ->
     alarm_make_new_clocks clk args = Ok clocks ->
     is_none (a_handler args) = false ->
     exists p s',
       alarm_make_new clk args s = Some (s', MemoryError) /\
       count s' = 16 /\ data s' = data s /\ hw s' = hw s /\
       irq_queue s' = irq_queue s /\
       (forall i, 0 <= i < 16 -> alarm_at i s' = alarm_at i s) /\
       (forall q a, objs s !! q = Some a -> objs s' !! q = Some a) /\
       objs s !! p = None /\
       (forall q, q <> p -> objs s' !! q = objs s !! q) /\
       objs s' !! p =
         Some (mk_alarm 0 clocks NOT_PENDING (a_handler args)
                 (if is_none (a_arg args) then mp_obj_alarm p else a_arg args)
                 (a_periodic args)) /\
       ~ member p s').
Proof.
  assert (Hhelper : forall s self a handler0 arg,
     wf s -> count s = ALARM_HEAP_MAX_ELEMENTS ->
     objs s !! self = Some a -> heap_index a = NOT_PENDING ->
     is_none handler0 = false ->
     alarm_set_callback_helper self handler0 arg s =
       Some (with_objs (<[self := set_handlers self handler0 arg a]> (objs s)) s,
             MemoryError)).
  { intros s self a handler0 arg W Hc Ha Hnp Hh.
    rewrite (helper_prefix s self a handler0 arg Ha). cbv zeta. rewrite Hh.
    change (heap_index (set_handlers self handler0 arg a)) with (heap_index a).
    rewrite Hnp, Z.eqb_refl.
    change (count (with_objs _ s)) with (count s). by rewrite Hc, Z.eqb_refl. }
  split.
  - intros s self a handler0 arg W Hc Ha Hnp Hh.
    rewrite (Hhelper s self a handler0 arg W Hc Ha Hnp Hh).
    set (a' := set_handlers self handler0 arg a).
    destruct (handler_write_ok s self a a' W Ha eq_refl eq_refl) as [W' _].
    eexists. exists a'. split; [reflexivity|].
    split; [exact Hc|]. split; [reflexivity|]. split; [reflexivity|].
    split; [reflexivity|].
    split; [|split; [|split; [|split; [|split; [|split; [|split;
      [|split; [|split; [|split]]]]]]]]].
    + intros i Hi. apply (handler_write_alarm_at s self a a' i W Ha Hnp).
      rewrite Hc. exact Hi.
    + intros p Hp. simpl. by rewrite lookup_insert_ne.
    + simpl. apply lookup_insert_eq.
    + exact Hnp.
    + reflexivity.
    + reflexivity.
    + reflexivity.
    + reflexivity.
    + reflexivity.
    + intros M. eapply (wf_member_index _ self a' W') in M; [|apply lookup_insert_eq].
      by apply M.
    + split.
      * intros E. apply (f_equal (fun t => objs t !! self)) in E.
        simpl in E. rewrite lookup_insert_eq, Ha in E.
        injection E as E. rewrite <- E. split; reflexivity.
      * intros [E1 E2].
        assert (Ea : a' = a).
        { unfold a', set_handlers, with_handler_arg, with_handler.
          destruct a; simpl in *. by rewrite E1, E2. }
        rewrite Ea. unfold with_objs. rewrite (insert_id (objs s) self a Ha).
        by destruct s.
  - intros clk args clocks s W Hc Hclk Hh.
    unfold alarm_make_new. rewrite Hclk.
    pose proof (m_new_obj_fresh s) as Hf.
    unfold m_new_obj in *. cbn [fst] in Hf.
    set (p := fresh (dom (objs s))) in *.
    erewrite obj_update_some by (simpl; apply lookup_insert_eq).
    set (a := mk_alarm _ _ _ _ _ _).
    set (s1 := with_objs _ _).
    assert (Hs1 : s1 = with_objs (<[p := a]> (objs s)) s).
    { unfold s1, with_objs. simpl. by rewrite insert_insert_eq. }
    assert (Hw : 0 <= when a < UINT64_MOD) by (by rewrite UINT64_MOD_val).
    assert (W1 : wf s1) by (rewrite Hs1; by apply alloc_wf).
    assert (Ha1 : objs s1 !! p = Some a) by (rewrite Hs1; apply lookup_insert_eq).
    rewrite (Hhelper s1 p a (a_handler args) (a_arg args) W1 Hc Ha1 eq_refl Hh).
    set (a' := set_handlers p (a_handler args) (a_arg args) a).
    destruct (handler_write_ok s1 p a a' W1 Ha1 eq_refl eq_refl) as [W' _].
    exists p. eexists. split; [reflexivity|].
    split; [exact Hc|]. split; [reflexivity|]. split; [reflexivity|].
    split; [reflexivity|].
    split; [|split; [|split; [|split; [|split]]]].
    + intros i Hi.
      assert (Hc1 : count s1 = ALARM_HEAP_MAX_ELEMENTS) by exact Hc.
      rewrite (handler_write_alarm_at s1 p a _ i W1 Ha1 eq_refl) by (by rewrite Hc1).
      rewrite Hs1. apply alloc_alarm_at; auto. by rewrite Hc.
    + intros q b Hq. simpl.
      assert (q <> p) by congruence.
      by rewrite !lookup_insert_ne by done.
    + exact Hf.
    + intros q Hq. simpl. by rewrite !lookup_insert_ne by done.
    + simpl. rewrite lookup_insert_eq. reflexivity.
    + intros M. eapply (wf_member_index _ p a' W') in M; [|apply lookup_insert_eq].
      by apply M.
Qed.

Lemma activate_at_capacity_witness :
  (exists s' a',
     alarm_set_callback_helper 0%N hnd mp_const_none (after (ops_full ++ [Op_cancel 0%N] ++ ops_AB))
       = Some (s', MemoryError) /\
     count s' = 16 /\
     data s' = data (after (ops_full ++ [Op_cancel 0%N] ++ ops_AB)) /\
     hw s' = hw (after (ops_full ++ [Op_cancel 0%N] ++ ops_AB)) /\
     irq_queue s' = irq_queue (after (ops_full ++ [Op_cancel 0%N] ++ ops_AB)) /\
     (forall i, 0 <= i < 16 ->
        alarm_at i s' = alarm_at i (after (ops_full ++ [Op_cancel 0%N] ++ ops_AB))) /\
     (forall p, p <> 0%N ->
        objs s' !! p = objs (after (ops_full ++ [Op_cancel 0%N] ++ ops_AB)) !! p) /\
     objs s' !! 0%N = Some a' /\
     heap_index a' = NOT_PENDING /\ when a' = 5000 /\
     interval a' = 5000 /\ periodic a' = false /\
     handler a' = hnd /\ handler_arg a' = mp_obj_alarm 0%N /\
     ~ member 0%N s' /\
     (s' = after (ops_full ++ [Op_cancel 0%N] ++ ops_AB) <->
      hnd = hnd /\ mp_obj_alarm 0%N = mp_obj_alarm 0%N)) /\
  (exists p s',
     alarm_make_new clk_1MHz (args_us 700 false) (after ops_full) = Some (s', MemoryError) /\
     count s' = 16 /\ data s' = data (after ops_full) /\ hw s' = hw (after ops_full) /\
     irq_queue s' = irq_queue (after ops_full) /\
     (forall i, 0 <= i < 16 -> alarm_at i s' = alarm_at i (after ops_full)) /\
     (forall q a, objs (after ops_full) !! q = Some a -> objs s' !! q = Some a) /\
     objs (after ops_full) !! p = None /\
     (forall q, q <> p -> objs s' !! q = objs (after ops_full) !! q) /\
     objs s' !! p = Some (mk_alarm 0 700 NOT_PENDING hnd (mp_obj_alarm p) false) /\
     ~ member p s').
Proof.
  split.
  - apply (proj1 activate_at_capacity (after (ops_full ++ [Op_cancel 0%N] ++ ops_AB)) 0%N
             (mk_alarm 5000 5000 NOT_PENDING hnd (mp_obj_alarm 0%N) false)
             hnd mp_const_none).
    + apply wfb_sound. vm_compute. reflexivity.
    + vm_compute. reflexivity.
    + vm_compute. reflexivity.
    + reflexivity.
    + reflexivity.
  - apply (proj2 activate_at_capacity clk_1MHz (args_us 700 false) 700 (after ops_full)).
    + apply wfb_sound. vm_compute. reflexivity.
    + vm_compute. reflexivity.
    + vm_compute. reflexivity.
    + reflexivity.
Defined.

(** ** C5: the next deadline of a periodic alarm *)

(** C5, counterexample.  A periodic alarm of 2 ticks fires when the counter
    reads 2^64 - 1.  The 64-bit sum wraps: the new deadline is 1, which is not
    the fire time plus 2 and lies before the fire time. *)
Lemma isr_periodic_deadline_wraps :
  exists s a s' a',
    run clk_1MHz [Op_tick (2 ^ 64 - 3); Op_new (args_us 2 true); Op_tick (2 ^ 64 - 1)]
      s_init = Some s /\
    counter (hw s) = 2 ^ 64 - 1 /\
    alarm_at 0 s = Some (0%N, a) /\ periodic a = true /\ interval a = 2 /\
    timer_alarm_isr s = Some s' /\
    objs s' !! 0%N = Some a' /\
    when a' = 1 /\
    when a' <> counter (hw s) + interval a /\
    when a' < counter (hw s).
Proof.
  eexists. eexists. eexists. eexists.
  split; [vm_compute; reflexivity|].
  split; [vm_compute; reflexivity|].
  split; [vm_compute; reflexivity|].
  split; [reflexivity|]. split; [reflexivity|].
  split; [vm_compute; reflexivity|].
  split; [vm_compute; reflexivity|].
  split; [reflexivity|].
  split; [vm_compute; discriminate|vm_compute; reflexivity].
Qed.

(** C5, amended.  When the alarm at index 0 is periodic with interval I, the
    interrupt handler does not go wrong, takes the alarm out and puts it back
    with deadline (counter at the interrupt + I) modulo 2^64, whatever its
    previous deadline was; the alarm is in the list again, [count] is as
    before and the alarm is queued for dispatch.  When counter + I does not
    overflow 64 bits the new deadline is counter + I and is not before the
    counter value at the interrupt. *)
Theorem isr_periodic_deadline s alarm a :
  wf s -> 0 < count s -> alarm_at 0 s = Some (alarm, a) -> periodic a = true ->
  exists k s' a',
    timer_alarm_isr s = Some s' /\
    alarm_at k s' = Some (alarm, a') /\ 0 <= k < count s' /\ heap_index a' = k /\
    when a' = to_uint64 (counter (hw s) + interval a) /\
    interval a' = interval a /\ periodic a' = true /\
    count s' = count s /\
    irq_queue s' = irq_queue s ++ [alarm] /\
    (0 <= interval a -> counter (hw s) + interval a < UINT64_MOD ->
       when a' = counter (hw s) + interval a /\ counter (hw s) <= when a').
Proof.
  intros W Hc A Hp.
  destruct (timer_alarm_isr_periodic s alarm a W Hc A Hp)
    as (s1 & s2 & k & s3 & s' & _ & _ & _ & _ & _ & _ & _ & Hk & E & W' & _ & Hc' & _ & _
        & Ho & Hq).
  exists k, s', (with_heap_index k (with_when (to_uint64 (counter (hw s) + interval a)) a)).
  split; [exact E|].
  split; [|split; [lia|split; [reflexivity|split; [reflexivity|split; [reflexivity|
    split; [exact Hp|split; [exact Hc'|split; [exact Hq|]]]]]]]].
  - apply alarm_at_some; [|exact Ho].
    destruct (wf_obj s' W' alarm _ Ho) as [Hn|[_ Hd]]; [|exact Hd].
    simpl in Hn. pose proof (wf_count s W). rewrite NOT_PENDING_val in Hn.
    unfold ALARM_HEAP_MAX_ELEMENTS in *. lia.
  - intros Hi Hlt. simpl. pose proof (wf_counter s W).
    rewrite to_uint64_small by lia. lia.
Qed.

Lemma isr_periodic_deadline_witness :
  exists k s' a',
    timer_alarm_isr (after (ops_AB ++ [Op_tick 3007])) = Some s' /\
    alarm_at k s' = Some (1%N, a') /\ 0 <= k < count s' /\ heap_index a' = k /\
    when a' = to_uint64 (counter (hw (after (ops_AB ++ [Op_tick 3007]))) + 3000) /\
    interval a' = 3000 /\ periodic a' = true /\
    count s' = count (after (ops_AB ++ [Op_tick 3007])) /\
    irq_queue s' = irq_queue (after (ops_AB ++ [Op_tick 3007])) ++ [1%N] /\
    (0 <= 3000 -> counter (hw (after (ops_AB ++ [Op_tick 3007]))) + 3000 < UINT64_MOD ->
       when a' = counter (hw (after (ops_AB ++ [Op_tick 3007]))) + 3000 /\
       counter (hw (after (ops_AB ++ [Op_tick 3007]))) <= when a').
Proof.
  apply (isr_periodic_deadline (after (ops_AB ++ [Op_tick 3007])) 1%N
           (mk_alarm 3000 3000 0 hnd (mp_obj_alarm 1%N) true)).
  - apply wfb_sound. vm_compute. reflexivity.
  - vm_compute. reflexivity.
  - vm_compute. reflexivity.
  - reflexivity.
Defined.

(** The alarm that fired late at tick 3007 is due at 6007, not at 6000. *)
Example periodic_deadline_drifts :
  pending (after (ops_AB ++ [Op_tick 3007; Op_isr])) = [Some (0%N, 5000); Some (1%N, 6007)].
Proof. vm_compute. reflexivity. Qed.

(** ** C6: arming *)

(** C6.  [load_next_alarm] does not go wrong and touches the timer registers
    only.  Its first register write disables the comparator; when the list is
    not empty it then writes the deadline of the alarm at index 0 to the
    comparator and enables it, and otherwise writes nothing more.  So
    afterwards the comparator is enabled exactly when the list is not empty,
    and then it holds the deadline at index 0, the least one of an ordered
    list. *)
Theorem load_next_alarm_arms s :
  wf s ->
  exists s', load_next_alarm s = Some s' /\
    count s' = count s /\ data s' = data s /\ objs s' = objs s /\
    irq_queue s' = irq_queue s /\
    hw_log (hw s') =
      hw_log (hw s) ++ W_alarm_en false ::
        (if 0 <? count s
         then [W_alarm_high (to_uint32 (Z.shiftr (deadline s 0) 32));
               W_alarm_low (to_uint32 (deadline s 0));
               W_alarm_en true]
         else []) /\
    (alarm_en (hw s') = true <-> 0 < count s) /\
    (0 < count s ->
       comparator (hw s') = deadline s 0 /\
       (ordered s -> forall j, 0 <= j < count s -> comparator (hw s') <= deadline s j)).
Proof.
  intros W.
  destruct (load_next_alarm_ok s W) as (s' & E & Hc & Hd & Ho & Hq & Hh & _ & _).
  exists s'. repeat (split; [done|]).
  rewrite Hh. destruct (Z.ltb_spec 0 (count s)) as [Hpos|Hz].
  - assert (Hcmp : comparator (hw_arm (deadline s 0) (hw s)) = deadline s 0).
    { unfold comparator. simpl. apply latch_join.
      destruct (wf_slot s W 0) as (p & a & A & _); [lia|].
      unfold deadline. rewrite A. apply alarm_at_inv in A as [_ O].
      by apply (wf_when s W p). }
    split; [|split; [|split]].
    + simpl. by rewrite <- !app_assoc.
    + simpl. split; [done|reflexivity].
    + exact Hcmp.
    + intros O j Hj. rewrite Hcmp. by apply ordered_head_min.
  - split; [|split].
    + reflexivity.
    + simpl. split; [discriminate|lia].
    + lia.
Qed.

Lemma load_next_alarm_arms_witness :
  exists s', load_next_alarm (after ops_AB) = Some s' /\
    count s' = count (after ops_AB) /\ data s' = data (after ops_AB) /\
    objs s' = objs (after ops_AB) /\
    irq_queue s' = irq_queue (after ops_AB) /\
    hw_log (hw s') =
      hw_log (hw (after ops_AB)) ++ W_alarm_en false ::
        (if 0 <? count (after ops_AB)
         then [W_alarm_high (to_uint32 (Z.shiftr (deadline (after ops_AB) 0) 32));
               W_alarm_low (to_uint32 (deadline (after ops_AB) 0));
               W_alarm_en true]
         else []) /\
    (alarm_en (hw s') = true <-> 0 < count (after ops_AB)) /\
    (0 < count (after ops_AB) ->
       comparator (hw s') = deadline (after ops_AB) 0 /\
       (ordered (after ops_AB) -> forall j, 0 <= j < count (after ops_AB) ->
          comparator (hw s') <= deadline (after ops_AB) j)).
Proof.
  apply (load_next_alarm_arms (after ops_AB)).
  apply wfb_sound. vm_compute. reflexivity.
Defined.

(** ** C7: cancellation *)

(** C7.  [alarm_delete] (the method [cancel]) has no failing path.  On an
    alarm that is not in the list it returns the state it was given.  On any
    alarm, a second call right after the first one returns the state the
    first one left, and the alarm is not in the list. *)
Theorem cancel_idempotent :
  (forall s self a,
     wf s -> objs s !! self = Some a -> ~ member self s ->
     alarm_delete self s = Some s) /\
  (forall s self a,
     wf s -> objs s !! self = Some a ->
     exists s1, alarm_delete self s = Some s1 /\
       alarm_delete self s1 = Some s1 /\ ~ member self s1).
Proof.
  assert (Hnop : forall s self a,
     wf s -> objs s !! self = Some a -> ~ member self s ->
     alarm_delete self s = Some s).
  { intros s self a W Ha Hm. unfold alarm_delete, deref. rewrite Ha.
    destruct (wf_position_invariant s W self a Ha) as [_ Hn].
    by rewrite (Hn Hm), Z.eqb_refl. }
  split; [exact Hnop|].
  intros s self a W Ha.
  destruct (Z.eq_dec (heap_index a) NOT_PENDING) as [Hn|Hn].
  - assert (Hm : ~ member self s).
    { intros M. by apply (wf_member_index s self a W Ha) in M. }
    exists s. rewrite (Hnop s self a W Ha Hm). auto.
  - destruct (wf_obj s W self a Ha) as [|[Hr Hd]]; [done|].
    destruct (remove_alarm_ok s (heap_index a) W Hr)
      as (v & b & s1 & A & _ & E & P & _ & _ & W1 & _).
    pose proof (alarm_at_inv _ _ _ _ A) as [D O].
    assert (v = self) by congruence. subst v.
    assert (Hv := remove_post_victim s s1 self b (heap_index a) A P).
    assert (Hm : ~ member self s1).
    { intros M. by apply (wf_member_index s1 self _ W1 Hv) in M. }
    exists s1. split; [|split; [|done]].
    + unfold alarm_delete, deref. rewrite Ha.
      destruct (Z.eqb_spec (heap_index a) NOT_PENDING); [done|exact E].
    + exact (Hnop s1 self _ W1 Hv Hm).
Qed.

Lemma not_member_after_cancel : ~ member 0%N (after (ops_AB ++ [Op_cancel 0%N])).
Proof.
  intros M.
  assert (W : wf (after (ops_AB ++ [Op_cancel 0%N])))
    by (apply wfb_sound; vm_compute; reflexivity).
  eapply (wf_member_index _ 0%N _ W) in M; [|vm_compute; reflexivity].
  by apply M.
Qed.

Lemma cancel_idempotent_witness :
  alarm_delete 0%N (after (ops_AB ++ [Op_cancel 0%N]))
    = Some (after (ops_AB ++ [Op_cancel 0%N])) /\
  (exists s1, alarm_delete 0%N (after ops_AB) = Some s1 /\
     alarm_delete 0%N s1 = Some s1 /\ ~ member 0%N s1).
Proof.
  split.
  - apply (proj1 cancel_idempotent (after (ops_AB ++ [Op_cancel 0%N])) 0%N
             (mk_alarm 5000 5000 NOT_PENDING hnd (mp_obj_alarm 0%N) false)).
    + apply wfb_sound. vm_compute. reflexivity.
    + vm_compute. reflexivity.
    + exact not_member_after_cancel.
  - apply (proj2 cancel_idempotent (after ops_AB) 0%N
             (mk_alarm 5000 5000 1 hnd (mp_obj_alarm 0%N) false)).
    + apply wfb_sound. vm_compute. reflexivity.
    + vm_compute. reflexivity.
Defined.

(** ** C8: reinsertion from the interrupt handler *)

(** C8.  When the interrupt handler runs with a non-empty list, it pops the
    alarm at index 0, which leaves one alarm less; if that alarm is periodic,
    [set_alarm_when] succeeds and hands [insert_alarm] a state with fewer
    than 16 alarms in which the alarm carries the sentinel, and [insert_alarm]
    does not go wrong: it never writes outside the array. *)
Theorem isr_reinsert_within_capacity s :
  wf s -> 0 < count s ->
  exists alarm a s1,
    isr_pop (reg_write W_int_clr_t0 s) = Some (alarm, s1) /\
    deref alarm s1 = Some a /\
    count s1 = count s - 1 /\
    (periodic a = true ->
     exists s2 a2 s3,
       set_alarm_when alarm (interval a) s1 = Some s2 /\
       count s2 < ALARM_HEAP_MAX_ELEMENTS /\
       deref alarm s2 = Some a2 /\ heap_index a2 = NOT_PENDING /\
       insert_alarm alarm s2 = Some s3 /\
       count s3 = count s /\ count s3 <= ALARM_HEAP_MAX_ELEMENTS).
Proof.
  intros W Hc.
  destruct (wf_slot s W 0) as (alarm & a & A & _); [lia|].
  pose proof (wf_count s W) as Hcs.
  destruct (periodic a) eqn:Hp.
  - destruct (timer_alarm_isr_periodic s alarm a W Hc A Hp)
      as (s1 & s2 & k & s3 & s' & E1 & D1 & E2 & Hc2 & W2 & E3 & P3 & _).
    exists alarm, (with_heap_index NOT_PENDING a), s1.
    split; [done|]. split; [done|].
    assert (Hs1 : wf s1 /\ count s1 = count s - 1).
    { destruct (isr_pop_ok (reg_write W_int_clr_t0 s) (wf_reg_write _ s W) Hc)
        as (al & a0 & s1' & _ & _ & E & P & _ & _ & W1 & _).
      assert (s1' = s1) by congruence. subst s1'. split; [done|]. by destruct P. }
    destruct Hs1 as [W1 Hc1]. split; [done|]. intros _.
    destruct (set_alarm_when_ok s1 alarm _ (interval a) W1 D1 eq_refl)
      as (s2' & E2' & _ & _ & Ho2 & _).
    cbn [interval with_heap_index] in *.
    assert (s2' = s2) by congruence. subst s2'.
    exists s2. eexists. exists s3. split; [done|]. split; [lia|].
    split; [unfold deref; rewrite Ho2; apply lookup_insert_eq|].
    split; [reflexivity|]. split; [done|].
    destruct P3 as (-> & _). lia.
  - destruct (isr_pop_ok (reg_write W_int_clr_t0 s) (wf_reg_write _ s W) Hc)
      as (al & a0 & s1 & A0 & _ & E & P & _ & _ & W1 & _ & D).
    change (alarm_at 0 (reg_write W_int_clr_t0 s)) with (alarm_at 0 s) in A0.
    assert (al = alarm) by congruence. subst al.
    assert (a0 = a) by congruence. subst a0.
    exists alarm, (with_heap_index NOT_PENDING a), s1.
    split; [done|]. split; [done|]. split; [by destruct P|].
    cbn [periodic with_heap_index]. congruence.
Qed.

Lemma isr_reinsert_within_capacity_witness :
  exists alarm a s1,
    isr_pop (reg_write W_int_clr_t0 (after ops_full)) = Some (alarm, s1) /\
    deref alarm s1 = Some a /\
    count s1 = count (after ops_full) - 1 /\
    (periodic a = true ->
     exists s2 a2 s3,
       set_alarm_when alarm (interval a) s1 = Some s2 /\
       count s2 < ALARM_HEAP_MAX_ELEMENTS /\
       deref alarm s2 = Some a2 /\ heap_index a2 = NOT_PENDING /\
       insert_alarm alarm s2 = Some s3 /\
       count s3 = count (after ops_full) /\ count s3 <= ALARM_HEAP_MAX_ELEMENTS).
Proof.
  apply (isr_reinsert_within_capacity (after ops_full)).
  - apply wfb_sound. vm_compute. reflexivity.
  - vm_compute. reflexivity.
Defined.

(** With all 16 slots taken and a periodic alarm at index 0, the interrupt
    leaves 16 alarms in the list. *)
Example isr_full_list :
  count (after ops_full) = 16 /\
  option_map (fun pa => periodic (snd pa)) (alarm_at 0 (after ops_full)) = Some true /\
  count (after (ops_full ++ [Op_tick 3000; Op_isr])) = 16.
Proof. vm_compute. repeat split; reflexivity. Qed.

(** ** C9: the duration check of the constructor *)

(** What the check does reject: no unit or more than one, and a negative
    number of seconds. *)
Lemma alarm_make_new_clocks_rejects clk args :
  Z.b2z (f_nonzero (a_s args)) + Z.b2z (negb (to_uint32 (a_ms args) =? 0))
    + Z.b2z (negb (to_uint32 (a_us args) =? 0)) <> 1
  \/ f_negative (a_s args) = true ->
  alarm_make_new_clocks clk args = ValueError.
Proof.
  intros [H|H]; unfold alarm_make_new_clocks.
  - destruct (Z.eqb_spec (Z.b2z (f_nonzero (a_s args))
       + Z.b2z (negb (to_uint32 (a_ms args) =? 0))
       + Z.b2z (negb (to_uint32 (a_us args) =? 0))) 1); [done|reflexivity].
  - rewrite H. simpl. by destruct (negb _).
Qed.

(** The comparisons [ms < 0] and [us < 0] are between unsigned numbers and
    never hold. *)
Lemma uint32_never_negative z : (to_uint32 z <? 0) = false.
Proof.
  apply Z.ltb_ge. unfold to_uint32. apply Z.mod_pos_bound. by rewrite UINT32_MOD_val.
Qed.

(** C9, the code at the failing inputs.  [Alarm(h, ms=-1)] and
    [Alarm(h, us=-1)] pass the check for every clock frequency and give an
    alarm whose interval is the product taken in 32 bits; with the 80 MHz
    clock of the ESP32, [Alarm(h, ms=-1)] is made with an interval of
    4294927296 ticks and is put in the list, and [Alarm(h, us=536870912)]
    gets the interval 0. *)
Theorem alarm_make_new_accepts_negative :
  (forall clk h arg per,
     alarm_make_new_clocks clk (mk_args h float_zero (-1) 0 arg per) =
       Ok (to_uint32 (4294967295 * Z.quot (CLK_FREQ clk) 1000))) /\
  (forall clk h arg per,
     alarm_make_new_clocks clk (mk_args h float_zero 0 (-1) arg per) =
       Ok (to_uint32 (4294967295 * Z.quot (CLK_FREQ clk) 1000000))) /\
  (exists s p a,
     alarm_make_new 80000000 (mk_args hnd float_zero (-1) 0 mp_const_none false) s_init
       = Some (s, Ok p) /\
     alarm_at 0 s = Some (p, a) /\ interval a = 4294927296 /\ count s = 1) /\
  alarm_make_new_clocks 80000000 (mk_args hnd float_zero 0 536870912 mp_const_none false)
    = Ok 0.
Proof.
  assert (Hsmall : forall z, to_uint64 (to_uint64 (0 + to_uint32 z) + 0) = to_uint32 z).
  { intros z. rewrite Z.add_0_l, Z.add_0_r.
    assert (0 <= to_uint32 z < UINT32_MOD).
    { unfold to_uint32. apply Z.mod_pos_bound. by rewrite UINT32_MOD_val. }
    rewrite UINT32_MOD_val in *.
    rewrite !to_uint64_small; rewrite ?to_uint64_small; rewrite ?UINT64_MOD_val; lia. }
  assert (Hsmall' : forall z, to_uint64 (to_uint64 (0 + 0) + to_uint32 z) = to_uint32 z).
  { intros z. change (to_uint64 (0 + 0)) with 0. rewrite Z.add_0_l.
    assert (0 <= to_uint32 z < UINT32_MOD).
    { unfold to_uint32. apply Z.mod_pos_bound. by rewrite UINT32_MOD_val. }
    rewrite UINT32_MOD_val in *.
    rewrite to_uint64_small; rewrite ?UINT64_MOD_val; lia. }
  split; [|split; [|split]].
  - intros clk h arg per. unfold alarm_make_new_clocks.
    cbn [a_s a_ms a_us f_nonzero f_negative f_clocks float_zero].
    change (to_uint32 (-1)) with 4294967295. change (to_uint32 0) with 0.
    cbn [Z.eqb negb Z.b2z Z.add Z.ltb Z.compare orb Pos.add]. simpl negb.
    cbv iota. rewrite Z.mul_0_l. change (to_uint32 0) with 0. by rewrite Hsmall.
  - intros clk h arg per. unfold alarm_make_new_clocks.
    cbn [a_s a_ms a_us f_nonzero f_negative f_clocks float_zero].
    change (to_uint32 (-1)) with 4294967295. change (to_uint32 0) with 0.
    cbn [Z.eqb negb Z.b2z Z.add Z.ltb Z.compare orb Pos.add]. simpl negb.
    cbv iota. rewrite Z.mul_0_l. change (to_uint32 0) with 0. by rewrite Hsmall'.
  - eexists. eexists. eexists.
    split; [vm_compute; reflexivity|]. split; [vm_compute; reflexivity|].
    split; reflexivity.
  - vm_compute. reflexivity.
Qed.

(** ** C10: a new handler for a pending alarm *)

(** C10.  On an alarm that is in the list, [alarm_set_callback_helper] with a
    handler other than none returns without an exception and writes the
    fields [handler] and [handler_arg] of that alarm only (the argument
    defaults to the alarm itself): [count], the array, the timer registers,
    the dispatch queue, every other object, and the alarm's deadline,
    interval, index and periodicity are as before. *)
Theorem callback_on_pending_alarm s self a handler0 arg :
  wf s -> objs s !! self = Some a -> member self s -> is_none handler0 = false ->
  exists s',
    alarm_set_callback_helper self handler0 arg s = Some (s', Ok tt) /\
    count s' = count s /\ data s' = data s /\ hw s' = hw s /\
    irq_queue s' = irq_queue s /\
    (forall p, p <> self -> objs s' !! p = objs s !! p) /\
    objs s' !! self =
      Some (mk_alarm (when a) (interval a) (heap_index a) handler0
              (if is_none arg then mp_obj_alarm self else arg) (periodic a)) /\
    member self s'.
Proof.
  intros W Ha M Hh.
  assert (Hn : heap_index a <> NOT_PENDING) by (by apply (wf_member_index s self a W Ha)).
  rewrite (helper_prefix s self a handler0 arg Ha). cbv zeta. rewrite Hh.
  change (heap_index (set_handlers self handler0 arg a)) with (heap_index a).
  destruct (Z.eqb_spec (heap_index a) NOT_PENDING); [done|].
  eexists. split; [reflexivity|]. repeat (split; [reflexivity|]).
  split; [|split].
  - intros p Hp. simpl. by rewrite lookup_insert_ne.
  - simpl. by rewrite lookup_insert_eq.
  - destruct M as (i & Hi & Hd). by exists i.
Qed.

Lemma callback_on_pending_alarm_witness :
  exists s',
    alarm_set_callback_helper 1%N (mp_obj_other 9) mp_const_none (after ops_AB)
      = Some (s', Ok tt) /\
    count s' = count (after ops_AB) /\ data s' = data (after ops_AB) /\
    hw s' = hw (after ops_AB) /\
    irq_queue s' = irq_queue (after ops_AB) /\
    (forall p, p <> 1%N -> objs s' !! p = objs (after ops_AB) !! p) /\
    objs s' !! 1%N =
      Some (mk_alarm 3000 3000 0 (mp_obj_other 9) (mp_obj_alarm 1%N) true) /\
    member 1%N s'.
Proof.
  apply (callback_on_pending_alarm (after ops_AB) 1%N
           (mk_alarm 3000 3000 0 hnd (mp_obj_alarm 1%N) true) (mp_obj_other 9)
           mp_const_none).
  - apply wfb_sound. vm_compute. reflexivity.
  - vm_compute. reflexivity.
  - exists 0. split; [vm_compute; split; [discriminate|reflexivity]|].
    vm_compute. reflexivity.
  - reflexivity.
Defined.

(** * Further properties of the code *)

(** ** The list as a list *)

Lemma list_insert_at_eq {A} (l l' : list A) (k : nat) (x : A) :
  (k <= length l)%nat ->
  (forall n, l' !! n =
     if (n <? k)%nat then l !! n
     else if (n =? k)%nat then Some x else l !! pred n) ->
  l' = take k l ++ x :: drop k l.
Proof.
  intros Hk H. apply list_eq. intros n. rewrite H.
  destruct (Nat.ltb_spec n k) as [Hlt|Hge].
  - rewrite lookup_app_l by (rewrite length_take; lia).
    by rewrite lookup_take_lt.
  - rewrite lookup_app_r by (rewrite length_take; lia).
    rewrite length_take, Nat.min_l by lia.
    destruct (Nat.eqb_spec n k) as [->|Hne].
    + by rewrite Nat.sub_diag.
    + destruct (n - k)%nat as [|m] eqn:E; [lia|].
      rewrite lookup_cons, lookup_drop. f_equal. lia.
Qed.

Lemma list_delete_eq {A} (l l' : list A) (i : nat) :
  (forall n, l' !! n = if (n <? i)%nat then l !! n else l !! S n) ->
  l' = delete i l.
Proof.
  intros H. apply list_eq. intros n. rewrite H.
  destruct (Nat.ltb_spec n i).
  - by rewrite list_lookup_delete_lt.
  - by rewrite list_lookup_delete_ge.
Qed.

Lemma alarm_list_lookup s n :
  0 <= count s <= ALARM_HEAP_MAX_ELEMENTS ->
  alarm_list s !! n =
    if Z.of_nat n <? count s then data_get (Z.of_nat n) s else None.
Proof.
  intros Hc. unfold alarm_list, ALARM_HEAP_MAX_ELEMENTS in *. rewrite lookup_take.
  destruct (Z.ltb_spec (Z.of_nat n) (count s)).
  - rewrite decide_True by lia. unfold data_get.
    rewrite (proj2 (in_array_spec _)) by lia. by rewrite Nat2Z.id.
  - by rewrite decide_False by lia.
Qed.

Lemma alarm_list_length s : wf s -> length (alarm_list s) = Z.to_nat (count s).
Proof.
  intros W. unfold alarm_list. rewrite length_take, (wf_len s W).
  pose proof (wf_count s W). unfold ALARM_HEAP_MAX_ELEMENTS in *. lia.
Qed.

Lemma data_ext s s' :
  length (data s) = 16%nat -> length (data s') = 16%nat ->
  (forall j, data_get j s' = data_get j s) -> data s' = data s.
Proof.
  intros L L' H. apply list_eq. intros n.
  destruct (Nat.lt_ge_cases n 16) as [Hlt|Hge].
  - specialize (H (Z.of_nat n)). unfold data_get in H.
    rewrite (proj2 (in_array_spec _)) in H by lia. by rewrite Nat2Z.id in H.
  - rewrite !(proj2 (lookup_ge_None _ _)) by lia. done.
Qed.

Lemma insert_post_list s s' alarm k :
  wf s -> 0 <= k <= count s -> count s < ALARM_HEAP_MAX_ELEMENTS ->
  insert_post s alarm k s' ->
  alarm_list s' =
    take (Z.to_nat k) (alarm_list s) ++ Some alarm :: drop (Z.to_nat k) (alarm_list s).
Proof.
  intros W Hk Hc (Hc' & _ & Hd' & _).
  pose proof (wf_count s W) as Hcnt. unfold ALARM_HEAP_MAX_ELEMENTS in *.
  apply list_insert_at_eq.
  { rewrite alarm_list_length by done. lia. }
  intros n. rewrite !alarm_list_lookup by (unfold ALARM_HEAP_MAX_ELEMENTS; lia).
  rewrite Hc', Hd'.
  destruct (Nat.ltb_spec n (Z.to_nat k)), (Nat.eqb_spec n (Z.to_nat k)),
    (Z.ltb_spec (Z.of_nat n) (count s + 1)), (Z.ltb_spec (Z.of_nat n) (count s)),
    (Z.ltb_spec (Z.of_nat n) k), (Z.eqb_spec (Z.of_nat n) k),
    (Z.leb_spec (Z.of_nat n) (count s)),
    (Z.ltb_spec (Z.of_nat (pred n)) (count s)); try lia; try done.
  all: by replace (Z.of_nat (pred n)) with (Z.of_nat n - 1) by lia.
Qed.

Lemma remove_post_list s s' victim i :
  wf s -> 0 <= i < count s -> remove_post s victim i s' ->
  alarm_list s' = delete (Z.to_nat i) (alarm_list s).
Proof.
  intros W Hi (Hc' & _ & Hd' & _).
  pose proof (wf_count s W) as Hcnt. unfold ALARM_HEAP_MAX_ELEMENTS in *.
  apply list_delete_eq.
  intros n. rewrite !alarm_list_lookup by (unfold ALARM_HEAP_MAX_ELEMENTS; lia).
  rewrite Hc', Hd'.
  destruct (Nat.ltb_spec n (Z.to_nat i)),
    (Z.ltb_spec (Z.of_nat n) (count s - 1)), (Z.ltb_spec (Z.of_nat n) (count s)),
    (Z.ltb_spec (Z.of_nat n) i), (Z.ltb_spec (Z.of_nat (S n)) (count s));
    try lia; try done.
  all: by replace (Z.of_nat (S n)) with (Z.of_nat n + 1) by lia.
Qed.

Lemma wf_alarm_list_NoDup s : wf s -> NoDup (alarm_list s).
Proof.
  intros W. apply NoDup_alt. intros n m x Hn Hm.
  pose proof (wf_count s W) as Hcnt.
  rewrite alarm_list_lookup in Hn, Hm by done.
  destruct (Z.ltb_spec (Z.of_nat n) (count s)); [|discriminate].
  destruct (Z.ltb_spec (Z.of_nat m) (count s)); [|discriminate].
  destruct (wf_slot s W (Z.of_nat n)) as (p & a & A & _); [lia|].
  apply alarm_at_inv in A as [D _].
  assert (x = Some p) by congruence. subst x.
  assert (Z.of_nat n = Z.of_nat m); [|lia].
  apply (wf_slots_inj s W _ _ p); auto; lia.
Qed.

Lemma wf_alarm_list_Some s x : wf s -> x ∈ alarm_list s -> exists p, x = Some p /\ member p s.
Proof.
  intros W Hx. apply list_elem_of_lookup in Hx as [n Hn].
  pose proof (wf_count s W) as Hcnt.
  rewrite alarm_list_lookup in Hn by done.
  destruct (Z.ltb_spec (Z.of_nat n) (count s)); [|discriminate].
  destruct (wf_slot s W (Z.of_nat n)) as (p & a & A & _); [lia|].
  apply alarm_at_inv in A as [D _].
  exists p. split; [congruence|]. exists (Z.of_nat n). split; [lia|done].
Qed.

(** ** Arming *)

Lemma comparator_hw_arm w h : 0 <= w < UINT64_MOD -> comparator (hw_arm w h) = w.
Proof. intros Hw. unfold comparator. simpl. by apply latch_join. Qed.

Lemma head_deadline_range s : wf s -> 0 < count s -> 0 <= deadline s 0 < UINT64_MOD.
Proof.
  intros W Hc. destruct (wf_slot s W 0) as (p & a & A & _); [lia|].
  unfold deadline. rewrite A. apply alarm_at_inv in A as [_ O].
  by apply (wf_when s W p).
Qed.

Lemma armed_ok_ext s s' :
  armed_ok s -> count s' = count s -> deadline s' 0 = deadline s 0 ->
  alarm_en (hw s') = alarm_en (hw s) -> comparator (hw s') = comparator (hw s) ->
  armed_ok s'.
Proof.
  intros [H1 H2] E1 E2 E3 E4. unfold armed_ok. by rewrite E1, E2, E3, E4.
Qed.

Lemma armed_after_load s s' : wf s -> load_next_alarm s = Some s' -> armed_ok s'.
Proof.
  intros W E.
  destruct (load_next_alarm_ok s W) as (s2 & E2 & Hc & Hd & Ho & _ & Hh & _).
  assert (s2 = s') by congruence. subst s2.
  unfold armed_ok. rewrite Hc, Hh, (deadline_ext _ _ _ Hd Ho).
  destruct (Z.ltb_spec 0 (count s)) as [Hpos|Hz].
  - split; [by split|]. intros _. apply comparator_hw_arm. by apply head_deadline_range.
  - split; [split; [discriminate|lia]|lia].
Qed.

Lemma insert_keeps_armed s s' alarm a k :
  wf s -> objs s !! alarm = Some a -> heap_index a = NOT_PENDING ->
  count s < ALARM_HEAP_MAX_ELEMENTS -> 0 <= k <= count s ->
  insert_post s alarm k s' -> hw s' = insert_hw k (when a) (hw s) ->
  armed_ok s -> armed_ok s'.
Proof.
  intros W Ha Hnp Hc Hk P Hh [A1 A2].
  pose proof (insert_post_deadline s s' alarm a k W Ha Hnp Hc Hk P 0) as Hd.
  pose proof (wf_count s W) as Hcnt.
  destruct P as (Hc' & _). unfold armed_ok. rewrite Hc', Hh, Hd by lia.
  unfold insert_hw. destruct (Z.eqb_spec k 0) as [->|Hk0].
  - split; [split; [lia|done]|]. intros _.
    destruct (Z.ltb_spec 0 0); [lia|]. simpl Z.eqb. cbv iota.
    apply comparator_hw_arm. by apply (wf_when s W alarm).
  - destruct (Z.ltb_spec 0 k); [|lia].
    split; [split; [lia|intros _; apply A1; lia]|]. intros _. apply A2. lia.
Qed.

(** ** The branches of [alarm_set_callback_helper] *)

Lemma helper_noop s self a handler0 arg :
  objs s !! self = Some a -> is_none handler0 = false ->
  heap_index a <> NOT_PENDING \/ count s = ALARM_HEAP_MAX_ELEMENTS ->
  alarm_set_callback_helper self handler0 arg s =
    Some (with_objs (<[self := set_handlers self handler0 arg a]> (objs s)) s,
          if heap_index a =? NOT_PENDING then MemoryError else Ok tt).
Proof.
  intros Ha Hh Hor. rewrite (helper_prefix s self a handler0 arg Ha). cbv zeta.
  rewrite Hh. change (heap_index (set_handlers self handler0 arg a)) with (heap_index a).
  destruct (Z.eqb_spec (heap_index a) NOT_PENDING) as [Hn|Hn]; [|done].
  destruct Hor as [|Hc]; [done|].
  change (count (with_objs _ s)) with (count s). by rewrite Hc, Z.eqb_refl.
Qed.

Lemma helper_activate s self a handler0 arg :
  wf s -> objs s !! self = Some a -> heap_index a = NOT_PENDING ->
  count s < ALARM_HEAP_MAX_ELEMENTS -> is_none handler0 = false ->
  exists k s',
    let a1 := with_when (to_uint64 (counter (hw s) + interval a))
                (set_handlers self handler0 arg a) in
    let s1 := with_objs (<[self := a1]> (objs s)) (reg_write W_update s) in
    alarm_set_callback_helper self handler0 arg s = Some (s', Ok tt) /\
    wf s1 /\ (ordered s -> ordered s1) /\
    insert_alarm self s1 = Some s' /\
    0 <= k <= count s /\ insert_post s1 self k s' /\
    (forall j, 0 <= j < k -> deadline s1 j < when a1) /\
    (k < count s -> when a1 <= deadline s1 k) /\
    irq_queue s' = irq_queue s /\
    hw s' = insert_hw k (when a1) (hw_apply W_update (hw s)) /\
    wf s' /\ (ordered s1 -> ordered s').
Proof.
  intros W Ha Hnp Hc Hh.
  set (a0 := set_handlers self handler0 arg a).
  set (s0 := with_objs (<[self := a0]> (objs s)) s).
  destruct (handler_write_ok s self a a0 W Ha eq_refl eq_refl) as [W0 O0].
  fold s0 in W0, O0.
  assert (Ha0 : objs s0 !! self = Some a0) by apply lookup_insert_eq.
  set (a1 := with_when (to_uint64 (counter (hw s) + interval a)) a0).
  set (s1 := with_objs (<[self := a1]> (objs s)) (reg_write W_update s)).
  assert (E1 : set_alarm_when self (interval a) s0 = Some s1).
  { rewrite (set_alarm_when_spec s0 self a0 (interval a) (wf_counter s0 W0) Ha0).
    unfold s1, s0, with_objs, reg_write, with_hw. simpl. by rewrite insert_insert_eq. }
  destruct (set_alarm_when_ok s0 self a0 (interval a) W0 Ha0 Hnp)
    as (s1' & E1' & _ & _ & _ & _ & _ & W1 & O1).
  assert (s1' = s1) by congruence. subst s1'.
  assert (Ha1 : objs s1 !! self = Some a1) by apply lookup_insert_eq.
  destruct (insert_alarm_ok s1 self a1 W1 Ha1 Hnp Hc)
    as (k & s' & E2 & Hk & Hlt & Hge & P & Hq & Hhw & W' & O').
  exists k, s'. cbv zeta. fold a0 a1 s1.
  split.
  { rewrite (helper_prefix s self a handler0 arg Ha). cbv zeta. fold a0 s0. rewrite Hh.
    change (heap_index a0) with (heap_index a). rewrite Hnp, Z.eqb_refl.
    change (count s0) with (count s).
    destruct (Z.eqb_spec (count s) ALARM_HEAP_MAX_ELEMENTS); [lia|].
    change (interval a0) with (interval a). by rewrite E1, E2. }
  repeat (split; [first [done | auto]|]). done.
Qed.

Lemma helper_deactivate s self a arg :
  wf s -> objs s !! self = Some a ->
  let a0 := set_handlers self mp_const_none arg a in
  let s0 := with_objs (<[self := a0]> (objs s)) s in
  wf s0 /\
  (heap_index a = NOT_PENDING ->
     alarm_set_callback_helper self mp_const_none arg s = Some (s0, Ok tt)) /\
  (heap_index a <> NOT_PENDING ->
     exists s', alarm_set_callback_helper self mp_const_none arg s = Some (s', Ok tt) /\
       0 <= heap_index a < count s /\
       alarm_at (heap_index a) s0 = Some (self, a0) /\
       remove_alarm (heap_index a) s0 = Some s' /\
       remove_post s0 self (heap_index a) s' /\
       irq_queue s' = irq_queue s /\ hw s' = hw s /\ wf s' /\
       (ordered s -> ordered s')).
Proof.
  intros W Ha a0 s0.
  destruct (handler_write_ok s self a a0 W Ha eq_refl eq_refl) as [W0 O0].
  fold s0 in W0, O0.
  assert (Ha0 : objs s0 !! self = Some a0) by apply lookup_insert_eq.
  split; [done|].
  rewrite (helper_prefix s self a mp_const_none arg Ha). cbv zeta. fold a0 s0.
  cbn [is_none]. change (heap_index a0) with (heap_index a).
  split.
  - intros Hn. by rewrite Hn, Z.eqb_refl.
  - intros Hn. destruct (Z.eqb_spec (heap_index a) NOT_PENDING); [done|]. cbn [negb].
    destruct (wf_obj s0 W0 self a0 Ha0) as [|[Hr Hd]]; [done|].
    change (heap_index a0) with (heap_index a) in Hr, Hd.
    destruct (remove_alarm_ok s0 (heap_index a) W0 Hr)
      as (v & b & s' & A & _ & E & P & Hq & Hhw & W' & O').
    pose proof (alarm_at_inv _ _ _ _ A) as [D O].
    assert (v = self) by congruence. subst v.
    assert (b = a0) by congruence. subst b.
    exists s'. rewrite E. repeat (split; [first [done | auto]|]). auto.
Qed.

(** ** The steps of [timer_alarm_isr] *)

Lemma timer_alarm_isr_steps s :
  wf s -> 0 < count s ->
  exists alarm a s1 s2 s3,
    alarm_at 0 s = Some (alarm, a) /\ heap_index a = 0 /\
    (* pop *)
    isr_pop (reg_write W_int_clr_t0 s) = Some (alarm, s1) /\
    remove_post s alarm 0 s1 /\ wf s1 /\ (ordered s -> ordered s1) /\
    objs s1 !! alarm = Some (with_heap_index NOT_PENDING a) /\
    irq_queue s1 = irq_queue s /\ hw s1 = hw_apply W_int_clr_t0 (hw s) /\
    (* put back *)
    (if periodic a then
       exists k,
         let a2 := with_when (to_uint64 (counter (hw s) + interval a))
                     (with_heap_index NOT_PENDING a) in
         let sw := with_objs (<[alarm := a2]> (objs s1)) (reg_write W_update s1) in
         wf sw /\ insert_alarm alarm sw = Some s2 /\
         0 <= k <= count s - 1 /\ insert_post sw alarm k s2
     else s2 = s1) /\
    wf s2 /\ (ordered s -> ordered s2) /\ irq_queue s2 = irq_queue s /\
    (* arm and hand over *)
    load_next_alarm s2 = Some s3 /\
    count s3 = count s2 /\ data s3 = data s2 /\ objs s3 = objs s2 /\
    irq_queue s3 = irq_queue s /\ wf s3 /\ armed_ok s3 /\
    timer_alarm_isr s = Some (mp_irq_queue_interrupt alarm s3).
Proof.
  intros W Hc.
  set (s0 := reg_write W_int_clr_t0 s).
  destruct (isr_pop_ok s0) as (alarm & a & s1 & A & I & E & P & Hq & Hh & W1 & O1 & D);
    [by apply wf_reg_write|done|].
  change (alarm_at 0 s0) with (alarm_at 0 s) in A.
  change (remove_post s alarm 0 s1) in P.
  assert (O1' : ordered s -> ordered s1).
  { intros O. apply O1. by apply ordered_reg_write. }
  pose proof (wf_count s W) as Hcs.
  assert (Hc1 : count s1 = count s - 1) by (by destruct P).
  set (a1 := with_heap_index NOT_PENDING a) in *.
  assert (Hput : exists s2,
    (if periodic a then
       do sw <- set_alarm_when alarm (interval a) s1; insert_alarm alarm sw
     else Some s1) = Some s2 /\
    (if periodic a then
       exists k,
         let a2 := with_when (to_uint64 (counter (hw s) + interval a)) a1 in
         let sw := with_objs (<[alarm := a2]> (objs s1)) (reg_write W_update s1) in
         wf sw /\ insert_alarm alarm sw = Some s2 /\
         0 <= k <= count s - 1 /\ insert_post sw alarm k s2
     else s2 = s1) /\
    wf s2 /\ (ordered s -> ordered s2) /\ irq_queue s2 = irq_queue s).
  { destruct (periodic a).
    - rewrite (set_alarm_when_spec s1 alarm a1 (interval a) (wf_counter s1 W1) D).
      destruct (set_alarm_when_ok s1 alarm a1 (interval a) W1 D eq_refl)
        as (sw & Ew & Hcw & _ & _ & Hqw & _ & Ww & Ow).
      rewrite (set_alarm_when_spec s1 alarm a1 (interval a) (wf_counter s1 W1) D) in Ew.
      injection Ew as Ew.
      assert (Hctr : counter (hw s1) = counter (hw s)) by (by rewrite Hh).
      rewrite Hctr in *.
      set (a2 := with_when (to_uint64 (counter (hw s) + interval a)) a1) in *.
      set (sw' := with_objs (<[alarm := a2]> (objs s1)) (reg_write W_update s1)) in *.
      subst sw.
      destruct (insert_alarm_ok sw' alarm a2 Ww)
        as (k & s2 & E2 & Hk & _ & _ & P2 & Hq2 & _ & W2 & O2).
      { apply lookup_insert_eq. }
      { reflexivity. }
      { change (count sw') with (count s1). lia. }
      exists s2. split; [exact E2|]. split.
      { exists k. cbv zeta. fold a2 sw'. change (count sw') with (count s1) in Hk.
        split; [exact Ww|]. split; [exact E2|]. split; [lia|exact P2]. }
      split; [done|]. split; [auto|].
      rewrite Hq2. change (irq_queue sw') with (irq_queue s1). by rewrite Hq.
    - exists s1. split; [done|]. split; [done|]. split; [done|]. split; [auto|done]. }
  destruct Hput as (s2 & Eput & Hper & W2 & O2 & Hq2).
  destruct (load_next_alarm_ok s2 W2) as (s3 & E3 & Hc3 & Hd3 & Ho3 & Hq3 & _ & W3 & _).
  exists alarm, a, s1, s2, s3.
  split; [exact A|]. split; [exact I|]. split; [exact E|]. split; [exact P|].
  split; [exact W1|]. split; [exact O1'|]. split; [exact D|]. split; [exact Hq|].
  split; [exact Hh|]. split; [exact Hper|]. split; [exact W2|]. split; [exact O2|].
  split; [exact Hq2|]. split; [exact E3|]. split; [exact Hc3|]. split; [exact Hd3|].
  split; [exact Ho3|]. split; [congruence|]. split; [exact W3|].
  split; [by apply (armed_after_load s2)|].
  unfold timer_alarm_isr. fold s0. change (count s0) with (count s).
  destruct (Z.ltb_spec 0 (count s)); [|lia].
  rewrite E, D.
  change (periodic a1) with (periodic a). change (interval a1) with (interval a).
  destruct (periodic a).
  - destruct (set_alarm_when alarm (interval a) s1) as [sw|]; [|discriminate].
    by rewrite Eput, E3.
  - injection Eput as ->. by rewrite E3.
Qed.

(** ** What the operations keep *)

Lemma keeps_refl s : keeps s s.
Proof. split; [|done]. intros p a Ha. by exists a. Qed.

Lemma keeps_trans s1 s2 s3 : keeps s1 s2 -> keeps s2 s3 -> keeps s1 s3.
Proof.
  intros [K1 T1] [K2 T2]. split; [|auto].
  intros p a Ha. destruct (K1 p a Ha) as (a' & Ha' & I1 & P1).
  destruct (K2 p a' Ha') as (a'' & Ha'' & I2 & P2).
  exists a''. split; [done|]. split; congruence.
Qed.

Lemma keeps_write s s' p a' :
  count s' = count s -> data s' = data s -> objs s' = <[p := a']> (objs s) ->
  (forall a, objs s !! p = Some a ->
     interval a' = interval a /\ periodic a' = periodic a) ->
  keeps s s'.
Proof.
  intros Hc Hd Ho Hsame. split.
  - intros q b Hb. rewrite Ho, lookup_insert.
    destruct (decide (p = q)) as [->|]; [|by exists b].
    exists a'. split; [done|]. by apply Hsame.
  - intros T j Hj. rewrite (data_get_ext _ _ _ Hd). apply T. by rewrite <- Hc.
Qed.

Lemma keeps_ext s s' :
  count s' = count s -> data s' = data s -> objs s' = objs s -> keeps s s'.
Proof.
  intros Hc Hd Ho. split.
  - intros q b Hb. exists b. by rewrite Ho.
  - intros T j Hj. rewrite (data_get_ext _ _ _ Hd). apply T. by rewrite <- Hc.
Qed.

Lemma keeps_insert_post s s' alarm k :
  0 <= k <= count s -> insert_post s alarm k s' -> keeps s s'.
Proof.
  intros Hk (Hc' & _ & Hd' & Ho'). split.
  - intros q b Hb. rewrite Ho', Hb. simpl. eexists. split; [reflexivity|].
    unfold insert_renumber. destruct (decide (q = alarm)); [done|].
    by destruct ((k <=? heap_index b) && (heap_index b <? count s)).
  - intros T j Hj. rewrite Hd'. rewrite Hc' in Hj.
    destruct (Z.ltb_spec j k); [lia|]. destruct (Z.eqb_spec j k); [lia|].
    destruct (Z.leb_spec j (count s)); [lia|]. apply T. lia.
Qed.

Lemma keeps_remove_post s s' victim i :
  0 <= i < count s -> remove_post s victim i s' -> keeps s s'.
Proof.
  intros Hi (Hc' & _ & Hd' & Ho'). split.
  - intros q b Hb. rewrite Ho', Hb. simpl. eexists. split; [reflexivity|].
    unfold remove_renumber. destruct (decide (q = victim)); [done|].
    by destruct ((i <? heap_index b) && (heap_index b <? count s)).
  - intros T j Hj. rewrite Hd'. rewrite Hc' in Hj.
    destruct (Z.ltb_spec j i); [lia|].
    destruct (Z.ltb_spec j (count s - 1)); [lia|].
    destruct (Z.eqb_spec j (count s - 1)); [done|]. apply T. lia.
Qed.

Lemma keeps_helper s self a handler0 arg s' r :
  wf s -> objs s !! self = Some a ->
  alarm_set_callback_helper self handler0 arg s = Some (s', r) -> keeps s s'.
Proof.
  intros W Ha E.
  set (a0 := set_handlers self handler0 arg a).
  assert (K0 : keeps s (with_objs (<[self := a0]> (objs s)) s)).
  { apply (keeps_write _ _ self a0); try done.
    intros b Hb. assert (b = a) by congruence. by subst b. }
  destruct (is_none handler0) eqn:Hh.
  - destruct handler0; try discriminate.
    destruct (helper_deactivate s self a arg W Ha) as (W0 & Hnp & Hp).
    destruct (Z.eq_dec (heap_index a) NOT_PENDING) as [Hn|Hn].
    + rewrite (Hnp Hn) in E. by injection E as <- _.
    + destruct (Hp Hn) as (s2 & E2 & Hr & _ & _ & P & _).
      rewrite E2 in E. injection E as <- _.
      eapply keeps_trans; [exact K0|]. by apply (keeps_remove_post _ _ self (heap_index a)).
  - pose proof (wf_count s W) as Hcnt.
    destruct (Z.eq_dec (heap_index a) NOT_PENDING) as [Hn|Hn];
      [destruct (Z.eq_dec (count s) ALARM_HEAP_MAX_ELEMENTS) as [Hc|Hc]|].
    + rewrite (helper_noop s self a handler0 arg Ha Hh (or_intror Hc)) in E.
      by injection E as <- _.
    + destruct (helper_activate s self a handler0 arg W Ha Hn ltac:(lia) Hh)
        as (k & s2 & E2 & _ & _ & _ & Hk & P & _).
      cbv zeta in *. rewrite E2 in E. injection E as <- _.
      eapply keeps_trans;
        [|eapply keeps_insert_post with (alarm := self) (k := k); [|exact P]; exact Hk].
      apply (keeps_write _ _ self
               (with_when (to_uint64 (counter (hw s) + interval a)) a0)); try done.
      intros b Hb. assert (b = a) by congruence. by subst b.
    + rewrite (helper_noop s self a handler0 arg Ha Hh (or_introl Hn)) in E.
      by injection E as <- _.
Qed.

Lemma keeps_delete s self s' :
  wf s -> alarm_delete self s = Some s' -> keeps s s'.
Proof.
  intros W E. unfold alarm_delete, deref in E.
  destruct (objs s !! self) as [a|] eqn:Ha; [|discriminate].
  destruct (Z.eqb_spec (heap_index a) NOT_PENDING) as [Hn|Hn]; cbn [negb] in E.
  - injection E as <-. apply keeps_refl.
  - destruct (wf_obj s W self a Ha) as [|[Hr _]]; [done|].
    destruct (remove_alarm_ok s (heap_index a) W Hr) as (v & b & s2 & _ & _ & E2 & P & _).
    assert (s2 = s') by congruence. subst s2.
    by apply (keeps_remove_post _ _ v (heap_index a)).
Qed.

Lemma keeps_isr s s' : wf s -> timer_alarm_isr s = Some s' -> keeps s s'.
Proof.
  intros W E. destruct (Z.lt_ge_cases 0 (count s)) as [Hc|Hc].
  - destruct (timer_alarm_isr_steps s W Hc)
      as (alarm & a & s1 & s2 & s3 & A & _ & _ & P1 & W1 & _ & D1 & _ & _ & Hper & _ & _
          & _ & _ & Hc3 & Hd3 & Ho3 & _ & _ & _ & E').
    rewrite E' in E. injection E as <-.
    assert (K1 : keeps s s1) by (apply (keeps_remove_post _ _ alarm 0); [lia|done]).
    assert (K2 : keeps s1 s2).
    { destruct (periodic a).
      - destruct Hper as (k & _ & _ & Hk & P2). cbv zeta in P2.
        assert (Hc1 : count s1 = count s - 1) by (by destruct P1).
        eapply keeps_trans; [|apply (keeps_insert_post _ _ alarm k);
                               [|exact P2]; simpl; lia].
        eapply keeps_write; try reflexivity.
        intros b Hb. assert (b = with_heap_index NOT_PENDING a) by congruence.
        by subst b.
      - subst s2. apply keeps_refl. }
    eapply keeps_trans; [exact K1|]. eapply keeps_trans; [exact K2|].
    by apply keeps_ext.
  - rewrite timer_alarm_isr_idle in E by done. injection E as <-. by apply keeps_ext.
Qed.

Lemma keeps_make_new clk args s s' r :
  wf s -> alarm_make_new clk args s = Some (s', r) -> keeps s s'.
Proof.
  intros W E. unfold alarm_make_new in E.
  destruct (alarm_make_new_clocks clk args) as [clocks| |];
    [|injection E as <- _; apply keeps_refl|injection E as <- _; apply keeps_refl].
  pose proof (m_new_obj_fresh s) as Hf.
  unfold m_new_obj in *. cbn [fst] in Hf.
  set (p := fresh (dom (objs s))) in *.
  erewrite obj_update_some in E by (simpl; apply lookup_insert_eq).
  set (a := mk_alarm _ _ _ _ _ _) in E.
  set (s1 := with_objs _ _) in E.
  assert (Hs1 : s1 = with_objs (<[p := a]> (objs s)) s).
  { unfold s1, with_objs. simpl. by rewrite insert_insert_eq. }
  assert (Hw : 0 <= when a < UINT64_MOD) by (by rewrite UINT64_MOD_val).
  assert (W1 : wf s1) by (rewrite Hs1; by apply alloc_wf).
  assert (Ha1 : objs s1 !! p = Some a) by (rewrite Hs1; apply lookup_insert_eq).
  destruct (alarm_set_callback_helper p (a_handler args) (a_arg args) s1)
    as [[s2 r2]|] eqn:E2; [|discriminate].
  assert (s2 = s') by (destruct r2; congruence). subst s2.
  eapply keeps_trans; [|exact (keeps_helper s1 p a _ _ s' r2 W1 Ha1 E2)].
  rewrite Hs1. apply (keeps_write _ _ p a); try done.
  intros b Hb. congruence.
Qed.

Lemma keeps_step clk o s s' : wf s -> step clk o s = Some s' -> keeps s s'.
Proof.
  intros W E. destruct o as [args|self h arg|self| |c]; simpl in E.
  - destruct (alarm_make_new clk args s) as [[s2 r]|] eqn:E2; [|discriminate].
    injection E as <-. by apply (keeps_make_new clk args s s2 r).
  - unfold alarm_callback in E.
    destruct (alarm_set_callback_helper self h arg s) as [[s2 r]|] eqn:E2; [|discriminate].
    injection E as <-.
    destruct (objs s !! self) as [a|] eqn:Ha.
    + by apply (keeps_helper s self a h arg s2 r).
    + unfold alarm_set_callback_helper, obj_update, deref in E2. by rewrite Ha in E2.
  - by apply (keeps_delete s self).
  - by apply keeps_isr.
  - injection E as <-. by apply keeps_ext.
Qed.

Lemma tail_null_init h : tail_null (init_alarm_heap h).
Proof.
  intros j Hj. unfold data_get. simpl in Hj. unfold ALARM_HEAP_MAX_ELEMENTS in Hj.
  rewrite (proj2 (in_array_spec j)) by lia. cbn [data init_alarm_heap].
  apply lookup_replicate_2. lia.
Qed.

Lemma insert_renumber_fields k c alarm p b :
  when (insert_renumber k c alarm p b) = when b /\
  interval (insert_renumber k c alarm p b) = interval b /\
  handler (insert_renumber k c alarm p b) = handler b /\
  handler_arg (insert_renumber k c alarm p b) = handler_arg b /\
  periodic (insert_renumber k c alarm p b) = periodic b.
Proof.
  unfold insert_renumber. destruct (decide (p = alarm)); [done|].
  by destruct ((k <=? heap_index b) && (heap_index b <? c)).
Qed.

Lemma remove_renumber_fields i c victim p b :
  when (remove_renumber i c victim p b) = when b /\
  interval (remove_renumber i c victim p b) = interval b /\
  handler (remove_renumber i c victim p b) = handler b /\
  handler_arg (remove_renumber i c victim p b) = handler_arg b /\
  periodic (remove_renumber i c victim p b) = periodic b.
Proof.
  unfold remove_renumber. destruct (decide (p = victim)); [done|].
  by destruct ((i <? heap_index b) && (heap_index b <? c)).
Qed.

(** ** X1 to X3: insertion and removal on the list *)

(** X1.  [insert_alarm] of an alarm that is not in the list, with a free slot
    left, returns; the new list is the old one with the alarm put in at one
    index, nothing lost and nothing twice; of every object only [heap_index]
    may have been written. *)
Theorem insert_alarm_as_list s alarm a :
  wf s -> objs s !! alarm = Some a -> heap_index a = NOT_PENDING ->
  count s < ALARM_HEAP_MAX_ELEMENTS ->
  exists k s',
    insert_alarm alarm s = Some s' /\ (k <= length (alarm_list s))%nat /\
    alarm_list s' = take k (alarm_list s) ++ Some alarm :: drop k (alarm_list s) /\
    NoDup (alarm_list s') /\
    (forall p b, objs s !! p = Some b ->
       exists b', objs s' !! p = Some b' /\
         when b' = when b /\ interval b' = interval b /\ handler b' = handler b /\
         handler_arg b' = handler_arg b /\ periodic b' = periodic b) /\
    (forall p, objs s !! p = None -> objs s' !! p = None).
Proof.
  intros W Ha Hnp Hc.
  destruct (insert_alarm_ok s alarm a W Ha Hnp Hc)
    as (k & s' & E & Hk & _ & _ & P & _ & _ & W' & _).
  exists (Z.to_nat k), s'. split; [done|].
  split; [rewrite alarm_list_length by done; lia|].
  split; [by apply insert_post_list|]. split; [by apply wf_alarm_list_NoDup|].
  destruct P as (_ & _ & _ & Ho). split.
  - intros p b Hb. rewrite Ho, Hb. simpl. eexists. split; [reflexivity|].
    apply insert_renumber_fields.
  - intros p Hp. by rewrite Ho, Hp.
Qed.

Lemma insert_alarm_as_list_witness :
  exists k s',
    insert_alarm 0%N (after ops_tie) = Some s' /\ (k <= length (alarm_list (after ops_tie)))%nat /\
    alarm_list s' =
      take k (alarm_list (after ops_tie)) ++ Some 0%N :: drop k (alarm_list (after ops_tie)) /\
    NoDup (alarm_list s') /\
    (forall p b, objs (after ops_tie) !! p = Some b ->
       exists b', objs s' !! p = Some b' /\
         when b' = when b /\ interval b' = interval b /\ handler b' = handler b /\
         handler_arg b' = handler_arg b /\ periodic b' = periodic b) /\
    (forall p, objs (after ops_tie) !! p = None -> objs s' !! p = None).
Proof.
  apply (insert_alarm_as_list (after ops_tie) 0%N
           (mk_alarm 3000 3000 NOT_PENDING hnd (mp_obj_alarm 0%N) false)).
  - apply wfb_sound. vm_compute. reflexivity.
  - vm_compute. reflexivity.
  - reflexivity.
  - vm_compute. reflexivity.
Defined.

(** X2.  [remove_alarm] at an index below [count] returns; the new list is
    the old one without the entry at that index, the others in their order;
    the slot that became free holds NULL; the removed alarm has the sentinel
    and of every object only [heap_index] may have been written. *)
Theorem remove_alarm_as_list s i :
  wf s -> 0 <= i < count s ->
  exists victim a s',
    alarm_at i s = Some (victim, a) /\ remove_alarm i s = Some s' /\
    alarm_list s' = delete (Z.to_nat i) (alarm_list s) /\
    data_get (count s - 1) s' = Some None /\
    objs s' !! victim = Some (with_heap_index NOT_PENDING a) /\
    (forall p b, objs s !! p = Some b ->
       exists b', objs s' !! p = Some b' /\
         when b' = when b /\ interval b' = interval b /\ handler b' = handler b /\
         handler_arg b' = handler_arg b /\ periodic b' = periodic b) /\
    (forall p, objs s !! p = None -> objs s' !! p = None).
Proof.
  intros W Hi.
  destruct (remove_alarm_ok s i W Hi) as (v & a & s' & A & _ & E & P & _ & _ & W' & _).
  exists v, a, s'. split; [done|]. split; [done|].
  split; [by apply (remove_post_list s s' v)|].
  split; [|split; [by apply (remove_post_victim s s' v a i)|]].
  - destruct P as (_ & _ & Hd & _). rewrite Hd.
    destruct (Z.ltb_spec (count s - 1) i); [lia|].
    destruct (Z.ltb_spec (count s - 1) (count s - 1)); [lia|].
    by rewrite Z.eqb_refl.
  - destruct P as (_ & _ & _ & Ho). split.
    + intros p b Hb. rewrite Ho, Hb. simpl. eexists. split; [reflexivity|].
      apply remove_renumber_fields.
    + intros p Hp. by rewrite Ho, Hp.
Qed.

Lemma remove_alarm_as_list_witness :
  exists victim a s',
    alarm_at 0 (after ops_AB) = Some (victim, a) /\
    remove_alarm 0 (after ops_AB) = Some s' /\
    alarm_list s' = delete (Z.to_nat 0) (alarm_list (after ops_AB)) /\
    data_get (count (after ops_AB) - 1) s' = Some None /\
    objs s' !! victim = Some (with_heap_index NOT_PENDING a) /\
    (forall p b, objs (after ops_AB) !! p = Some b ->
       exists b', objs s' !! p = Some b' /\
         when b' = when b /\ interval b' = interval b /\ handler b' = handler b /\
         handler_arg b' = handler_arg b /\ periodic b' = periodic b) /\
    (forall p, objs (after ops_AB) !! p = None -> objs s' !! p = None).
Proof.
  apply (remove_alarm_as_list (after ops_AB) 0).
  - apply wfb_sound. vm_compute. reflexivity.
  - vm_compute. split; [discriminate|reflexivity].
Defined.

(** X3.  Inserting an alarm and then removing it at the index it was given
    brings back the objects, [count] and the list as they were. *)
Theorem insert_then_remove s alarm a :
  wf s -> objs s !! alarm = Some a -> heap_index a = NOT_PENDING ->
  count s < ALARM_HEAP_MAX_ELEMENTS ->
  exists s1 a1 s2,
    insert_alarm alarm s = Some s1 /\ objs s1 !! alarm = Some a1 /\
    remove_alarm (heap_index a1) s1 = Some s2 /\
    objs s2 = objs s /\ count s2 = count s /\ alarm_list s2 = alarm_list s /\
    irq_queue s2 = irq_queue s.
Proof.
  intros W Ha Hnp Hc.
  pose proof (wf_count s W) as Hcnt. unfold ALARM_HEAP_MAX_ELEMENTS in *.
  destruct (insert_alarm_ok s alarm a W Ha Hnp Hc)
    as (k & s1 & E1 & Hk & _ & _ & P1 & Hq1 & _ & W1 & _).
  pose proof P1 as (Hc1 & _ & Hd1 & Ho1).
  assert (Ha1 : objs s1 !! alarm = Some (with_heap_index k a)).
  { rewrite Ho1, Ha. simpl. unfold insert_renumber. by rewrite decide_True. }
  destruct (remove_alarm_ok s1 k W1) as (v & b & s2 & A & _ & E2 & P2 & Hq2 & _ & _);
    [lia|].
  pose proof (alarm_at_inv _ _ _ _ A) as [D _].
  assert (v = alarm).
  { rewrite Hd1 in D. destruct (Z.ltb_spec k k); [lia|].
    rewrite Z.eqb_refl in D. congruence. }
  subst v. pose proof P2 as (Hc2 & _ & Hd2 & Ho2).
  exists s1, (with_heap_index k a), s2.
  split; [done|]. split; [done|]. split; [exact E2|].
  split; [|split; [lia|split; [|congruence]]].
  - apply map_eq. intros p. rewrite Ho2, Ho1.
    destruct (objs s !! p) as [c|] eqn:Hp; [|done]. simpl. f_equal.
    unfold remove_renumber, insert_renumber.
    destruct (decide (p = alarm)) as [->|Hne].
    { assert (c = a) by congruence. subst c.
      destruct a. simpl in Hnp. subst. reflexivity. }
    rewrite Hc1.
    destruct (wf_obj s W p c Hp) as [Hn|[Hr _]].
    + rewrite NOT_PENDING_val in Hn.
      destruct (Z.leb_spec k (heap_index c)), (Z.ltb_spec (heap_index c) (count s));
        simpl; try lia.
      destruct (Z.ltb_spec k (heap_index c)), (Z.ltb_spec (heap_index c) (count s + 1));
        simpl; try lia; done.
    + destruct (Z.leb_spec k (heap_index c)), (Z.ltb_spec (heap_index c) (count s));
        simpl; try lia.
      * destruct (Z.ltb_spec k (heap_index c + 1)),
          (Z.ltb_spec (heap_index c + 1) (count s + 1)); simpl; try lia.
        replace (heap_index c + 1 - 1) with (heap_index c) by lia.
        by destruct c.
      * destruct (Z.ltb_spec k (heap_index c)); simpl; [lia|done].
  - rewrite (remove_post_list s1 s2 alarm k W1 ltac:(lia) P2).
    rewrite (insert_post_list s s1 alarm k W Hk Hc P1).
    assert (Hlen : length (take (Z.to_nat k) (alarm_list s)) = Z.to_nat k).
    { rewrite length_take, alarm_list_length by done. lia. }
    rewrite <- Hlen at 1. rewrite delete_middle. apply take_drop.
Qed.

Lemma insert_then_remove_witness :
  exists s1 a1 s2,
    insert_alarm 0%N (after ops_tie) = Some s1 /\ objs s1 !! 0%N = Some a1 /\
    remove_alarm (heap_index a1) s1 = Some s2 /\
    objs s2 = objs (after ops_tie) /\ count s2 = count (after ops_tie) /\
    alarm_list s2 = alarm_list (after ops_tie) /\
    irq_queue s2 = irq_queue (after ops_tie).
Proof.
  apply (insert_then_remove (after ops_tie) 0%N
           (mk_alarm 3000 3000 NOT_PENDING hnd (mp_obj_alarm 0%N) false)).
  - apply wfb_sound. vm_compute. reflexivity.
  - vm_compute. reflexivity.
  - reflexivity.
  - vm_compute. reflexivity.
Defined.

(** ** X4 and X5: activation and deactivation through [callback] *)

(** X4.  [alarm_set_callback_helper] with a handler other than none, on an
    alarm that is not in the list while fewer than 16 are, returns without an
    exception: the alarm is in the list at one index [k], with deadline
    (counter + interval) modulo 2^64, the given handler and the argument (the
    alarm itself when none was given); nothing is queued.  Into an empty list
    it goes at index 0; at index 0 the comparator is enabled and set to the
    new deadline; elsewhere the only register write is the counter latch. *)
Theorem activate_success s self a handler0 arg :
  wf s -> objs s !! self = Some a -> heap_index a = NOT_PENDING ->
  count s < ALARM_HEAP_MAX_ELEMENTS -> is_none handler0 = false ->
  exists k s',
    alarm_set_callback_helper self handler0 arg s = Some (s', Ok tt) /\
    count s' = count s + 1 /\ 0 <= k <= count s /\
    alarm_list s' =
      take (Z.to_nat k) (alarm_list s) ++ Some self :: drop (Z.to_nat k) (alarm_list s) /\
    objs s' !! self =
      Some (mk_alarm (to_uint64 (counter (hw s) + interval a)) (interval a) k handler0
              (if is_none arg then mp_obj_alarm self else arg) (periodic a)) /\
    irq_queue s' = irq_queue s /\
    (count s = 0 -> k = 0) /\
    (k = 0 -> alarm_en (hw s') = true /\
              comparator (hw s') = to_uint64 (counter (hw s) + interval a)) /\
    (k <> 0 -> hw s' = hw_apply W_update (hw s)).
Proof.
  intros W Ha Hnp Hc Hh.
  destruct (helper_activate s self a handler0 arg W Ha Hnp Hc Hh)
    as (k & s' & E & W1 & _ & _ & Hk & P & _ & _ & Hq & Hhw & _).
  cbv zeta in *.
  set (a1 := with_when _ _) in *. set (s1 := with_objs _ _) in *.
  exists k, s'. split; [done|]. split; [by destruct P|]. split; [done|].
  split; [exact (insert_post_list s1 s' self k W1 Hk Hc P)|].
  split; [|split; [done|split; [lia|split]]].
  - destruct P as (_ & _ & _ & Ho). rewrite Ho. unfold s1. simpl.
    rewrite lookup_insert_eq. simpl. unfold insert_renumber. by rewrite decide_True.
  - intros ->. rewrite Hhw. unfold insert_hw. simpl Z.eqb. cbv iota.
    split; [done|]. apply comparator_hw_arm. simpl.
    apply Z.mod_pos_bound. by rewrite UINT64_MOD_val.
  - intros Hk0. rewrite Hhw. unfold insert_hw.
    by destruct (Z.eqb_spec k 0).
Qed.

Lemma activate_success_witness :
  exists k s',
    alarm_set_callback_helper 0%N hnd mp_const_none (after (ops_AB ++ [Op_cancel 0%N; Op_tick 40]))
      = Some (s', Ok tt) /\
    count s' = count (after (ops_AB ++ [Op_cancel 0%N; Op_tick 40])) + 1 /\
    0 <= k <= count (after (ops_AB ++ [Op_cancel 0%N; Op_tick 40])) /\
    alarm_list s' =
      take (Z.to_nat k) (alarm_list (after (ops_AB ++ [Op_cancel 0%N; Op_tick 40])))
        ++ Some 0%N ::
           drop (Z.to_nat k) (alarm_list (after (ops_AB ++ [Op_cancel 0%N; Op_tick 40]))) /\
    objs s' !! 0%N =
      Some (mk_alarm
              (to_uint64 (counter (hw (after (ops_AB ++ [Op_cancel 0%N; Op_tick 40]))) + 5000))
              5000 k hnd (mp_obj_alarm 0%N) false) /\
    irq_queue s' = irq_queue (after (ops_AB ++ [Op_cancel 0%N; Op_tick 40])) /\
    (count (after (ops_AB ++ [Op_cancel 0%N; Op_tick 40])) = 0 -> k = 0) /\
    (k = 0 -> alarm_en (hw s') = true /\
       comparator (hw s') =
         to_uint64 (counter (hw (after (ops_AB ++ [Op_cancel 0%N; Op_tick 40]))) + 5000)) /\
    (k <> 0 ->
       hw s' = hw_apply W_update (hw (after (ops_AB ++ [Op_cancel 0%N; Op_tick 40])))).
Proof.
  apply (activate_success (after (ops_AB ++ [Op_cancel 0%N; Op_tick 40])) 0%N
           (mk_alarm 5000 5000 NOT_PENDING hnd (mp_obj_alarm 0%N) false) hnd mp_const_none).
  - apply wfb_sound. vm_compute. reflexivity.
  - vm_compute. reflexivity.
  - reflexivity.
  - vm_compute. reflexivity.
  - reflexivity.
Defined.

(** X5.  [callback(None)] takes an alarm out of the list as [cancel] does:
    after either call [count], the array, the timer registers and the queue
    are the same, and the objects differ only in the handler fields of the
    alarm, which [callback(None)] has overwritten.  Neither call writes a
    timer register. *)
Theorem deactivate_like_cancel s self a arg :
  wf s -> objs s !! self = Some a ->
  exists s1 a1 s2,
    alarm_delete self s = Some s1 /\ objs s1 !! self = Some a1 /\
    alarm_set_callback_helper self mp_const_none arg s = Some (s2, Ok tt) /\
    count s2 = count s1 /\ data s2 = data s1 /\
    hw s2 = hw s /\ hw s1 = hw s /\
    irq_queue s2 = irq_queue s1 /\
    objs s2 = <[self := set_handlers self mp_const_none arg a1]> (objs s1) /\
    heap_index a1 = NOT_PENDING.
Proof.
  intros W Ha.
  destruct (helper_deactivate s self a arg W Ha) as (W0 & Hnp & Hp).
  set (a0 := set_handlers self mp_const_none arg a) in *.
  set (s0 := with_objs (<[self := a0]> (objs s)) s) in *.
  destruct (Z.eq_dec (heap_index a) NOT_PENDING) as [Hn|Hn].
  - exists s, a, s0. split.
    { unfold alarm_delete, deref. by rewrite Ha, Hn, Z.eqb_refl. }
    split; [done|]. split; [by apply Hnp|]. repeat (split; [reflexivity|]).
    exact Hn.
  - destruct (Hp Hn) as (s2 & E2 & Hr & A0 & _ & P2 & Hq2 & Hh2 & W2 & _).
    destruct (remove_alarm_ok s (heap_index a) W Hr)
      as (v & b & s1 & A & _ & E1 & P1 & Hq1 & Hh1 & W1 & _).
    pose proof (alarm_at_inv _ _ _ _ A) as [D O].
    destruct (wf_obj s W self a Ha) as [|[_ Hd]]; [done|].
    assert (v = self) by congruence. subst v.
    assert (b = a) by congruence. subst b.
    exists s1, (with_heap_index NOT_PENDING a), s2.
    split.
    { unfold alarm_delete, deref. rewrite Ha.
      by destruct (Z.eqb_spec (heap_index a) NOT_PENDING). }
    split; [by apply (remove_post_victim s s1 self a (heap_index a))|].
    split; [done|].
    destruct P1 as (Hc1 & Hl1 & Hd1 & Ho1). destruct P2 as (Hc2 & Hl2 & Hd2 & Ho2).
    split; [by rewrite Hc1, Hc2|].
    split.
    { apply data_ext; [done|done|]. intros j. by rewrite Hd1, Hd2. }
    split; [done|]. split; [done|]. split; [congruence|].
    split; [|reflexivity].
    apply map_eq. intros p. rewrite Ho2, lookup_insert.
    destruct (decide (self = p)) as [<-|Hne].
    + unfold s0. simpl. rewrite lookup_insert_eq. simpl.
      unfold remove_renumber. by rewrite decide_True.
    + rewrite Ho1. unfold s0. simpl. rewrite lookup_insert_ne by done.
      destruct (objs s !! p) as [c|]; [|done]. simpl. f_equal.
Qed.

Lemma deactivate_like_cancel_witness :
  exists s1 a1 s2,
    alarm_delete 0%N (after ops_AB) = Some s1 /\ objs s1 !! 0%N = Some a1 /\
    alarm_set_callback_helper 0%N mp_const_none mp_const_none (after ops_AB)
      = Some (s2, Ok tt) /\
    count s2 = count s1 /\ data s2 = data s1 /\
    hw s2 = hw (after ops_AB) /\ hw s1 = hw (after ops_AB) /\
    irq_queue s2 = irq_queue s1 /\
    objs s2 = <[0%N := set_handlers 0%N mp_const_none mp_const_none a1]> (objs s1) /\
    heap_index a1 = NOT_PENDING.
Proof.
  apply (deactivate_like_cancel (after ops_AB) 0%N
           (mk_alarm 5000 5000 1 hnd (mp_obj_alarm 0%N) false) mp_const_none).
  - apply wfb_sound. vm_compute. reflexivity.
  - vm_compute. reflexivity.
Defined.

(** ** X6 to X8: who programs the comparator *)

Lemma armed_ok_queue alarm s : armed_ok s -> armed_ok (mp_irq_queue_interrupt alarm s).
Proof. intros H. by apply (armed_ok_ext s). Qed.

(** X6.  [timer_alarm_isr] returns in every state that satisfies the
    invariant.  With an empty list it only acknowledges the interrupt: nothing
    is queued and the comparator is left as it was, not disabled.  Otherwise
    it queues exactly the alarm that was at index 0, and on return the
    comparator serves the new list: enabled exactly when the list is not
    empty, and then set to the deadline now at index 0 (whatever it was set
    to before). *)
Theorem isr_rearms s :
  wf s ->
  exists s', timer_alarm_isr s = Some s' /\
    (count s = 0 -> s' = reg_write W_int_clr_t0 s) /\
    (0 < count s ->
       armed_ok s' /\
       exists p a, alarm_at 0 s = Some (p, a) /\
         irq_queue s' = irq_queue s ++ [p] /\
         count s' = (if periodic a then count s else count s - 1)).
Proof.
  intros W. destruct (Z.lt_ge_cases 0 (count s)) as [Hc|Hc].
  - destruct (timer_alarm_isr_steps s W Hc)
      as (alarm & a & s1 & s2 & s3 & A & _ & _ & P1 & _ & _ & _ & _ & _ & Hper & _ & _
          & _ & _ & Hc3 & _ & _ & Hq3 & _ & Arm & E).
    eexists. split; [exact E|]. split; [lia|]. intros _.
    split; [by apply armed_ok_queue|].
    exists alarm, a. split; [done|]. split; [simpl; by rewrite Hq3|].
    simpl. rewrite Hc3. destruct P1 as (Hc1 & _).
    destruct (periodic a).
    + destruct Hper as (k & _ & _ & _ & (Hc2 & _)). rewrite Hc2. simpl. lia.
    + by subst s2.
  - rewrite timer_alarm_isr_idle by done. eexists. split; [reflexivity|].
    split; [done|lia].
Qed.

Lemma isr_rearms_witness :
  exists s', timer_alarm_isr (after (ops_AB ++ [Op_cancel 1%N])) = Some s' /\
    (count (after (ops_AB ++ [Op_cancel 1%N])) = 0 ->
       s' = reg_write W_int_clr_t0 (after (ops_AB ++ [Op_cancel 1%N]))) /\
    (0 < count (after (ops_AB ++ [Op_cancel 1%N])) ->
       armed_ok s' /\
       exists p a, alarm_at 0 (after (ops_AB ++ [Op_cancel 1%N])) = Some (p, a) /\
         irq_queue s' = irq_queue (after (ops_AB ++ [Op_cancel 1%N])) ++ [p] /\
         count s' = (if periodic a then count (after (ops_AB ++ [Op_cancel 1%N]))
                     else count (after (ops_AB ++ [Op_cancel 1%N])) - 1)).
Proof.
  apply (isr_rearms (after (ops_AB ++ [Op_cancel 1%N]))).
  apply wfb_sound. vm_compute. reflexivity.
Defined.

(** X7.  Activation keeps the comparator right: if it serves the list before
    [alarm_set_callback_helper] is called with a handler other than none, it
    serves the list afterwards, whether the alarm was inserted (at index 0 or
    elsewhere), was in the list already, or was refused for lack of space. *)
Theorem activation_keeps_armed s self a handler0 arg :
  wf s -> armed_ok s -> objs s !! self = Some a -> is_none handler0 = false ->
  exists s' r,
    alarm_set_callback_helper self handler0 arg s = Some (s', r) /\ armed_ok s'.
Proof.
  intros W Arm Ha Hh. pose proof (wf_count s W) as Hcnt.
  set (a0 := set_handlers self handler0 arg a).
  assert (Hd0 : forall a', when a' = when a \/ heap_index a = NOT_PENDING ->
            0 < count s ->
            deadline (with_objs (<[self := a']> (objs s)) s) 0 = deadline s 0).
  { intros a' Hor Hc.
    eapply (obj_write_deadline s _ self a a'); try done; lia. }
  destruct (Z.eq_dec (heap_index a) NOT_PENDING) as [Hn|Hn];
    [destruct (Z.eq_dec (count s) ALARM_HEAP_MAX_ELEMENTS) as [Hc|Hc]|].
  - rewrite (helper_noop s self a handler0 arg Ha Hh (or_intror Hc)).
    eexists. eexists. split; [reflexivity|].
    destruct Arm as [A1 A2]. split; [exact A1|]. intros Hpos. simpl in *.
    rewrite (A2 Hpos). symmetry. apply Hd0; auto.
  - destruct (helper_activate s self a handler0 arg W Ha Hn ltac:(lia) Hh)
      as (k & s' & E & W1 & _ & _ & Hk & P & _ & _ & _ & Hhw & _).
    cbv zeta in *.
    set (a1 := with_when _ _) in *. set (s1 := with_objs _ _) in *.
    exists s', (Ok tt). split; [done|].
    apply (insert_keeps_armed s1 s' self a1 k W1); auto.
    + apply lookup_insert_eq.
    + change (count s1) with (count s). lia.
    + destruct Arm as [A1 A2]. split; [exact A1|]. intros Hpos.
      change (count s1) with (count s) in Hpos.
      change (comparator (hw s1)) with (comparator (hw s)).
      rewrite (A2 Hpos). symmetry.
      eapply (obj_write_deadline s s1 self a a1); try done; lia.
  - rewrite (helper_noop s self a handler0 arg Ha Hh (or_introl Hn)).
    eexists. eexists. split; [reflexivity|].
    destruct Arm as [A1 A2]. split; [exact A1|]. intros Hpos. simpl in *.
    rewrite (A2 Hpos). symmetry. apply Hd0; auto.
Qed.

Lemma armed_ok_after_AB : armed_ok (after (ops_AB ++ [Op_cancel 0%N; Op_tick 40])).
Proof.
  split.
  - vm_compute. split; intros _; reflexivity.
  - intros _. vm_compute. reflexivity.
Qed.

Lemma activation_keeps_armed_witness :
  exists s' r,
    alarm_set_callback_helper 0%N hnd mp_const_none
      (after (ops_AB ++ [Op_cancel 0%N; Op_tick 40])) = Some (s', r) /\
    armed_ok s'.
Proof.
  apply (activation_keeps_armed (after (ops_AB ++ [Op_cancel 0%N; Op_tick 40])) 0%N
           (mk_alarm 5000 5000 NOT_PENDING hnd (mp_obj_alarm 0%N) false) hnd mp_const_none).
  - apply wfb_sound. vm_compute. reflexivity.
  - exact armed_ok_after_AB.
  - vm_compute. reflexivity.
  - reflexivity.
Defined.

(** X8.  [alarm_delete] writes no timer register.  After the alarm at index 0
    is cancelled the comparator is still enabled and still holds that alarm's
    deadline, also when the list has become empty; the alarm that was at
    index 1, if there is one, is now at index 0, and an interrupt that comes
    then pops and queues it, whatever the counter reads. *)
Theorem cancel_head_leaves_comparator s self a :
  wf s -> armed_ok s -> 0 < count s -> alarm_at 0 s = Some (self, a) ->
  exists s1,
    alarm_delete self s = Some s1 /\ hw s1 = hw s /\ count s1 = count s - 1 /\
    alarm_en (hw s1) = true /\ comparator (hw s1) = when a /\
    (forall q b, 1 < count s -> alarm_at 1 s = Some (q, b) ->
       alarm_at 0 s1 = Some (q, with_heap_index 0 b) /\
       forall c, exists s2,
         timer_alarm_isr (set_counter c s1) = Some s2 /\
         irq_queue s2 = irq_queue s ++ [q]).
Proof.
  intros W [A1 A2] Hc A.
  destruct (remove_alarm_ok s 0 W) as (v & a' & s1 & A' & I & E & P & Hq & Hh & W1 & _);
    [lia|].
  assert (v = self) by congruence. subst v.
  assert (a' = a) by congruence. subst a'.
  pose proof (alarm_at_inv _ _ _ _ A) as [D O].
  exists s1. split.
  { unfold alarm_delete, deref. rewrite O, I.
    change (0 =? NOT_PENDING) with false. exact E. }
  split; [done|]. split; [by destruct P|].
  split; [rewrite Hh; by apply A1|].
  split; [rewrite Hh, (A2 Hc); unfold deadline; by rewrite A|].
  intros q b Hc2 Aq.
  destruct (remove_post_slot s s1 self a 0 W ltac:(lia) A P 0) as (p' & b' & Ap & _ & _ & H');
    [lia|].
  destruct (Z.ltb_spec 0 0); [lia|]. destruct H' as (b0 & A0 & ->).
  change (0 + 1) with 1 in A0.
  assert (p' = q) by congruence. subst p'.
  assert (b0 = b) by congruence. subst b0.
  split; [done|]. intros c.
  assert (Wc : wf (set_counter c s1)) by (by apply wf_set_counter).
  assert (Hcc : 0 < count (set_counter c s1)).
  { change (count (set_counter c s1)) with (count s1). destruct P as (-> & _). lia. }
  destruct (timer_alarm_isr_steps _ Wc Hcc)
    as (alarm & a2 & ? & ? & s3 & Aa & _ & _ & _ & _ & _ & _ & _ & _ & _ & _ & _
        & _ & _ & _ & _ & _ & Hq3 & _ & _ & E3).
  change (alarm_at 0 (set_counter c s1)) with (alarm_at 0 s1) in Aa.
  assert (alarm = q) by congruence. subst alarm.
  eexists. split; [exact E3|]. simpl. rewrite Hq3. simpl. by rewrite Hq.
Qed.

Lemma armed_ok_AB : armed_ok (after ops_AB).
Proof.
  split.
  - vm_compute. split; intros _; reflexivity.
  - intros _. vm_compute. reflexivity.
Qed.

Lemma cancel_head_leaves_comparator_witness :
  exists s1,
    alarm_delete 1%N (after ops_AB) = Some s1 /\ hw s1 = hw (after ops_AB) /\
    count s1 = count (after ops_AB) - 1 /\
    alarm_en (hw s1) = true /\ comparator (hw s1) = 3000 /\
    (forall q b, 1 < count (after ops_AB) -> alarm_at 1 (after ops_AB) = Some (q, b) ->
       alarm_at 0 s1 = Some (q, with_heap_index 0 b) /\
       forall c, exists s2,
         timer_alarm_isr (set_counter c s1) = Some s2 /\
         irq_queue s2 = irq_queue (after ops_AB) ++ [q]).
Proof.
  apply (cancel_head_leaves_comparator (after ops_AB) 1%N
           (mk_alarm 3000 3000 0 hnd (mp_obj_alarm 1%N) true)).
  - apply wfb_sound. vm_compute. reflexivity.
  - exact armed_ok_AB.
  - vm_compute. reflexivity.
  - vm_compute. reflexivity.
Defined.

(** The scenario of X8 run: B (3000 ticks) is cancelled, the interrupt comes
    at tick 3000 and A, due at 5000, is queued. *)
Example cancel_head_then_interrupt :
  let s := after (ops_AB ++ [Op_cancel 1%N; Op_tick 3000; Op_isr]) in
  irq_queue s = [0%N] /\ count s = 0 /\ counter (hw s) = 3000.
Proof. vm_compute. repeat split; reflexivity. Qed.

(** ** X9 and X10: firing *)

Lemma timer_alarm_isr_counter s s' :
  wf s -> timer_alarm_isr s = Some s' -> counter (hw s') = counter (hw s).
Proof.
  intros W E. destruct (Z.lt_ge_cases 0 (count s)) as [Hc|Hc].
  - destruct (timer_alarm_isr_steps s W Hc)
      as (alarm & a & s1 & s2 & s3 & _ & _ & _ & P1 & W1 & _ & D1 & _ & Hh1 & Hper & W2 & _
          & _ & E3 & _ & _ & _ & _ & _ & _ & E').
    rewrite E' in E. injection E as <-. simpl.
    assert (H1 : counter (hw s1) = counter (hw s)) by (by rewrite Hh1).
    assert (H2 : counter (hw s2) = counter (hw s1)).
    { destruct (periodic a); [|by subst s2].
      destruct Hper as (k & Ww & Ei & Hk & _). cbv zeta in *.
      set (a2 := with_when _ _) in *. set (sw := with_objs _ _) in *.
      destruct (insert_alarm_ok sw alarm a2 Ww) as (k' & s2' & E2 & _ & _ & _ & _ & _ & Hh & _).
      { apply lookup_insert_eq. }
      { reflexivity. }
      { change (count sw) with (count s1). destruct P1 as (-> & _).
        pose proof (wf_count s W). lia. }
      assert (s2' = s2) by congruence. subst s2'.
      rewrite Hh, counter_insert_hw. reflexivity. }
    destruct (load_next_alarm_ok s2 W2) as (s3' & E3' & _ & _ & _ & _ & Hh3 & _).
    assert (s3' = s3) by congruence. subst s3'.
    rewrite Hh3, <- H1, <- H2.
    destruct (0 <? count s2); [apply counter_hw_arm|apply counter_hw_apply].
  - rewrite timer_alarm_isr_idle in E by done. by injection E as <-.
Qed.

(** X9.  When the alarm at index 0 is a one-shot alarm, the interrupt handler
    takes it out for good: the list is the old one without its head, the alarm
    carries the sentinel and is queued once.  Calling [callback] with a
    handler on it right afterwards puts it back in the list, with the deadline
    (counter + interval) modulo 2^64. *)
Theorem oneshot_fire_then_reactivate s p a handler0 arg :
  wf s -> 0 < count s -> alarm_at 0 s = Some (p, a) -> periodic a = false ->
  is_none handler0 = false ->
  exists s1 s2 a2,
    timer_alarm_isr s = Some s1 /\
    alarm_list s1 = drop 1 (alarm_list s) /\ count s1 = count s - 1 /\
    objs s1 !! p = Some (with_heap_index NOT_PENDING a) /\ ~ member p s1 /\
    irq_queue s1 = irq_queue s ++ [p] /\
    alarm_set_callback_helper p handler0 arg s1 = Some (s2, Ok tt) /\
    count s2 = count s /\ member p s2 /\
    objs s2 !! p = Some a2 /\
    when a2 = to_uint64 (counter (hw s) + interval a) /\ periodic a2 = false.
Proof.
  intros W Hc A Hp Hh. pose proof (wf_count s W) as Hcnt.
  destruct (timer_alarm_isr_oneshot s p a W Hc A Hp) as (s1 & E1 & W1 & _ & P1 & O1 & Hq1).
  assert (Hc1 : count s1 = count s - 1) by (by destruct P1).
  assert (Hm1 : ~ member p s1).
  { intros M. by apply (wf_member_index s1 p _ W1 O1) in M. }
  pose proof (timer_alarm_isr_counter s s1 W E1) as Hctr.
  destruct (helper_activate s1 p _ handler0 arg W1 O1 eq_refl ltac:(lia) Hh)
    as (k & s2 & E2 & Ws & _ & _ & Hk & P2 & _ & _ & _ & _ & W2 & _).
  cbv zeta in *. set (a1 := with_when _ _) in *. set (sw := with_objs _ _) in *.
  assert (Ha2 : objs s2 !! p = Some (with_heap_index k a1)).
  { destruct P2 as (_ & _ & _ & Ho). rewrite Ho. unfold sw. simpl.
    rewrite lookup_insert_eq. simpl. unfold insert_renumber. by rewrite decide_True. }
  exists s1, s2, (with_heap_index k a1).
  split; [done|]. split.
  { rewrite (remove_post_list s s1 p 0 W ltac:(lia) P1). simpl.
    by destruct (alarm_list s). }
  split; [done|]. split; [done|]. split; [done|]. split; [done|]. split; [done|].
  split.
  { destruct P2 as (Hc2 & _). rewrite Hc2. change (count sw) with (count s1).
    clear -Hc1. lia. }
  split.
  { apply (wf_member_index s2 p _ W2 Ha2). simpl. rewrite NOT_PENDING_val.
    unfold ALARM_HEAP_MAX_ELEMENTS in Hcnt. lia. }
  split; [done|]. split; [|exact Hp].
  simpl. by rewrite Hctr.
Qed.

Lemma oneshot_fire_then_reactivate_witness :
  exists s1 s2 a2,
    timer_alarm_isr (after (ops_AB ++ [Op_cancel 1%N; Op_tick 5000])) = Some s1 /\
    alarm_list s1 = drop 1 (alarm_list (after (ops_AB ++ [Op_cancel 1%N; Op_tick 5000]))) /\
    count s1 = count (after (ops_AB ++ [Op_cancel 1%N; Op_tick 5000])) - 1 /\
    objs s1 !! 0%N =
      Some (with_heap_index NOT_PENDING (mk_alarm 5000 5000 0 hnd (mp_obj_alarm 0%N) false)) /\
    ~ member 0%N s1 /\
    irq_queue s1 = irq_queue (after (ops_AB ++ [Op_cancel 1%N; Op_tick 5000])) ++ [0%N] /\
    alarm_set_callback_helper 0%N hnd mp_const_none s1 = Some (s2, Ok tt) /\
    count s2 = count (after (ops_AB ++ [Op_cancel 1%N; Op_tick 5000])) /\
    member 0%N s2 /\
    objs s2 !! 0%N = Some a2 /\
    when a2 =
      to_uint64 (counter (hw (after (ops_AB ++ [Op_cancel 1%N; Op_tick 5000]))) + 5000) /\
    periodic a2 = false.
Proof.
  apply (oneshot_fire_then_reactivate (after (ops_AB ++ [Op_cancel 1%N; Op_tick 5000])) 0%N
           (mk_alarm 5000 5000 0 hnd (mp_obj_alarm 0%N) false) hnd mp_const_none).
  - apply wfb_sound. vm_compute. reflexivity.
  - vm_compute. reflexivity.
  - vm_compute. reflexivity.
  - reflexivity.
  - reflexivity.
Defined.

Lemma handler_after_helper s self a handler0 arg s' r :
  wf s -> objs s !! self = Some a ->
  alarm_set_callback_helper self handler0 arg s = Some (s', r) ->
  exists a', objs s' !! self = Some a' /\ handler a' = handler0 /\
    handler_arg a' = (if is_none arg then mp_obj_alarm self else arg).
Proof.
  intros W Ha E.
  set (a0 := set_handlers self handler0 arg a).
  destruct (is_none handler0) eqn:Hh.
  - destruct handler0; try discriminate.
    destruct (helper_deactivate s self a arg W Ha) as (W0 & Hnp & Hp).
    destruct (Z.eq_dec (heap_index a) NOT_PENDING) as [Hn|Hn].
    + rewrite (Hnp Hn) in E. injection E as <- _. exists a0.
      split; [apply lookup_insert_eq|done].
    + destruct (Hp Hn) as (s2 & E2 & _ & A0 & _ & P & _).
      rewrite E2 in E. injection E as <- _.
      eexists. split; [exact (remove_post_victim _ _ _ _ _ A0 P)|done].
  - pose proof (wf_count s W) as Hcnt.
    destruct (Z.eq_dec (heap_index a) NOT_PENDING) as [Hn|Hn];
      [destruct (Z.eq_dec (count s) ALARM_HEAP_MAX_ELEMENTS) as [Hc|Hc]|].
    + rewrite (helper_noop s self a handler0 arg Ha Hh (or_intror Hc)) in E.
      injection E as <- _. exists a0. split; [apply lookup_insert_eq|done].
    + destruct (helper_activate s self a handler0 arg W Ha Hn ltac:(lia) Hh)
        as (k & s2 & E2 & _ & _ & _ & _ & (_ & _ & _ & Ho) & _).
      cbv zeta in *. rewrite E2 in E. injection E as <- _.
      rewrite Ho. simpl. rewrite lookup_insert_eq. simpl. eexists.
      split; [reflexivity|]. unfold insert_renumber. by rewrite decide_True.
    + rewrite (helper_noop s self a handler0 arg Ha Hh (or_introl Hn)) in E.
      injection E as <- _. exists a0. split; [apply lookup_insert_eq|done].
Qed.

(** X10.  [alarm_handler] calls the handler that is stored in the alarm when
    the queued call runs.  After [callback] with a handler it calls that
    handler with the given argument, or with the alarm itself when none was
    given, whether or not the alarm could be put in the list.  After
    [callback(None)] it calls nothing, also for an interrupt that was queued
    before.  [cancel] does not change what it calls. *)
Theorem alarm_handler_calls :
  (forall s self a handler0 arg s' r,
     wf s -> objs s !! self = Some a ->
     alarm_set_callback_helper self handler0 arg s = Some (s', r) ->
     alarm_handler self s' =
       Some (if is_none handler0 then None
             else Some (handler0, if is_none arg then mp_obj_alarm self else arg))) /\
  (forall s self s' p,
     wf s -> alarm_delete self s = Some s' ->
     alarm_handler p s' = alarm_handler p s).
Proof.
  split.
  - intros s self a handler0 arg s' r W Ha E.
    destruct (handler_after_helper s self a handler0 arg s' r W Ha E)
      as (a' & Ha' & H1 & H2).
    unfold alarm_handler, deref. rewrite Ha', H1, H2.
    by destruct (is_none handler0).
  - intros s self s' p W E. unfold alarm_delete, deref in E.
    destruct (objs s !! self) as [a|] eqn:Ha; [|discriminate].
    destruct (Z.eqb_spec (heap_index a) NOT_PENDING) as [Hn|Hn]; cbn [negb] in E.
    + by injection E as <-.
    + destruct (wf_obj s W self a Ha) as [|[Hr _]]; [done|].
      destruct (remove_alarm_ok s (heap_index a) W Hr)
        as (v & b & s2 & _ & _ & E2 & (_ & _ & _ & Ho) & _).
      assert (s2 = s') by congruence. subst s2.
      unfold alarm_handler, deref. rewrite Ho.
      destruct (objs s !! p) as [c|]; [|done]. simpl.
      destruct (remove_renumber_fields (heap_index a) (count s) v p c)
        as (_ & _ & -> & -> & _). done.
Qed.

Lemma alarm_handler_calls_witness :
  (exists s' r,
     alarm_set_callback_helper 1%N mp_const_none mp_const_none
       (after (ops_AB ++ [Op_tick 3000; Op_isr])) = Some (s', r) /\
     alarm_handler 1%N s' = Some None /\
     alarm_handler 1%N (after (ops_AB ++ [Op_tick 3000; Op_isr]))
       = Some (Some (hnd, mp_obj_alarm 1%N))) /\
  (exists s', alarm_delete 1%N (after (ops_AB ++ [Op_tick 3000; Op_isr])) = Some s' /\
     alarm_handler 1%N s' = Some (Some (hnd, mp_obj_alarm 1%N))).
Proof.
  assert (W : wf (after (ops_AB ++ [Op_tick 3000; Op_isr])))
    by (apply wfb_sound; vm_compute; reflexivity).
  split.
  - destruct (alarm_set_callback_helper 1%N mp_const_none mp_const_none
                (after (ops_AB ++ [Op_tick 3000; Op_isr]))) as [[s' r]|] eqn:E.
    + exists s', r. split; [reflexivity|]. split; [|vm_compute; reflexivity].
      apply (proj1 alarm_handler_calls (after (ops_AB ++ [Op_tick 3000; Op_isr])) 1%N
               (mk_alarm 6000 3000 1 hnd (mp_obj_alarm 1%N) true)
               mp_const_none mp_const_none s' r W).
      * vm_compute. reflexivity.
      * exact E.
    + vm_compute in E. discriminate E.
  - destruct (alarm_delete 1%N (after (ops_AB ++ [Op_tick 3000; Op_isr]))) as [s'|] eqn:E.
    + exists s'. split; [reflexivity|].
      rewrite (proj2 alarm_handler_calls (after (ops_AB ++ [Op_tick 3000; Op_isr])) 1%N
                 s' 1%N W E).
      vm_compute. reflexivity.
    + vm_compute in E. discriminate E.
Defined.

(** ** X11 and X12: the constructor *)

(** X11.  The conversion to ticks in [alarm_make_new] is exact as long as the
    32-bit product does not overflow: a positive [ms] (alone) gives
    [ms * (CLK_FREQ / 1000)] ticks, a positive [us] (alone) gives
    [us * (CLK_FREQ / 1000000)] ticks, and a non-negative [s] (alone) gives
    its rounded tick count. *)
Theorem alarm_make_new_clocks_exact :
  (forall clk h arg per ms,
     0 <= clk -> 0 < ms < UINT32_MOD ->
     ms * Z.quot (CLK_FREQ clk) 1000 < UINT32_MOD ->
     alarm_make_new_clocks clk (mk_args h float_zero ms 0 arg per)
       = Ok (ms * Z.quot (CLK_FREQ clk) 1000)) /\
  (forall clk h arg per us,
     0 <= clk -> 0 < us < UINT32_MOD ->
     us * Z.quot (CLK_FREQ clk) 1000000 < UINT32_MOD ->
     alarm_make_new_clocks clk (mk_args h float_zero 0 us arg per)
       = Ok (us * Z.quot (CLK_FREQ clk) 1000000)) /\
  (forall clk h arg per ticks,
     0 <= ticks < UINT64_MOD ->
     alarm_make_new_clocks clk (mk_args h (mk_float true false ticks) 0 0 arg per)
       = Ok ticks).
Proof.
  assert (Hq : forall clk d, 0 <= clk -> 0 < d -> 0 <= Z.quot (CLK_FREQ clk) d).
  { intros clk d Hc Hd. unfold CLK_FREQ. apply Z.quot_pos; [|lia].
    apply Z.quot_pos; lia. }
  rewrite UINT32_MOD_val, UINT64_MOD_val.
  split; [|split].
  - intros clk h arg per ms Hc Hms Hp. unfold alarm_make_new_clocks.
    cbn [a_s a_ms a_us f_nonzero f_negative f_clocks float_zero].
    pose proof (Hq clk 1000 Hc ltac:(lia)) as Hq1.
    assert (0 <= ms * Z.quot (CLK_FREQ clk) 1000) by (apply Z.mul_nonneg_nonneg; lia).
    rewrite (to_uint32_small ms) by (rewrite UINT32_MOD_val; lia).
    change (to_uint32 0) with 0.
    rewrite (to_uint32_small (ms * _)) by (rewrite UINT32_MOD_val; lia).
    destruct (Z.eqb_spec ms 0); [lia|]. destruct (Z.ltb_spec ms 0); [lia|].
    rewrite Z.mul_0_l. change (to_uint32 0) with 0.
    repeat (rewrite Z.add_0_l || rewrite Z.add_0_r).
    rewrite !(to_uint64_small (ms * _)) by (rewrite UINT64_MOD_val; lia).
    reflexivity.
  - intros clk h arg per us Hc Hus Hp. unfold alarm_make_new_clocks.
    cbn [a_s a_ms a_us f_nonzero f_negative f_clocks float_zero].
    pose proof (Hq clk 1000000 Hc ltac:(lia)) as Hq1.
    assert (0 <= us * Z.quot (CLK_FREQ clk) 1000000)
      by (apply Z.mul_nonneg_nonneg; lia).
    rewrite (to_uint32_small us) by (rewrite UINT32_MOD_val; lia).
    change (to_uint32 0) with 0.
    rewrite (to_uint32_small (us * _)) by (rewrite UINT32_MOD_val; lia).
    destruct (Z.eqb_spec us 0); [lia|]. destruct (Z.ltb_spec us 0); [lia|].
    rewrite Z.mul_0_l. change (to_uint32 0) with 0.
    repeat (rewrite Z.add_0_l || rewrite Z.add_0_r).
    rewrite !(to_uint64_small (us * _)) by (rewrite UINT64_MOD_val; lia).
    reflexivity.
  - intros clk h arg per ticks Ht. unfold alarm_make_new_clocks.
    cbn [a_s a_ms a_us f_nonzero f_negative f_clocks].
    change (to_uint32 0) with 0. rewrite !Z.mul_0_l. change (to_uint32 0) with 0.
    repeat (rewrite Z.add_0_l || rewrite Z.add_0_r).
    rewrite !(to_uint64_small ticks) by (rewrite UINT64_MOD_val; lia).
    reflexivity.
Qed.

Lemma alarm_make_new_clocks_exact_witness :
  alarm_make_new_clocks 80000000 (mk_args hnd float_zero 250 0 mp_const_none false)
    = Ok (250 * Z.quot (CLK_FREQ 80000000) 1000) /\
  alarm_make_new_clocks 80000000 (mk_args hnd float_zero 0 1500 mp_const_none false)
    = Ok (1500 * Z.quot (CLK_FREQ 80000000) 1000000) /\
  alarm_make_new_clocks 80000000
    (mk_args hnd (mk_float true false 60000000) 0 0 mp_const_none false) = Ok 60000000.
Proof.
  split; [|split].
  - apply (proj1 alarm_make_new_clocks_exact); vm_compute; try split; congruence.
  - apply (proj1 (proj2 alarm_make_new_clocks_exact)); vm_compute; try split; congruence.
  - apply (proj2 (proj2 alarm_make_new_clocks_exact)); vm_compute; try split; congruence.
Defined.

(** X12.  With fewer than 16 alarms in the list, valid durations and a
    handler other than none, [alarm_make_new] returns a new alarm at an
    address that was not in use; it is in the list, with the computed
    interval, the given periodicity, handler and argument (itself when none
    was given) and the deadline (counter + interval) modulo 2^64.  Of the
    objects that were there before only [heap_index] may have been written. *)
Theorem alarm_make_new_success clk args clocks s :
  wf s -> count s < ALARM_HEAP_MAX_ELEMENTS ->
  alarm_make_new_clocks clk args = Ok clocks ->
  is_none (a_handler args) = false ->
  exists p k s',
    alarm_make_new clk args s = Some (s', Ok p) /\
    objs s !! p = None /\ count s' = count s + 1 /\ wf s' /\
    alarm_at k s' =
      Some (p, mk_alarm (to_uint64 (counter (hw s) + clocks)) clocks k (a_handler args)
                 (if is_none (a_arg args) then mp_obj_alarm p else a_arg args)
                 (a_periodic args)) /\
    (forall q b, objs s !! q = Some b ->
       exists b', objs s' !! q = Some b' /\
         when b' = when b /\ interval b' = interval b /\ handler b' = handler b /\
         handler_arg b' = handler_arg b /\ periodic b' = periodic b).
Proof.
  intros W Hc Hclk Hh. pose proof (wf_count s W) as Hcnt.
  unfold alarm_make_new. rewrite Hclk.
  pose proof (m_new_obj_fresh s) as Hf.
  unfold m_new_obj in *. cbn [fst] in Hf.
  set (p := fresh (dom (objs s))) in *.
  erewrite obj_update_some by (simpl; apply lookup_insert_eq).
  set (a := mk_alarm _ _ _ _ _ _).
  set (s1 := with_objs _ _).
  assert (Hs1 : s1 = with_objs (<[p := a]> (objs s)) s).
  { unfold s1, with_objs. simpl. by rewrite insert_insert_eq. }
  assert (Hw : 0 <= when a < UINT64_MOD) by (by rewrite UINT64_MOD_val).
  assert (W1 : wf s1) by (rewrite Hs1; by apply alloc_wf).
  assert (Ha1 : objs s1 !! p = Some a) by (rewrite Hs1; apply lookup_insert_eq).
  destruct (helper_activate s1 p a (a_handler args) (a_arg args) W1 Ha1 eq_refl Hc Hh)
    as (k & s' & E & Ww & _ & _ & Hk & P & _ & _ & _ & _ & W' & _).
  cbv zeta in *. set (a1 := with_when _ _) in *.
  set (sw := with_objs (<[p := a1]> (objs s1)) (reg_write W_update s1)) in *.
  rewrite E. exists p, k, s'. split; [done|]. split; [done|].
  pose proof P as (Hc' & _ & Hd' & Ho').
  split; [exact Hc'|]. split; [done|].
  assert (Hp' : objs s' !! p = Some (with_heap_index k a1)).
  { rewrite Ho'. unfold sw. simpl. rewrite lookup_insert_eq. simpl.
    unfold insert_renumber. by rewrite decide_True. }
  split.
  - apply alarm_at_some; [|exact Hp'].
    destruct (wf_obj s' W' p _ Hp') as [Hn|[_ Hd]]; [|exact Hd].
    simpl in Hn. rewrite NOT_PENDING_val in Hn.
    change (count s1) with (count s) in Hk.
    unfold ALARM_HEAP_MAX_ELEMENTS in *. lia.
  - intros q b Hb. assert (p <> q) by congruence.
    assert (Hqw : objs sw !! q = Some b).
    { unfold sw, s1. simpl. rewrite !lookup_insert_ne by done. exact Hb. }
    rewrite Ho', Hqw. simpl.
    eexists. split; [reflexivity|]. apply insert_renumber_fields.
Qed.

Lemma alarm_make_new_success_witness :
  exists p k s',
    alarm_make_new clk_1MHz (args_us 700 true) (after (ops_AB ++ [Op_tick 10]))
      = Some (s', Ok p) /\
    objs (after (ops_AB ++ [Op_tick 10])) !! p = None /\
    count s' = count (after (ops_AB ++ [Op_tick 10])) + 1 /\ wf s' /\
    alarm_at k s' =
      Some (p, mk_alarm (to_uint64 (counter (hw (after (ops_AB ++ [Op_tick 10]))) + 700))
                 700 k hnd (mp_obj_alarm p) true) /\
    (forall q b, objs (after (ops_AB ++ [Op_tick 10])) !! q = Some b ->
       exists b', objs s' !! q = Some b' /\
         when b' = when b /\ interval b' = interval b /\ handler b' = handler b /\
         handler_arg b' = handler_arg b /\ periodic b' = periodic b).
Proof.
  apply (alarm_make_new_success clk_1MHz (args_us 700 true) 700
           (after (ops_AB ++ [Op_tick 10]))).
  - apply wfb_sound. vm_compute. reflexivity.
  - vm_compute. reflexivity.
  - vm_compute. reflexivity.
  - reflexivity.
Defined.

(** ** X13: the list across an interrupt *)

(** X13.  An interrupt with a non-empty list pops the head.  When the head is
    a one-shot alarm the new list is the rest of the old one.  When it is
    periodic the new list is the rest with the head put in again at one
    index, so it holds the same alarms as before. *)
Theorem isr_on_list s :
  wf s -> 0 < count s ->
  exists p a s',
    alarm_at 0 s = Some (p, a) /\ timer_alarm_isr s = Some s' /\
    alarm_list s = Some p :: drop 1 (alarm_list s) /\
    (periodic a = false -> alarm_list s' = drop 1 (alarm_list s)) /\
    (periodic a = true ->
       alarm_list s' ≡ₚ alarm_list s /\
       exists k, (k <= length (drop 1 (alarm_list s)))%nat /\
         alarm_list s' =
           take k (drop 1 (alarm_list s)) ++ Some p :: drop k (drop 1 (alarm_list s))).
Proof.
  intros W Hc. pose proof (wf_count s W) as Hcnt.
  destruct (timer_alarm_isr_steps s W Hc)
    as (p & a & s1 & s2 & s3 & A & _ & _ & P1 & W1 & _ & _ & _ & _ & Hper & _ & _
        & _ & _ & Hc3 & Hd3 & _ & _ & _ & _ & E).
  assert (Hl1 : alarm_list s1 = drop 1 (alarm_list s)).
  { rewrite (remove_post_list s s1 p 0 W ltac:(lia) P1). simpl.
    by destruct (alarm_list s). }
  assert (Hhead : alarm_list s = Some p :: drop 1 (alarm_list s)).
  { pose proof (alarm_list_lookup s 0 Hcnt) as H0.
    change (Z.of_nat 0) with 0 in H0.
    rewrite (proj2 (Z.ltb_lt 0 (count s)) Hc) in H0.
    apply alarm_at_inv in A as [D _]. rewrite D in H0.
    destruct (alarm_list s) as [|x l]; [discriminate|].
    simpl in H0. injection H0 as ->. reflexivity. }
  assert (Hl3 : alarm_list (mp_irq_queue_interrupt p s3) = alarm_list s2).
  { unfold alarm_list. simpl. by rewrite Hc3, Hd3. }
  exists p, a, (mp_irq_queue_interrupt p s3).
  split; [done|]. split; [done|]. split; [done|]. split.
  - intros Hp. rewrite Hp in Hper. subst s2. by rewrite Hl3.
  - intros Hp. rewrite Hp in Hper. destruct Hper as (k & Ww & _ & Hk & P2).
    cbv zeta in *. set (sw := with_objs _ _) in *.
    assert (Hc1 : count s1 = count s - 1) by (by destruct P1).
    assert (Hl2 : alarm_list s2 =
              take (Z.to_nat k) (alarm_list s1) ++ Some p :: drop (Z.to_nat k) (alarm_list s1)).
    { apply (insert_post_list sw s2 p k Ww); [| |exact P2];
        change (count sw) with (count s1); unfold ALARM_HEAP_MAX_ELEMENTS in *; lia. }
    rewrite Hl3, Hl2, Hl1. split.
    + rewrite Hhead at 3. rewrite <- Permutation_middle. by rewrite take_drop.
    + exists (Z.to_nat k). split; [|done].
      rewrite <- Hl1, alarm_list_length by done. lia.
Qed.

Lemma isr_on_list_witness :
  exists p a s',
    alarm_at 0 (after ops_AB) = Some (p, a) /\ timer_alarm_isr (after ops_AB) = Some s' /\
    alarm_list (after ops_AB) = Some p :: drop 1 (alarm_list (after ops_AB)) /\
    (periodic a = false -> alarm_list s' = drop 1 (alarm_list (after ops_AB))) /\
    (periodic a = true ->
       alarm_list s' ≡ₚ alarm_list (after ops_AB) /\
       exists k, (k <= length (drop 1 (alarm_list (after ops_AB))))%nat /\
         alarm_list s' =
           take k (drop 1 (alarm_list (after ops_AB)))
             ++ Some p :: drop k (drop 1 (alarm_list (after ops_AB)))).
Proof.
  apply (isr_on_list (after ops_AB)).
  - apply wfb_sound. vm_compute. reflexivity.
  - vm_compute. reflexivity.
Defined.

(** ** X14 and X15: along every run *)

Lemma run_keeps clk ops : forall s,
  wf s -> ops_valid clk ops s = true ->
  exists s', run clk ops s = Some s' /\ wf s' /\ keeps s s'.
Proof.
  induction ops as [|o ops IH]; intros s W V.
  - exists s. split; [done|]. split; [done|apply keeps_refl].
  - cbn [ops_valid] in V. apply andb_prop in V as [V1 V2].
    destruct (step_ok clk o s W V1) as (s1 & E & W1 & _).
    cbn [run]. rewrite E in *.
    destruct (IH s1 W1 V2) as (s' & E' & W' & K').
    exists s'. split; [done|]. split; [done|].
    eapply keeps_trans; [|exact K']. by apply (keeps_step clk o).
Qed.

(** X14.  After every run from the initial state the array holds no stale
    pointer: every slot at or above [count] is NULL, no alarm is listed
    twice, and every pointer in the array is that of a live alarm object whose
    [heap_index] is the index of the slot. *)
Theorem no_stale_pointers clk h ops :
  0 <= counter h < UINT64_MOD ->
  ops_valid clk ops (init_alarm_heap h) = true ->
  exists s, run clk ops (init_alarm_heap h) = Some s /\
    (forall j, count s <= j < ALARM_HEAP_MAX_ELEMENTS -> data_get j s = Some None) /\
    NoDup (alarm_list s) /\
    (forall j p, data_get j s = Some (Some p) ->
       0 <= j < count s /\ exists a, objs s !! p = Some a /\ heap_index a = j).
Proof.
  intros Hh V.
  destruct (run_keeps clk ops (init_alarm_heap h) (wf_init h Hh) V)
    as (s & E & W & [_ T]).
  specialize (T (tail_null_init h)).
  exists s. split; [done|]. split; [exact T|]. split; [by apply wf_alarm_list_NoDup|].
  intros j p Hd. pose proof (data_get_range _ _ _ Hd) as Hr.
  assert (Hj : 0 <= j < count s).
  { destruct (Z.lt_ge_cases j (count s)); [lia|].
    rewrite T in Hd by (unfold ALARM_HEAP_MAX_ELEMENTS; lia). discriminate. }
  split; [done|]. destruct (wf_slot s W j Hj) as (q & a & A & I).
  apply alarm_at_inv in A as [D O]. assert (q = p) by congruence. subst q.
  by exists a.
Qed.

Lemma no_stale_pointers_witness :
  exists s, run clk_1MHz ops_mixed (init_alarm_heap hw_reset) = Some s /\
    (forall j, count s <= j < ALARM_HEAP_MAX_ELEMENTS -> data_get j s = Some None) /\
    NoDup (alarm_list s) /\
    (forall j p, data_get j s = Some (Some p) ->
       0 <= j < count s /\ exists a, objs s !! p = Some a /\ heap_index a = j).
Proof.
  apply (no_stale_pointers clk_1MHz hw_reset ops_mixed).
  - vm_compute. split; [discriminate|reflexivity].
  - vm_compute. reflexivity.
Defined.

(** X15.  No operation frees an alarm object or writes its [interval] or
    [periodic] field: after every run each object of the start state is still
    there with the interval and the periodicity it had. *)
Theorem interval_periodic_immutable clk ops s :
  wf s -> ops_valid clk ops s = true ->
  exists s', run clk ops s = Some s' /\
    forall p a, objs s !! p = Some a ->
      exists a', objs s' !! p = Some a' /\
        interval a' = interval a /\ periodic a' = periodic a.
Proof.
  intros W V. destruct (run_keeps clk ops s W V) as (s' & E & _ & [K _]).
  exists s'. split; [done|exact K].
Qed.

Lemma interval_periodic_immutable_witness :
  exists s', run clk_1MHz [Op_tick 3000; Op_isr; Op_cancel 1%N; Op_callback 0%N hnd hnd]
               (after ops_AB) = Some s' /\
    forall p a, objs (after ops_AB) !! p = Some a ->
      exists a', objs s' !! p = Some a' /\
        interval a' = interval a /\ periodic a' = periodic a.
Proof.
  apply (interval_periodic_immutable clk_1MHz
           [Op_tick 3000; Op_isr; Op_cancel 1%N; Op_callback 0%N hnd hnd] (after ops_AB)).
  - apply wfb_sound. vm_compute. reflexivity.
  - vm_compute. reflexivity.
Defined.

(** ** X16: cancelling behind the head *)

(** X16.  Cancelling an alarm that is not at index 0 (one further down the
    list, or one that is not in the list) leaves the comparator serving the
    list: the head and its deadline are untouched and no register is
    written. *)
Theorem cancel_behind_head_keeps_armed s self a :
  wf s -> armed_ok s -> objs s !! self = Some a -> heap_index a <> 0 ->
  exists s', alarm_delete self s = Some s' /\ hw s' = hw s /\ armed_ok s' /\
    (0 < count s -> 0 < count s' /\ alarm_at 0 s' = alarm_at 0 s).
Proof.
  intros W Arm Ha Hidx. unfold alarm_delete, deref. rewrite Ha.
  destruct (Z.eqb_spec (heap_index a) NOT_PENDING) as [Hn|Hn]; cbn [negb].
  - exists s. auto.
  - destruct (wf_obj s W self a Ha) as [|[Hr Hd]]; [done|].
    destruct (remove_alarm_ok s (heap_index a) W Hr)
      as (v & b & s' & A & _ & E & P & _ & Hh & W' & _).
    assert (Hhead : alarm_at 0 s' = alarm_at 0 s).
    { destruct (remove_post_slot s s' v b (heap_index a) W Hr A P 0)
        as (p' & b' & Ap & _ & _ & H'); [lia|].
      destruct (Z.ltb_spec 0 (heap_index a)); [|lia]. congruence. }
    assert (Hc' : count s' = count s - 1) by (by destruct P).
    exists s'. split; [done|]. split; [done|]. split; [|split; [lia|done]].
    destruct Arm as [A1 A2]. unfold armed_ok, deadline. rewrite Hh, Hhead, Hc'.
    split.
    + split; [lia|]. intros _. apply A1. lia.
    + intros _. apply A2. lia.
Qed.

Lemma cancel_behind_head_keeps_armed_witness :
  exists s', alarm_delete 0%N (after ops_AB) = Some s' /\ hw s' = hw (after ops_AB) /\
    armed_ok s' /\
    (0 < count (after ops_AB) ->
       0 < count s' /\ alarm_at 0 s' = alarm_at 0 (after ops_AB)).
Proof.
  apply (cancel_behind_head_keeps_armed (after ops_AB) 0%N
           (mk_alarm 5000 5000 1 hnd (mp_obj_alarm 0%N) false)).
  - apply wfb_sound. vm_compute. reflexivity.
  - exact armed_ok_AB.
  - vm_compute. reflexivity.
  - discriminate.
Defined.
